(** * NPCM750 ECE (hextile encoding/compression engine) driver

    A shallow embedding of the control plane of the two ECE drivers of the
    tree,

      - [drivers/video/compression/npcm750_ece.c]   (module [Video]) and
      - [drivers/media/platform/nuvoton/npcm750_ece.c] (module [Media]),

    together with the properties of the encode-request lifecycle: the tile
    partition of a rectangle, the completion poll, the line-pitch and
    frame-buffer configuration, the reset sequence and the serialisation
    of the ioctl entry point by the driver mutex. *)

From Stdlib Require Import ZArith Lia List Bool.
From stdpp Require Import base numbers option list gmap.

Local Open Scope Z_scope.

(** ** Machine arithmetic

    [u32] values are integers with the wrap-around written out.  The
    target is 32-bit ARM: [unsigned long] is 32 bits wide and plain [char]
    is unsigned. *)

Module Mach.

Definition u32 (x : Z) : Z := x mod 2 ^ 32.

Definition s32 (x : Z) : Z :=
  let y := u32 x in if y <? 2 ^ 31 then y else y - 2 ^ 32.

Definition u8 (x : Z) : Z := x mod 2 ^ 8.

Definition is_u32 (x : Z) : Prop := 0 <= x < 2 ^ 32.

Definition add32 (x y : Z) : Z := u32 (x + y).
Definition sub32 (x y : Z) : Z := u32 (x - y).
Definition mul32 (x y : Z) : Z := u32 (x * y).
Definition shl32 (x n : Z) : Z := u32 (Z.shiftl x n).
Definition not32 (x : Z) : Z := u32 (Z.lnot x).

(** [BIT(n)] of [linux/bits.h]: [1UL << n]. *)
Definition BIT (n : Z) : Z := shl32 1 n.

End Mach.
Import Mach.

(** ** Register map and constants shared by the two drivers *)

Definition DDA_CTRL : Z := 0x0000.
Definition DDA_STS : Z := 0x0004.
Definition FBR_BA : Z := 0x0008.
Definition ED_BA : Z := 0x000C.
Definition RECT_XY : Z := 0x0010.
Definition RECT_DIMEN : Z := 0x0014.
Definition RESOL : Z := 0x001C.
Definition HEX_CTRL : Z := 0x0040.
Definition HEX_RECT_OFFSET : Z := 0x0048.

Definition ECEEN : Z := Eval cbv in BIT 0.
Definition ENCDIS : Z := Eval cbv in BIT 0.
Definition CDREADY : Z := 0x100.
Definition ENC_GAP : Z := 0x1f00.
Definition ENC_GAP_OFFSET : Z := 8.
Definition ENC_MIN_GAP_SIZE : Z := 4.

Definition ECE_RECT_DIMEN_HLTR_OFFSET : Z := 27.
Definition ECE_RECT_DIMEN_HR_OFFSET : Z := 16.
Definition ECE_RECT_DIMEN_WLTR_OFFSET : Z := 11.
Definition ECE_RECT_DIMEN_WR_OFFSET : Z := 0.

Definition LP_512 : Z := 0.
Definition LP_1024 : Z := 1.
Definition LP_2048 : Z := 2.
Definition LP_2560 : Z := 3.
Definition LP_4096 : Z := 4.

Definition DEFAULT_WIDTH : Z := 640.
Definition DEFAULT_HEIGHT : Z := 640.
Definition DEFAULT_LP : Z := 2048.

Definition ECE_MIN_LP : Z := 512.
Definition ECE_MAX_LP : Z := 4096.
Definition ECE_TILE_W : Z := 16.
Definition ECE_TILE_H : Z := 16.

Definition EFAULT : Z := 14.

(** ** Tile partition

    The locals [w_tile], [h_tile], [w_size], [h_size] of [ece_enc_rect] and
    [npcm750_ece_enc_rect] (the two functions agree to the letter on this
    part) at the point where the dimension register is written. *)

Record tiles : Type := mk_tiles {
  w_tile : Z;
  h_tile : Z;
  w_size : Z;
  h_size : Z
}.

Definition rect_tiles (r_w r_h : Z) : tiles :=
  let w_size := ECE_TILE_W in
  let h_size := ECE_TILE_H in
  let w_tile := r_w / ECE_TILE_W in
  let h_tile := r_h / ECE_TILE_H in
  let '(w_tile, w_size) :=
    if negb (r_w mod ECE_TILE_W =? 0)
    then (add32 w_tile 1, r_w mod ECE_TILE_W)
    else (w_tile, w_size) in
  let '(h_tile, h_size) :=
    if negb (r_h mod ECE_TILE_H =? 0) || (h_tile =? 0)
    then (add32 h_tile 1, r_h mod ECE_TILE_H)
    else (h_tile, h_size) in
  mk_tiles w_tile h_tile w_size h_size.

(** The value [temp] written to [RECT_DIMEN]. *)
Definition rect_dimen (t : tiles) : Z :=
  Z.lor (Z.lor (Z.lor
    (shl32 (sub32 (w_size t) 1) ECE_RECT_DIMEN_WLTR_OFFSET)
    (shl32 (sub32 (h_size t) 1) ECE_RECT_DIMEN_HLTR_OFFSET))
    (shl32 (sub32 (w_tile t) 1) ECE_RECT_DIMEN_WR_OFFSET))
    (shl32 (sub32 (h_tile t) 1) ECE_RECT_DIMEN_HR_OFFSET).

(** Ceiling of a quotient, for the statements about tile counts. *)
Definition ceil_div (a b : Z) : Z := (a + b - 1) / b.


(** ** Programs over the device

    Driver code is embedded as a tree of the actions it performs on its
    surroundings: the driver mutex, the memory-mapped registers
    ([readl]/[writel]), byte loads from the mapped output buffer
    ([ed_buffer]) and accesses to the driver's private [struct
    npcm750_ece] (type [St], which differs between the two drivers).
    [Spin] is a busy-wait that has used up its fuel. *)

Section Prog.
Context {St : Type}.

Inductive Prog (A : Type) : Type :=
| Ret (a : A)
| Spin
| MutexLock (k : Prog A)
| MutexUnlock (k : Prog A)
| Readl (addr : Z) (k : Z -> Prog A)
| Writel (val addr : Z) (k : Prog A)
| LoadEd (idx : Z) (k : Z -> Prog A)
| GetEce (k : St -> Prog A)
| SetEce (s : St) (k : Prog A).

Global Arguments Ret {A} a.
Global Arguments Spin {A}.
Global Arguments MutexLock {A} k.
Global Arguments MutexUnlock {A} k.
Global Arguments Readl {A} addr k.
Global Arguments Writel {A} val addr k.
Global Arguments LoadEd {A} idx k.
Global Arguments GetEce {A} k.
Global Arguments SetEce {A} s k.

Fixpoint prog_bind {A B : Type} (k : A -> Prog B) (p : Prog A) : Prog B :=
  match p with
  | Ret a => k a
  | Spin => Spin
  | MutexLock p => MutexLock (prog_bind k p)
  | MutexUnlock p => MutexUnlock (prog_bind k p)
  | Readl addr f => Readl addr (fun v => prog_bind k (f v))
  | Writel val addr p => Writel val addr (prog_bind k p)
  | LoadEd idx f => LoadEd idx (fun v => prog_bind k (f v))
  | GetEce f => GetEce (fun s => prog_bind k (f s))
  | SetEce s p => SetEce s (prog_bind k p)
  end.

Definition mutex_lock : Prog unit := MutexLock (Ret tt).
Definition mutex_unlock : Prog unit := MutexUnlock (Ret tt).
Definition readl (addr : Z) : Prog Z := Readl addr Ret.
Definition writel (val addr : Z) : Prog unit := Writel val addr (Ret tt).
Definition load_ed (idx : Z) : Prog Z := LoadEd idx Ret.
Definition get_ece : Prog St := GetEce Ret.
Definition set_ece (s : St) : Prog unit := SetEce s (Ret tt).

End Prog.
Global Arguments Prog : clear implicits.

Global Instance prog_ret {St} : MRet (Prog St) := fun A a => Ret a.
Global Instance prog_mbind {St} : MBind (Prog St) := fun A B k p => prog_bind k p.

(** ** The device

    The engine as the driver sees it through its two windows.

    - [regs] is the register file, by offset from the base address; a
      register never written reads 0.
    - [busy] counts the polls of [DDA_STS] that still find the engine
      compressing; when the count runs out the engine raises [CDREADY].
      With [busy = 0] the engine is idle and raises nothing by itself.
    - A write to [RECT_DIMEN], the last register the encode routines
      program, starts the engine on a rectangle: it will be found
      compressing by the next [latency] polls.  An engine of latency 0
      never completes.
    - [DDA_STS] is write-1-to-clear in its [CDREADY] bit.
    - [ed_mem n i] is byte [i] of the output buffer as the [n]-th load from
      the buffer finds it: the engine writes the buffer behind the
      driver's back, so two loads of one byte need not agree.  [loads]
      counts the loads made so far. *)

Record Device : Type := mk_dev {
  regs : gmap Z Z;
  busy : nat;
  latency : nat;
  ed_mem : nat -> Z -> Z;
  loads : nat
}.

Definition reg (d : Device) (addr : Z) : Z := default 0 (regs d !! addr).

Definition engine_tick (d : Device) : Device :=
  match busy d with
  | O => d
  | S O => mk_dev (<[DDA_STS := Z.lor (reg d DDA_STS) CDREADY]> (regs d))
                  O (latency d) (ed_mem d) (loads d)
  | S n => mk_dev (regs d) n (latency d) (ed_mem d) (loads d)
  end.

(** [readl]: the value read is [reg d addr]; a poll of [DDA_STS] lets the
    engine move on. *)
Definition hw_polled (addr : Z) (d : Device) : Device :=
  if addr =? DDA_STS then engine_tick d else d.

Definition hw_writel (val addr : Z) (d : Device) : Device :=
  let val' :=
    if addr =? DDA_STS
    then Z.land (reg d DDA_STS) (not32 (Z.land val CDREADY))
    else val in
  mk_dev (<[addr := val']> (regs d))
         (if addr =? RECT_DIMEN then latency d else busy d)
         (latency d) (ed_mem d) (loads d).

(** A load of [ed_buffer[idx]]: the value ([char] is unsigned on the
    target), and the device after it. *)
Definition ed_byte (d : Device) (idx : Z) : Z := u8 (ed_mem d (loads d) idx).

Definition hw_loaded (d : Device) : Device :=
  mk_dev (regs d) (busy d) (latency d) (ed_mem d) (S (loads d)).

(** What a caller does to its surroundings, in order. *)
Inductive Event : Type :=
| EvLock
| EvUnlock
| EvRead (addr val : Z)
| EvWrite (addr val : Z)
| EvLoad (idx val : Z).

Global Instance Event_eq_dec : EqDecision Event.
Proof. solve_decision. Defined.

(** *** One caller alone: run a program to its end *)

Section Run.
Context {St : Type}.

Record World : Type := mk_world {
  dev : Device;
  ece : St;
  log : list Event
}.

Fixpoint run {A : Type} (p : Prog St A) (w : World) : option (A * World) :=
  match p with
  | Ret a => Some (a, w)
  | Spin => None
  | MutexLock k => run k (mk_world (dev w) (ece w) (log w ++ [EvLock]))
  | MutexUnlock k => run k (mk_world (dev w) (ece w) (log w ++ [EvUnlock]))
  | Readl addr k =>
      let v := reg (dev w) addr in
      run (k v) (mk_world (hw_polled addr (dev w)) (ece w)
                          (log w ++ [EvRead addr v]))
  | Writel val addr k =>
      run k (mk_world (hw_writel val addr (dev w)) (ece w)
                      (log w ++ [EvWrite addr val]))
  | LoadEd idx k =>
      let v := ed_byte (dev w) idx in
      run (k v) (mk_world (hw_loaded (dev w)) (ece w)
                          (log w ++ [EvLoad idx v]))
  | GetEce k => run (k (ece w)) w
  | SetEce s k => run k (mk_world (dev w) s (log w))
  end.

End Run.
Global Arguments World : clear implicits.

(** ** What crosses the user boundary

    [struct ece_ioctl_cmd], the ioctl numbers, and the outcome of
    [copy_from_user]/[copy_to_user] on the caller's pointer. *)

Module Uapi.

Record ece_ioctl_cmd : Type := mk_cmd {
  framebuf : Z;
  gap_len : Z;
  buf : Z;
  len : Z;
  x : Z;
  y : Z;
  w : Z;
  h : Z;
  lp : Z
}.

Definition set_gap_len_len (gap ed_size : Z) (data : ece_ioctl_cmd) :=
  mk_cmd (framebuf data) gap (buf data) ed_size
         (x data) (y data) (w data) (h data) (lp data).

End Uapi.
Abbreviation ece_ioctl_cmd := Uapi.ece_ioctl_cmd.

Inductive ioctl_nr : Type :=
| ECE_IOCGETED
| ECE_IOCSETFB
| ECE_IOCSETLP
| ECE_IOCGET_OFFSET
| ECE_IOCCLEAR_OFFSET
| ECE_IOC_OTHER (nr : Z).

(** [u_in = None]: [copy_from_user] faults on the pointer.
    [u_out_ok = false]: [copy_to_user] faults on it. *)
Record uarg : Type := mk_uarg {
  u_in : option ece_ioctl_cmd;
  u_out_ok : bool
}.

Inductive ureply : Type :=
| NoReply
| ReplyOffset (offset : Z)
| ReplyCmd (data : ece_ioctl_cmd).

(** [buffer[0] | (buffer[1] << 8) | (buffer[2] << 16) | (buffer[3] << 24)]
    converted to [u32]; the operands are taken left to right. *)
Definition ed_size_of (b0 b1 b2 b3 : Z) : Z :=
  u32 (Z.lor (Z.lor (Z.lor b0 (Z.shiftl b1 8)) (Z.shiftl b2 16))
             (Z.shiftl b3 24)).

(** The value of [data.lp] passes the gate of [ECE_IOCSETLP] ([int]
    arithmetic: [%] truncates towards zero). *)
Definition lp_gate (lp : Z) : bool :=
  (Z.rem lp ECE_MIN_LP =? 0) && (lp <=? ECE_MAX_LP).

(** The resolution code of a pitch: the [switch] of [ece_set_lp] and
    [npcm750_ece_set_lp]; [None] is the [default: return]. *)
Definition lp_code (pitch : Z) : option Z :=
  if pitch =? 512 then Some LP_512
  else if pitch =? 1024 then Some LP_1024
  else if pitch =? 2048 then Some LP_2048
  else if pitch =? 2560 then Some LP_2560
  else if pitch =? 4096 then Some LP_4096
  else None.

(** A sample device: every register 0, an engine of latency 2 that is
    found compressing by the next two polls, and an output buffer that
    reads as zeroes for the first [lag] loads and holds the size
    0x01020304 at every fourth byte after that. *)
Definition sample_mem (lag : nat) (n : nat) (idx : Z) : Z :=
  if (n <? lag)%nat then 0
  else if idx mod 4 =? 0 then 4
  else if idx mod 4 =? 1 then 3
  else if idx mod 4 =? 2 then 2
  else 1.

Definition sample_dev (lag : nat) : Device :=
  mk_dev ∅ 2 2 (sample_mem lag) 0.

(** ** The driver under [drivers/media/platform/nuvoton] *)

Module Media.

Record npcm750_ece : Type := mk_ece {
  comp_len : Z;
  comp_start : Z;
  lin_pitch : Z;
  enc_gap : Z
}.

Definition set_lin_pitch (v : Z) (e : npcm750_ece) : npcm750_ece :=
  mk_ece (comp_len e) (comp_start e) v (enc_gap e).
Definition set_enc_gap (v : Z) (e : npcm750_ece) : npcm750_ece :=
  mk_ece (comp_len e) (comp_start e) (lin_pitch e) v.

Abbreviation P := (Prog npcm750_ece).

Definition DDA_CTRL_ECEEN : Z := Eval cbv in BIT 0.
Definition DDA_STS_CDREADY : Z := Eval cbv in BIT 8.
Definition HEX_CTRL_ENCDIS : Z := Eval cbv in BIT 0.
Definition HEX_CTRL_ENC_GAP : Z := 0x1f00.
Definition HEX_CTRL_ENC_GAP_OFFSET : Z := 8.
Definition HEX_CTRL_ENC_MIN_GAP_SIZE : Z := 4.

Definition npcm750_ece_update_bits (offset mask bits : Z) : P unit :=
  t ← readl offset;
  let t := Z.land t (not32 mask) in
  let t := Z.lor t (Z.land bits mask) in
  writel t offset.

Definition npcm750_ece_read (r : Z) : P Z :=
  t ← readl r;
  mret t.

Definition npcm750_ece_write (r val : Z) : P unit :=
  writel val r.

Definition npcm750_ece_clear_drs : P unit :=
  npcm750_ece_update_bits DDA_STS DDA_STS_CDREADY DDA_STS_CDREADY.

Definition npcm750_ece_clear_rect_offset : P unit :=
  npcm750_ece_write HEX_RECT_OFFSET 0.

Definition npcm750_ece_read_rect_offset : P Z :=
  npcm750_ece_read HEX_RECT_OFFSET.

Definition npcm750_ece_is_rect_compressed : P Z :=
  temp ← npcm750_ece_read DDA_STS;
  if Z.land temp DDA_STS_CDREADY =? 0 then mret 0 else mret 1.

(** [while (!npcm750_ece_is_rect_compressed(ece)) ;] with at most [fuel]
    polls. *)
Fixpoint wait_rect_compressed (fuel : nat) : P unit :=
  match fuel with
  | O => Spin
  | S fuel =>
      c ← npcm750_ece_is_rect_compressed;
      if c =? 0 then wait_rect_compressed fuel else mret tt
  end.

Definition npcm750_ece_get_ed_size (fuel : nat) (offset : Z) : P Z :=
  wait_rect_compressed fuel;;
  b0 ← load_ed (offset + 0);
  b1 ← load_ed (offset + 1);
  b2 ← load_ed (offset + 2);
  b3 ← load_ed (offset + 3);
  let size := ed_size_of b0 b1 b2 b3 in
  npcm750_ece_clear_drs;;
  mret size.

Definition npcm750_ece_fifo_reset_bypass : P unit :=
  npcm750_ece_update_bits DDA_CTRL DDA_CTRL_ECEEN (not32 DDA_CTRL_ECEEN);;
  npcm750_ece_update_bits DDA_CTRL DDA_CTRL_ECEEN DDA_CTRL_ECEEN.

Definition npcm750_ece_enc_rect (r_off_x r_off_y r_w r_h : Z) : P unit :=
  e ← get_ece;
  let rect_offset :=
    add32 (mul32 r_off_y (lin_pitch e)) (mul32 r_off_x 2) in
  npcm750_ece_fifo_reset_bypass;;
  npcm750_ece_write RECT_XY rect_offset;;
  let temp := rect_dimen (rect_tiles r_w r_h) in
  npcm750_ece_write RECT_DIMEN temp.

Definition npcm750_ece_set_enc_dba (addr : Z) : P Z :=
  npcm750_ece_write ED_BA addr;;
  mret 0.

Definition npcm750_ece_set_fb_addr (buffer : Z) : P Z :=
  npcm750_ece_write FBR_BA buffer;;
  mret 0.

Definition npcm750_ece_set_lp (pitch : Z) : P unit :=
  match lp_code pitch with
  | None => mret tt
  | Some lp =>
      e ← get_ece;
      set_ece (set_lin_pitch pitch e);;
      npcm750_ece_write RESOL lp
  end.

Definition npcm750_ece_reset : P unit :=
  npcm750_ece_update_bits DDA_CTRL DDA_CTRL_ECEEN (not32 DDA_CTRL_ECEEN);;
  npcm750_ece_update_bits HEX_CTRL HEX_CTRL_ENCDIS HEX_CTRL_ENCDIS;;
  npcm750_ece_update_bits DDA_CTRL DDA_CTRL_ECEEN DDA_CTRL_ECEEN;;
  npcm750_ece_update_bits HEX_CTRL HEX_CTRL_ENCDIS (not32 HEX_CTRL_ENCDIS);;
  npcm750_ece_clear_rect_offset.

Definition npcm750_ece_initialise : P Z :=
  npcm750_ece_reset;;
  npcm750_ece_clear_drs;;
  e ← get_ece;
  npcm750_ece_set_enc_dba (comp_start e);;
  e ← get_ece;
  set_ece (set_lin_pitch DEFAULT_LP e);;
  mret 0.


(** The tail of [npcm750_ece_ioctl], also of its early returns:
    [mutex_unlock(&ece->mlock); return err;]. *)
Definition unlock_return (err : Z) (out : ureply) : P (Z * ureply) :=
  mutex_unlock;;
  mret (err, out).

Definition npcm750_ece_ioctl (fuel : nat) (cmd : ioctl_nr) (args : uarg)
  : P (Z * ureply) :=
  mutex_lock;;
  match cmd with
  | ECE_IOCCLEAR_OFFSET =>
      npcm750_ece_clear_rect_offset;;
      unlock_return 0 NoReply
  | ECE_IOCGET_OFFSET =>
      offset ← npcm750_ece_read_rect_offset;
      if u_out_ok args
      then unlock_return 0 (ReplyOffset offset)
      else unlock_return (- EFAULT) NoReply
  | ECE_IOCSETLP =>
      match u_in args with
      | None => unlock_return (- EFAULT) NoReply
      | Some data =>
          (if lp_gate (Uapi.lp data)
           then npcm750_ece_set_lp (u32 (Uapi.lp data))
           else mret tt);;
          unlock_return 0 NoReply
      end
  | ECE_IOCSETFB =>
      match u_in args with
      | None => unlock_return (- EFAULT) NoReply
      | Some data =>
          if Uapi.framebuf data =? 0
          then unlock_return (- EFAULT) NoReply
          else
            npcm750_ece_set_fb_addr (Uapi.framebuf data);;
            unlock_return 0 NoReply
      end
  | ECE_IOCGETED =>
      match u_in args with
      | None => unlock_return (- EFAULT) NoReply
      | Some data =>
          offset ← npcm750_ece_read_rect_offset;
          npcm750_ece_enc_rect (u32 (Uapi.x data)) (u32 (Uapi.y data))
                               (u32 (Uapi.w data)) (u32 (Uapi.h data));;
          ed_size ← npcm750_ece_get_ed_size fuel offset;
          v ← npcm750_ece_read HEX_CTRL;
          let gap := Z.shiftr (Z.land v HEX_CTRL_ENC_GAP)
                              HEX_CTRL_ENC_GAP_OFFSET in
          e ← get_ece;
          set_ece (set_enc_gap gap e);;
          e ← get_ece;
          (if enc_gap e =? 0
           then set_ece (set_enc_gap HEX_CTRL_ENC_MIN_GAP_SIZE e)
           else mret tt);;
          e ← get_ece;
          let data := Uapi.set_gap_len_len (enc_gap e) (s32 ed_size) data in
          if u_out_ok args
          then unlock_return 0 (ReplyCmd data)
          else unlock_return (- EFAULT) NoReply
      end
  | ECE_IOC_OTHER _ => unlock_return 0 NoReply
  end.

(** [npcm750_ece_open] and [npcm750_ece_release], past the lookup of
    [registered_ece]. *)
Definition npcm750_ece_open : P Z :=
  npcm750_ece_initialise;;
  mret 0.


(** A sample state of the driver, after [open]. *)
Definition world0 : World npcm750_ece :=
  mk_world (sample_dev 0) (mk_ece 0x400000 0x7C00000 DEFAULT_LP 0) [].

(** The same with an engine that is idle and never completes. *)
Definition world_idle : World npcm750_ece :=
  mk_world (mk_dev ∅ 0 0 (sample_mem 0) 0) (ece world0) [].

End Media.

(** ** The driver under [drivers/video/compression] *)

Module Video.

Record npcm750_ece : Type := mk_ece {
  smem_len : Z;
  smem_start : Z;
  width : Z;
  height : Z;
  lin_pitch : Z;
  enc_gap : Z;
  initialised : Z
}.

Definition set_width_height (w h : Z) (e : npcm750_ece) : npcm750_ece :=
  mk_ece (smem_len e) (smem_start e) w h
         (lin_pitch e) (enc_gap e) (initialised e).
Definition set_lin_pitch (v : Z) (e : npcm750_ece) : npcm750_ece :=
  mk_ece (smem_len e) (smem_start e) (width e) (height e)
         v (enc_gap e) (initialised e).
Definition set_enc_gap (v : Z) (e : npcm750_ece) : npcm750_ece :=
  mk_ece (smem_len e) (smem_start e) (width e) (height e)
         (lin_pitch e) v (initialised e).
Definition set_initialised (v : Z) (e : npcm750_ece) : npcm750_ece :=
  mk_ece (smem_len e) (smem_start e) (width e) (height e)
         (lin_pitch e) (enc_gap e) v.

Abbreviation P := (Prog npcm750_ece).

Definition ece_is_rect_compressed : P Z :=
  temp ← readl DDA_STS;
  mret (Z.land temp CDREADY).

Definition ece_clear_drs : P unit :=
  temp ← readl DDA_STS;
  let temp := Z.lor temp CDREADY in
  writel temp DDA_STS;;
  temp ← readl DDA_STS;
  mret tt.

(** [while (ece_is_rect_compressed(ece) != CDREADY) ;] with at most [fuel]
    polls. *)
Fixpoint wait_rect_compressed (fuel : nat) : P unit :=
  match fuel with
  | O => Spin
  | S fuel =>
      c ← ece_is_rect_compressed;
      if negb (c =? CDREADY) then wait_rect_compressed fuel else mret tt
  end.

(** [do { size = ...; count++; } while (size == 0 && count < 30);] with at
    most [fuel] rounds, entered with the given [count]. *)
Fixpoint read_ed_size (fuel : nat) (count : Z) : P Z :=
  match fuel with
  | O => Spin
  | S fuel =>
      b0 ← load_ed 0;
      b1 ← load_ed 1;
      b2 ← load_ed 2;
      b3 ← load_ed 3;
      let size := ed_size_of b0 b1 b2 b3 in
      let count := count + 1 in
      if (size =? 0) && (count <? 30)
      then read_ed_size fuel count
      else mret size
  end.

Definition ece_get_ed_size (fuel : nat) : P Z :=
  wait_rect_compressed fuel;;
  size ← read_ed_size fuel 0;
  ece_clear_drs;;
  mret size.

Definition ece_clear_rect_offset : P unit :=
  let temp := 0 in
  writel temp HEX_RECT_OFFSET.

Definition fifo_reset_bypass : P unit :=
  temp ← readl DDA_CTRL;
  let temp := Z.land temp (not32 ECEEN) in
  writel temp DDA_CTRL;;
  let temp := Z.lor temp ECEEN in
  writel temp DDA_CTRL.

Definition ece_enc_rect (r_off_x r_off_y r_w r_h : Z) : P unit :=
  e ← get_ece;
  let rect_offset :=
    add32 (mul32 r_off_y (lin_pitch e)) (mul32 r_off_x 2) in
  fifo_reset_bypass;;
  writel rect_offset RECT_XY;;
  let temp := rect_dimen (rect_tiles r_w r_h) in
  writel temp RECT_DIMEN.

Definition ece_set_enc_dba : P Z :=
  e ← get_ece;
  writel (smem_start e) ED_BA;;
  mret 0.

Definition ece_set_fb_addr (buffer : Z) : P Z :=
  writel buffer FBR_BA;;
  mret 0.

Definition ece_set_lp (pitch : Z) : P unit :=
  match lp_code pitch with
  | None => mret tt
  | Some lp =>
      e ← get_ece;
      set_ece (set_lin_pitch pitch e);;
      writel lp RESOL
  end.

Definition ece_reset : P unit :=
  temp ← readl DDA_CTRL;
  let temp := Z.land temp (not32 ECEEN) in
  writel temp DDA_CTRL;;
  let temp := Z.lor temp ECEEN in
  writel temp DDA_CTRL;;
  temp ← readl HEX_CTRL;
  let temp := Z.lor temp ENCDIS in
  writel temp HEX_CTRL;;
  temp ← readl HEX_CTRL;
  let temp := Z.land temp (not32 ENCDIS) in
  writel temp HEX_CTRL;;
  let temp := 0 in
  writel temp HEX_RECT_OFFSET;;
  v ← readl HEX_CTRL;
  e ← get_ece;
  set_ece (set_enc_gap (Z.shiftr (Z.land v ENC_GAP) ENC_GAP_OFFSET) e);;
  e ← get_ece;
  if enc_gap e =? 0
  then set_ece (set_enc_gap ENC_MIN_GAP_SIZE e)
  else mret tt.

Definition ece_initialise : P Z :=
  e ← get_ece;
  (if initialised e =? 0
   then
     ece_reset;;
     ece_clear_drs;;
     e ← get_ece;
     set_ece (set_initialised 1 e)
   else mret tt);;
  mret 0.

(** [mutex_unlock(&ece->mlock); return err;], the tail of [drv_ioctl] and
    of its early return. *)
Definition unlock_return (err : Z) (out : ureply) : P (Z * ureply) :=
  mutex_unlock;;
  mret (err, out).

(** [drv_ioctl] copies the command block in for every command, before
    the [switch]; the [memset] before the copy has no effect on a block
    that was copied in whole. *)
Definition drv_ioctl (fuel : nat) (cmd : ioctl_nr) (args : uarg)
  : P (Z * ureply) :=
  mutex_lock;;
  match u_in args with
  | None => unlock_return (- EFAULT) NoReply
  | Some data =>
      match cmd with
      | ECE_IOCSETLP =>
          (if lp_gate (Uapi.lp data)
           then ece_set_lp (u32 (Uapi.lp data))
           else mret tt);;
          e ← get_ece;
          (if negb (u32 (Uapi.w data) =? width e)
              || negb (u32 (Uapi.h data) =? height e)
           then
             set_ece (set_width_height (u32 (Uapi.w data))
                                       (u32 (Uapi.h data)) e);;
             ece_set_enc_dba;;
             mret tt
           else mret tt);;
          unlock_return 0 NoReply
      | ECE_IOCSETFB =>
          if Uapi.framebuf data =? 0
          then unlock_return (- EFAULT) NoReply
          else
            ece_set_fb_addr (Uapi.framebuf data);;
            unlock_return 0 NoReply
      | ECE_IOCGETED =>
          ece_enc_rect (u32 (Uapi.x data)) (u32 (Uapi.y data))
                       (u32 (Uapi.w data)) (u32 (Uapi.h data));;
          ed_size ← ece_get_ed_size fuel;
          ece_clear_rect_offset;;
          v ← readl HEX_CTRL;
          e ← get_ece;
          set_ece (set_enc_gap (Z.shiftr (Z.land v ENC_GAP) ENC_GAP_OFFSET)
                               e);;
          e ← get_ece;
          (if enc_gap e =? 0
           then set_ece (set_enc_gap ENC_MIN_GAP_SIZE e)
           else mret tt);;
          e ← get_ece;
          let data := Uapi.set_gap_len_len (enc_gap e) (s32 ed_size) data in
          if u_out_ok args
          then unlock_return 0 (ReplyCmd data)
          else unlock_return (- EFAULT) NoReply
      | _ => unlock_return 0 NoReply
      end
  end.

(** [npcm750_ece_probe], from [ece_initialise(ece)] on: the resources are
    mapped and the character device is created. *)
Definition npcm750_ece_probe : P Z :=
  ece_initialise;;
  e ← get_ece;
  set_ece (set_width_height DEFAULT_WIDTH DEFAULT_HEIGHT e);;
  e ← get_ece;
  set_ece (set_lin_pitch DEFAULT_LP e);;
  ece_set_enc_dba;;
  mret 0.

(** A sample state of the driver, after the probe. *)
Definition world0 : World npcm750_ece :=
  mk_world (sample_dev 8)
    (mk_ece 0x400000 0x7C00000 DEFAULT_WIDTH DEFAULT_HEIGHT DEFAULT_LP 4 1)
    [].

(** The same with an engine that is idle and never completes. *)
Definition world_idle : World npcm750_ece :=
  mk_world (mk_dev ∅ 0 0 (sample_mem 0) 0) (ece world0) [].

End Video.

(** ** Vocabulary of the statements *)

(** The row count is bumped when the height leaves a remainder or the
    quotient is zero. *)
Definition row_bump (r_h : Z) : bool :=
  negb (r_h mod 16 =? 0) || (r_h / 16 =? 0).

(** The layout invariant: at least one tile each way, and remainders
    within a tile. *)
Definition tiles_inv (t : tiles) : Prop :=
  1 <= w_tile t /\ 1 <= h_tile t /\
  1 <= w_size t <= ECE_TILE_W /\ 1 <= h_size t <= ECE_TILE_H.

(** Offsets of the registers written, in the order of the writes. *)
Definition written (l : list Event) : list Z :=
  omap (fun e => match e with EvWrite addr _ => Some addr | _ => None end) l.

(** The legal line pitches. *)
Definition legal_lp (pitch : Z) : Prop :=
  pitch = 512 \/ pitch = 1024 \/ pitch = 2048 \/ pitch = 2560 \/ pitch = 4096.

(** What configuring the line pitch does, for a driver with private
    struct [St], line-pitch field [lin_pitch] and routine [set_lp]: the
    routine returns; run a second time with the same pitch it leaves the
    struct and the device as the first run left them; a legal pitch is
    stored and its code programmed into [RESOL]; any other pitch changes
    nothing and touches no register; a legal stored pitch stays legal. *)
Definition lp_config_ok {St : Type} (set_lp : Z -> Prog St unit)
    (lin_pitch : St -> Z) (pitch : Z) (w : World St) : Prop :=
  exists w1 w2,
    run (set_lp pitch) w = Some (tt, w1) /\
    run (set_lp pitch) w1 = Some (tt, w2) /\
    ece w2 = ece w1 /\
    dev w2 = dev w1 /\
    (legal_lp pitch ->
       lin_pitch (ece w1) = pitch /\
       lp_code pitch = Some (reg (dev w1) RESOL)) /\
    (~ legal_lp pitch -> w1 = w) /\
    (legal_lp (lin_pitch (ece w)) -> legal_lp (lin_pitch (ece w1))).

(** What [ECE_IOCSETFB] does for a command block [data] that was copied
    in, for a driver with ioctl entry point [ioctl]: with a zero
    [framebuf] the call fails with [-EFAULT], and between taking and
    releasing the mutex it touches neither the device nor the driver
    state; with any other [framebuf] it succeeds after one write, of that
    address, to [FBR_BA]. *)
Definition setfb_ok {St : Type}
    (ioctl : nat -> ioctl_nr -> uarg -> Prog St (Z * ureply))
    (fuel : nat) (data : ece_ioctl_cmd) (out_ok : bool) (w : World St)
  : Prop :=
  (Uapi.framebuf data = 0 ->
     exists w',
       run (ioctl fuel ECE_IOCSETFB (mk_uarg (Some data) out_ok)) w
         = Some ((- EFAULT, NoReply), w') /\
       dev w' = dev w /\ ece w' = ece w /\
       log w' = log w ++ [EvLock; EvUnlock]) /\
  (Uapi.framebuf data <> 0 ->
     exists w',
       run (ioctl fuel ECE_IOCSETFB (mk_uarg (Some data) out_ok)) w
         = Some ((0, NoReply), w') /\
       reg (dev w') FBR_BA = Uapi.framebuf data /\
       log w' = log w ++ [EvLock; EvWrite FBR_BA (Uapi.framebuf data);
                          EvUnlock]).

(** A command block that holds a frame-buffer address. *)
Definition cmd_fb (a : Z) : ece_ioctl_cmd := Uapi.mk_cmd a 0 0 0 0 0 0 0 0.

(** The device once the engine has raised [CDREADY]. *)
Definition dev_ready (d : Device) : Device :=
  mk_dev (<[DDA_STS := Z.lor (reg d DDA_STS) CDREADY]> (regs d))
         O (latency d) (ed_mem d) (loads d).

(** [n] polls of the status register that read [s]. *)
Definition polls (n : nat) (s : Z) : list Event :=
  repeat (EvRead DDA_STS s) n.

(** One decode of the size word at offset [off] of the output buffer:
    the four loads, the value they give, and the device after them. *)
Definition decode_events (d : Device) (off : Z) : list Event :=
  [EvLoad (off + 0) (ed_byte d (off + 0));
   EvLoad (off + 1) (ed_byte (hw_loaded d) (off + 1));
   EvLoad (off + 2) (ed_byte (hw_loaded (hw_loaded d)) (off + 2));
   EvLoad (off + 3) (ed_byte (hw_loaded (hw_loaded (hw_loaded d))) (off + 3))].

Definition decode_at (d : Device) (off : Z) : Z :=
  ed_size_of (ed_byte d (off + 0))
             (ed_byte (hw_loaded d) (off + 1))
             (ed_byte (hw_loaded (hw_loaded d)) (off + 2))
             (ed_byte (hw_loaded (hw_loaded (hw_loaded d))) (off + 3)).

Definition loaded4 (d : Device) : Device :=
  hw_loaded (hw_loaded (hw_loaded (hw_loaded d))).

(** The little-endian value of four bytes. *)
Definition le32 (b0 b1 b2 b3 : Z) : Z :=
  b0 + 2 ^ 8 * b1 + 2 ^ 16 * b2 + 2 ^ 24 * b3.

(** The value a little-endian decode of the four loads of one decode
    gives. *)
Definition le32_at (d : Device) (off : Z) : Z :=
  le32 (ed_byte d (off + 0))
       (ed_byte (hw_loaded d) (off + 1))
       (ed_byte (hw_loaded (hw_loaded d)) (off + 2))
       (ed_byte (hw_loaded (hw_loaded (hw_loaded d))) (off + 3)).

(** The rounds of the retry loop of [ece_get_ed_size]: the device at the
    start of round [j] (rounds count from 0), the size decoded in that
    round, and the loads of the first [k] rounds. *)
Definition round_dev (d : Device) (j : nat) : Device := Nat.iter j loaded4 d.

Definition round_size (d : Device) (j : nat) : Z := decode_at (round_dev d j) 0.

Fixpoint rounds (d : Device) (k : nat) : list Event :=
  match k with
  | O => []
  | S k => decode_events d 0 ++ rounds (loaded4 d) k
  end.

(** Clearing [CDREADY] when the status register reads [s]: the media
    driver reads the register and writes the value back with the bit set;
    the video driver does the same and reads the register once more. *)
Definition clear_events_media (s : Z) : list Event :=
  [EvRead DDA_STS s;
   EvWrite DDA_STS (Z.lor (Z.land s (not32 CDREADY)) CDREADY)].

Definition clear_events_video (s : Z) : list Event :=
  [EvRead DDA_STS s;
   EvWrite DDA_STS (Z.lor s CDREADY);
   EvRead DDA_STS (Z.land s (not32 CDREADY))].

(** The course of a wait-and-read-size as C4 words it, for the events
    [evs] of the operation, the offset [off] captured before the encode
    and the size returned: polls that find bit 8 of the status register
    clear, one poll that finds it set, the four bytes at [off] loaded
    once and decoded little-endian, and then the clear: a write to the
    status register with bit 8 set (after any reads of that register),
    followed by a read of the status register. *)
Definition wait_read_clear (off size : Z) (evs : list Event) : Prop :=
  exists (n : nat) (s r b0 b1 b2 b3 : Z) (pre : list Z) (v v' : Z),
    Z.testbit s 8 = false /\ Z.testbit r 8 = true /\ Z.testbit v 8 = true /\
    size = le32 b0 b1 b2 b3 /\
    evs = polls n s
          ++ [EvRead DDA_STS r;
              EvLoad (off + 0) b0; EvLoad (off + 1) b1;
              EvLoad (off + 2) b2; EvLoad (off + 3) b3]
          ++ map (EvRead DDA_STS) pre
          ++ [EvWrite DDA_STS v; EvRead DDA_STS v'].

(** Bits 8 to 12 of a value of the hex-control register, and the gap
    length reported for it. *)
Definition gap_bits (v : Z) : Z := (v / 2 ^ 8) mod 2 ^ 5.

Definition gap_length_of (v : Z) : Z :=
  if gap_bits v =? 0 then 4 else gap_bits v.

(** What an encode request that returns a command block reports as gap
    length, for a driver with private struct [St], field [enc_gap] and
    ioctl entry point [ioctl]: the last access to the device is a read of
    [HEX_CTRL]; the gap length copied out, and left in [enc_gap], is 4
    when bits 8 to 12 of the value read are 0 and their value
    otherwise. *)
Definition gap_reported {St : Type}
    (ioctl : nat -> ioctl_nr -> uarg -> Prog St (Z * ureply))
    (enc_gap : St -> Z)
    (fuel : nat) (args : uarg) (w : World St) : Prop :=
  forall err data' w',
    run (ioctl fuel ECE_IOCGETED args) w = Some ((err, ReplyCmd data'), w') ->
    exists pre v,
      log w' = pre ++ [EvRead HEX_CTRL v; EvUnlock] /\
      Uapi.gap_len data' = gap_length_of v /\
      enc_gap (ece w') = gap_length_of v /\
      err = 0.

(** A command block that holds a rectangle. *)
Definition cmd_rect (x y w h : Z) : ece_ioctl_cmd :=
  Uapi.mk_cmd 0 0 0 0 x y w h 0.

(** A sample state of the video driver whose hex-control register holds
    the gap length 7 in bits 8 to 12. *)
Definition world_gap7 : World Video.npcm750_ece :=
  mk_world (mk_dev {[HEX_CTRL := 0x0700]} 2 2 (sample_mem 8) 0)
           (ece Video.world0) [].

(** ** Several callers at once

    Callers of the ioctl entry point run interleaved, one action at a
    time, over one device, one driver struct and one mutex.  A
    configuration holds what each caller still has to run.  [step i]
    lets caller [i] perform its next action; it gives [None] when the
    caller cannot move: it has returned, it spins without fuel, or it
    waits for a mutex that is held.  [mutex_unlock] releases the mutex
    whoever calls it, and no access to the device or the struct asks who
    holds the mutex: that the callers keep to the discipline is what is
    proved, not what is assumed. *)

Section Concurrent.
Context {St A : Type}.

Record Config : Type := mk_config {
  threads : list (Prog St A);
  cdev : Device;
  cece : St;
  owner : option nat;
  clog : list (nat * Event)
}.

(** Modelled from the spec: the kernel mutex behind [mutex_lock] and
    [mutex_unlock] is not among the sources.  It is the single
    mutual-exclusion lock of the specification: [mutex_lock] takes it
    when it is free and waits while it is held. *)
Definition step (i : nat) (c : Config) : option Config :=
  match threads c !! i with
  | None => None
  | Some p =>
      match p with
      | Ret _ => None
      | Spin => None
      | MutexLock k =>
          match owner c with
          | Some _ => None
          | None =>
              Some (mk_config (<[i := k]> (threads c)) (cdev c) (cece c)
                              (Some i) (clog c ++ [(i, EvLock)]))
          end
      | MutexUnlock k =>
          Some (mk_config (<[i := k]> (threads c)) (cdev c) (cece c)
                          None (clog c ++ [(i, EvUnlock)]))
      | Readl addr k =>
          let v := reg (cdev c) addr in
          Some (mk_config (<[i := k v]> (threads c))
                          (hw_polled addr (cdev c)) (cece c)
                          (owner c) (clog c ++ [(i, EvRead addr v)]))
      | Writel val addr k =>
          Some (mk_config (<[i := k]> (threads c))
                          (hw_writel val addr (cdev c)) (cece c)
                          (owner c) (clog c ++ [(i, EvWrite addr val)]))
      | LoadEd idx k =>
          let v := ed_byte (cdev c) idx in
          Some (mk_config (<[i := k v]> (threads c))
                          (hw_loaded (cdev c)) (cece c)
                          (owner c) (clog c ++ [(i, EvLoad idx v)]))
      | GetEce k =>
          Some (mk_config (<[i := k (cece c)]> (threads c))
                          (cdev c) (cece c) (owner c) (clog c))
      | SetEce s k =>
          Some (mk_config (<[i := k]> (threads c))
                          (cdev c) s (owner c) (clog c))
      end
  end.

(** A schedule names the caller to move at each instant; a caller that
    cannot move lets the instant pass. *)
Fixpoint interleave (sched : list nat) (c : Config) : Config :=
  match sched with
  | [] => c
  | i :: sched => interleave sched (default c (step i c))
  end.

(** The callers at the start: nobody holds the mutex, nothing has
    happened. *)
Definition start (ps : list (Prog St A)) (d : Device) (e : St) : Config :=
  mk_config ps d e None [].

(** The next action of a program is an access to the device or to the
    driver struct. *)
Definition accessing (p : Prog St A) : bool :=
  match p with
  | Readl _ _ | Writel _ _ _ | LoadEd _ _ | GetEce _ | SetEce _ _ => true
  | _ => false
  end.

(** The three stages of a call: about to take the mutex, with all its
    accesses behind that; holding the mutex, up to the release that
    comes right before the return; returned. *)
Inductive Inside : Prog St A -> Prop :=
| inside_spin : Inside Spin
| inside_unlock a : Inside (MutexUnlock (Ret a))
| inside_readl addr k : (forall v, Inside (k v)) -> Inside (Readl addr k)
| inside_writel val addr k : Inside k -> Inside (Writel val addr k)
| inside_load idx k : (forall v, Inside (k v)) -> Inside (LoadEd idx k)
| inside_get k : (forall s, Inside (k s)) -> Inside (GetEce k)
| inside_set s k : Inside k -> Inside (SetEce s k).

Inductive Outside : Prog St A -> Prop :=
| outside_before k : Inside k -> Outside (MutexLock k)
| outside_after a : Outside (Ret a).

End Concurrent.
Global Arguments Config : clear implicits.

(** A program that never touches the mutex. *)
Inductive Plain {St B : Type} : Prog St B -> Prop :=
| pl_ret b : Plain (Ret b)
| pl_spin : Plain Spin
| pl_readl addr k : (forall v, Plain (k v)) -> Plain (Readl addr k)
| pl_writel val addr k : Plain k -> Plain (Writel val addr k)
| pl_load idx k : (forall v, Plain (k v)) -> Plain (LoadEd idx k)
| pl_get k : (forall s, Plain (k s)) -> Plain (GetEce k)
| pl_set s k : Plain k -> Plain (SetEce s k).

(** *** Reading a history

    [holder o l]: who holds the mutex after the history [l], begun with
    holder [o]; [None] when the history breaks the discipline: a caller
    takes a mutex that is held, releases one it does not hold, or
    accesses the device without holding it. *)
Definition holder_step (o : option nat) (ie : nat * Event)
  : option (option nat) :=
  match ie.2, o with
  | EvLock, None => Some (Some ie.1)
  | EvLock, Some _ => None
  | EvUnlock, Some j => if decide (j = ie.1) then Some None else None
  | EvUnlock, None => None
  | _, Some j => if decide (j = ie.1) then Some o else None
  | _, None => None
  end.

Fixpoint holder (o : option nat) (l : list (nat * Event))
  : option (option nat) :=
  match l with
  | [] => Some o
  | ie :: l =>
      match holder_step o ie with
      | Some o' => holder o' l
      | None => None
      end
  end.

(** The history keeps to the discipline. *)
Definition serial (l : list (nat * Event)) : Prop := is_Some (holder None l).

(** How often caller [i] performed the event [e]. *)
Definition times (i : nat) (e : Event) (l : list (nat * Event)) : nat :=
  length (filter (fun ie => ie = (i, e)) l).

(** Caller [i] is in flight: it has taken the mutex and not yet released
    it. *)
Definition in_flight (l : list (nat * Event)) (i : nat) : Prop :=
  (times i EvUnlock l < times i EvLock l)%nat.

(** The requests of [N] callers of the ioctl entry point. *)
Definition callers {St : Type}
    (ioctl : nat -> ioctl_nr -> uarg -> Prog St (Z * ureply))
    (fuel : nat) (reqs : list (ioctl_nr * uarg))
  : list (Prog St (Z * ureply)) :=
  map (fun r => ioctl fuel r.1 r.2) reqs.

(** What serialised requests look like, for the callers [ps] begun on
    device [d] and struct [e] and moved by the schedule [sched]: the
    history keeps to the discipline; at most one caller is in flight;
    every caller takes the mutex at most once; and a caller whose next
    action is an access to the device or the struct holds the mutex. *)
Definition serialised {St A : Type} (ps : list (Prog St A))
    (d : Device) (e : St) (sched : list nat) : Prop :=
  let c := interleave sched (start ps d e) in
  serial (clog c) /\
  (forall i j, in_flight (clog c) i -> in_flight (clog c) j -> i = j) /\
  (forall i, (times i EvLock (clog c) <= 1)%nat) /\
  (forall i p, threads c !! i = Some p -> accessing p = true ->
               owner c = Some i /\ in_flight (clog c) i).

(** *** The discipline of a configuration

    Caller [i], with [p] still to run, keeps to the discipline when it
    is in one of three stages: it holds the mutex and has taken it once;
    or it is about to take it for the first time; or it has returned. *)
Definition thread_ok {St A : Type} (o : option nat) (l : list (nat * Event))
    (i : nat) (p : Prog St A) : Prop :=
  (Inside p /\ o = Some i /\
   times i EvLock l = 1%nat /\ times i EvUnlock l = 0%nat) \/
  (exists k, p = MutexLock k /\ Inside k /\ o <> Some i /\
   times i EvLock l = 0%nat /\ times i EvUnlock l = 0%nat) \/
  (exists a, p = Ret a /\ o <> Some i /\
   times i EvUnlock l = times i EvLock l /\ (times i EvLock l <= 1)%nat).

Definition disciplined {St A : Type} (c : Config St A) : Prop :=
  holder None (clog c) = Some (owner c) /\
  (forall i p, threads c !! i = Some p ->
               thread_ok (owner c) (clog c) i p) /\
  (forall i e, threads c !! i = None -> times i e (clog c) = 0%nat).

(** *** A property of the driver struct that a program keeps

    [Keeps I p]: whenever [p] stores a value into the driver struct, the
    value has the property [I], given that every value [p] read from the
    struct had it. *)
Inductive Keeps {St B : Type} (I : St -> Prop) : Prog St B -> Prop :=
| keeps_ret b : Keeps I (Ret b)
| keeps_spin : Keeps I Spin
| keeps_lock k : Keeps I k -> Keeps I (MutexLock k)
| keeps_unlock k : Keeps I k -> Keeps I (MutexUnlock k)
| keeps_readl addr k : (forall v, Keeps I (k v)) -> Keeps I (Readl addr k)
| keeps_writel val addr k : Keeps I k -> Keeps I (Writel val addr k)
| keeps_load idx k : (forall v, Keeps I (k v)) -> Keeps I (LoadEd idx k)
| keeps_get k : (forall s, I s -> Keeps I (k s)) -> Keeps I (GetEce k)
| keeps_set s k : I s -> Keeps I k -> Keeps I (SetEce s k).

(** The stored line pitch is always legal, for a driver with private
    struct [St], line-pitch field [lin_pitch], ioctl entry point [ioctl]
    and set-up routine [init] ([open] or the probe): the set-up stores a
    legal pitch, and from a state with a legal pitch the pitch is legal
    at every instant, whatever the requests of the callers and however
    they are scheduled. *)
Definition lp_always_legal {St : Type}
    (ioctl : nat -> ioctl_nr -> uarg -> Prog St (Z * ureply))
    (init : Prog St Z) (lin_pitch : St -> Z) : Prop :=
  (forall w, exists r w',
     run init w = Some (r, w') /\ legal_lp (lin_pitch (ece w'))) /\
  (forall fuel reqs d e sched,
     legal_lp (lin_pitch e) ->
     legal_lp (lin_pitch
       (cece (interleave sched (start (callers ioctl fuel reqs) d e))))).

(** A program without a busy-wait: it cannot run out of fuel. *)
Inductive Total {St B : Type} : Prog St B -> Prop :=
| total_ret b : Total (Ret b)
| total_lock k : Total k -> Total (MutexLock k)
| total_unlock k : Total k -> Total (MutexUnlock k)
| total_readl addr k : (forall v, Total (k v)) -> Total (Readl addr k)
| total_writel val addr k : Total k -> Total (Writel val addr k)
| total_load idx k : (forall v, Total (k v)) -> Total (LoadEd idx k)
| total_get k : (forall s, Total (k s)) -> Total (GetEce k)
| total_set s k : Total k -> Total (SetEce s k).

(** *** Requests one after the other

    [seq_run ps order w]: the callers named in [order] run their
    requests to the end, each alone, one after the other, from [w]; the
    results, and the state at the end. *)
Fixpoint seq_run {St A : Type} (ps : list (Prog St A)) (order : list nat)
    (w : World St) : option (list A * World St) :=
  match order with
  | [] => Some ([], w)
  | i :: order =>
      match ps !! i with
      | None => None
      | Some p =>
          match run p w with
          | None => None
          | Some (a, w') =>
              match seq_run ps order w' with
              | None => None
              | Some (rs, w'') => Some (a :: rs, w'')
              end
          end
      end
  end.

(** The device, the struct and the history of a configuration, without
    the names of the callers. *)
Definition world_of {St A : Type} (c : Config St A) : World St :=
  mk_world (cdev c) (cece c) (map snd (clog c)).

(** Where a configuration stands to the requests run one after the
    other in [order], with [results] and end state [w_seq]: the callers
    in [order] are those that have returned, with these results; the
    others, but for the holder of the mutex, have not begun; and with
    the mutex free the state of the configuration is [w_seq], while with
    the mutex held what the holder has still to run gives from the
    present state what its whole request gives from [w_seq]. *)
Definition stands {St A : Type} (ps : list (Prog St A)) (c : Config St A)
    (order : list nat) (results : list A) (w_seq : World St) : Prop :=
  NoDup order /\
  length results = length order /\
  (forall n i a, order !! n = Some i -> results !! n = Some a ->
                 threads c !! i = Some (Ret a)) /\
  (forall i, (i ∉ order) -> owner c <> Some i ->
             threads c !! i = ps !! i) /\
  match owner c with
  | None => world_of c = w_seq
  | Some i =>
      (i ∉ order) /\
      exists p P, threads c !! i = Some p /\ ps !! i = Some P /\
                  Inside p /\ run p (world_of c) = run P w_seq
  end.

(** The callers [ps], begun on [d] and [e] and moved by [sched], have at
    every instant done what some of them do one after the other. *)
Definition sequential {St A : Type} (ps : list (Prog St A))
    (d : Device) (e : St) (sched : list nat) : Prop :=
  exists order results w_seq,
    seq_run ps order (mk_world d e []) = Some (results, w_seq) /\
    stands ps (interleave sched (start ps d e)) order results w_seq.

(** [open] of the media driver as one more caller next to those of the
    ioctl entry point. *)
Definition media_open_caller : Prog Media.npcm750_ece (Z * ureply) :=
  r ← Media.npcm750_ece_open; mret (r, NoReply).

(** ** Vocabulary of the further properties *)

(** The width and the height a value of the dimension register stands
    for: the count fields hold the number of tiles less one (11 bits at
    [ECE_RECT_DIMEN_WR_OFFSET] and [ECE_RECT_DIMEN_HR_OFFSET]), the
    last-tile fields the extent of the last tile less one (5 bits at
    [ECE_RECT_DIMEN_WLTR_OFFSET] and [ECE_RECT_DIMEN_HLTR_OFFSET]). *)
Definition dimen_field (v off width : Z) : Z := (v / 2 ^ off) mod 2 ^ width.

Definition dimen_width (v : Z) : Z :=
  ECE_TILE_W * dimen_field v ECE_RECT_DIMEN_WR_OFFSET 11
  + dimen_field v ECE_RECT_DIMEN_WLTR_OFFSET 5 + 1.

Definition dimen_height (v : Z) : Z :=
  ECE_TILE_H * dimen_field v ECE_RECT_DIMEN_HR_OFFSET 11
  + dimen_field v ECE_RECT_DIMEN_HLTR_OFFSET 5 + 1.

(** What [open] of the media driver has done when it returns, between
    the states [w] before and [w'] after: the engine is enabled and
    ready for a request (encoder-enable set, encode-disable clear, the
    rectangle offset 0, the ready bit clear), the output base address is
    programmed from [comp_start], the struct holds the default line
    pitch, and neither the frame-buffer address nor the resolution
    register was written. *)
Definition media_opened (w w' : World Media.npcm750_ece) : Prop :=
  Z.testbit (reg (dev w') DDA_CTRL) 0 = true /\
  Z.testbit (reg (dev w') HEX_CTRL) 0 = false /\
  reg (dev w') HEX_RECT_OFFSET = 0 /\
  Z.land (reg (dev w') DDA_STS) CDREADY = 0 /\
  reg (dev w') ED_BA = Media.comp_start (ece w) /\
  ece w' = Media.set_lin_pitch DEFAULT_LP (ece w) /\
  reg (dev w') FBR_BA = reg (dev w) FBR_BA /\
  reg (dev w') RESOL = reg (dev w) RESOL /\
  written (drop (length (log w)) (log w'))
    = [DDA_CTRL; HEX_CTRL; DDA_CTRL; HEX_CTRL; HEX_RECT_OFFSET;
       DDA_STS; ED_BA].


(** What the first [ece_initialise] of the video driver has done when
    it returns: the struct is marked as initialised and holds the gap
    length of the hex-control register (4 for a field of 0; between 1
    and 31 in any case), the engine is enabled (encoder-enable set,
    encode-disable clear) with the rectangle offset 0, and the output
    base address, the frame-buffer address and the resolution register
    were not written. *)
Definition video_initialised (w w' : World Video.npcm750_ece) : Prop :=
  ece w' = Video.set_initialised 1
             (Video.set_enc_gap (gap_length_of (reg (dev w) HEX_CTRL))
                                (ece w)) /\
  1 <= Video.enc_gap (ece w') <= 31 /\
  Z.testbit (reg (dev w') DDA_CTRL) 0 = true /\
  Z.testbit (reg (dev w') HEX_CTRL) 0 = false /\
  reg (dev w') HEX_RECT_OFFSET = 0 /\
  reg (dev w') ED_BA = reg (dev w) ED_BA /\
  reg (dev w') FBR_BA = reg (dev w) FBR_BA /\
  reg (dev w') RESOL = reg (dev w) RESOL /\
  written (drop (length (log w)) (log w'))
    = [DDA_CTRL; DDA_CTRL; HEX_CTRL; HEX_CTRL; HEX_RECT_OFFSET; DDA_STS].

(** A request has accessed nothing: from [w] to [w'] the device and the
    struct are unchanged and the history has grown by the taking and the
    release of the mutex. *)
Definition untouched {St : Type} (w w' : World St) : Prop :=
  dev w' = dev w /\ ece w' = ece w /\ log w' = log w ++ [EvLock; EvUnlock].

(** The commands the [switch] of [drv_ioctl] has a case for. *)
Definition video_known (cmd : ioctl_nr) : bool :=
  match cmd with
  | ECE_IOCGETED | ECE_IOCSETFB | ECE_IOCSETLP => true
  | _ => false
  end.

(** The commands of the media driver that copy a command block in. *)
Definition media_takes_block (cmd : ioctl_nr) : bool :=
  match cmd with
  | ECE_IOCGETED | ECE_IOCSETFB | ECE_IOCSETLP => true
  | _ => false
  end.


(** The test of [ECE_IOCSETLP] in the video driver: the width or the
    height of the command block, taken as [u32], differs from the one
    of the struct. *)
Definition geometry_changed (data : ece_ioctl_cmd)
    (e : Video.npcm750_ece) : bool :=
  negb (u32 (Uapi.w data) =? Video.width e)
  || negb (u32 (Uapi.h data) =? Video.height e).


(** The same for the video driver, whose request decodes the size in
    [k] rounds and clears the rectangle offset. *)
Definition video_encoded (data : ece_ioctl_cmd) (k : nat)
    (w w' : World Video.npcm750_ece) : Prop :=
  reg (dev w') RECT_XY
    = add32 (mul32 (u32 (Uapi.y data)) (Video.lin_pitch (ece w)))
            (mul32 (u32 (Uapi.x data)) 2) /\
  reg (dev w') RECT_DIMEN
    = rect_dimen (rect_tiles (u32 (Uapi.w data)) (u32 (Uapi.h data))) /\
  Z.testbit (reg (dev w') DDA_CTRL) 0 = true /\
  Z.land (reg (dev w') DDA_STS) CDREADY = 0 /\
  reg (dev w') HEX_RECT_OFFSET = 0 /\
  (forall a, a <> DDA_CTRL -> a <> DDA_STS -> a <> RECT_XY ->
             a <> RECT_DIMEN -> a <> HEX_RECT_OFFSET ->
             reg (dev w') a = reg (dev w) a) /\
  ece w' = Video.set_enc_gap (gap_length_of (reg (dev w) HEX_CTRL)) (ece w) /\
  loads (dev w') = (4 * k + loads (dev w))%nat /\
  written (drop (length (log w)) (log w'))
    = [DDA_CTRL; DDA_CTRL; RECT_XY; RECT_DIMEN; DDA_STS; HEX_RECT_OFFSET].

(** What an encode request answers: 0 and the command block with the gap
    length and the size filled in, the size as the [int] it is stored
    in; or [-EFAULT] and nothing when the block cannot be copied out. *)
Definition encode_reply (out_ok : bool) (gap size : Z)
    (data : ece_ioctl_cmd) : Z * ureply :=
  if out_ok
  then (0, ReplyCmd (Uapi.set_gap_len_len gap (s32 size) data))
  else (- EFAULT, NoReply).

(** What an encode routine has done to the device, from [d] to [d'],
    for the rectangle [(x, y, w, h)] and the line pitch [pitch]: the
    byte offset [y * pitch + 2 * x] is in [RECT_XY] and the packed tile
    layout in [RECT_DIMEN], the encoder is enabled, the engine has been
    started, and the output buffer and every other register are as they
    were. *)
Definition rect_programmed (x y w h pitch : Z) (d d' : Device) : Prop :=
  reg d' RECT_XY = add32 (mul32 y pitch) (mul32 x 2) /\
  reg d' RECT_DIMEN = rect_dimen (rect_tiles w h) /\
  Z.testbit (reg d' DDA_CTRL) 0 = true /\
  busy d' = latency d /\
  latency d' = latency d /\
  ed_mem d' = ed_mem d /\
  loads d' = loads d /\
  (forall a, a <> DDA_CTRL -> a <> RECT_XY -> a <> RECT_DIMEN ->
             reg d' a = reg d a).

(** The configuration registers mirror the struct, for a driver whose
    struct [St] holds the start of the output buffer in [start] and the
    line pitch in [lin_pitch]: the output base address is the start of
    the buffer, and the resolution register holds the code of the line
    pitch. *)
Definition mirrored {St : Type} (start lin_pitch : St -> Z)
    (d : Device) (e : St) : Prop :=
  reg d ED_BA = start e /\
  lp_code (lin_pitch e) = Some (reg d RESOL).

(** A request keeps a property [J] of the device and the struct: when
    it is run alone from a state with the property and returns, it
    returns in a state with the property. *)
Definition preserves {St A : Type} (J : Device -> St -> Prop)
    (p : Prog St A) : Prop :=
  forall w a w', J (dev w) (ece w) -> run p w = Some (a, w') ->
                 J (dev w') (ece w').

(** The property [J] holds whenever the mutex is free, for the callers
    [ps] begun on device [d] and struct [e], however they are
    scheduled. *)
Definition holds_when_free {St A : Type} (J : Device -> St -> Prop)
    (ps : list (Prog St A)) (d : Device) (e : St) : Prop :=
  forall sched,
    owner (interleave sched (start ps d e)) = None ->
    J (cdev (interleave sched (start ps d e)))
      (cece (interleave sched (start ps d e))).

(** A sample device whose configuration mirrors the sample struct of
    either driver (pitch 2048, output buffer at 0x7C00000), and two
    sample requests: a pitch of 4096 and an encode of one tile. *)
Definition sample_dev_configured : Device :=
  mk_dev {[ ED_BA := 0x7C00000; RESOL := LP_2048 ]} 0 2 (sample_mem 0) 0.

Definition sample_reqs : list (ioctl_nr * uarg) :=
  [(ECE_IOCSETLP, mk_uarg (Some (Uapi.mk_cmd 0 0 0 0 0 0 640 480 4096)) true);
   (ECE_IOCGETED, mk_uarg (Some (cmd_rect 0 0 16 16)) true)].




(** ** Set-up of the platform device

    [npcm750_ece_probe] and [npcm750_ece_device_create], which the two
    drivers share but for the names of the device-tree properties and
    for what the video driver does once the device is created
    ([Video.npcm750_ece_probe]).  The code asks the kernel for every
    resource, and what the kernel answers is not for the driver to
    decide: every answer is a parameter, and a [kernel] holds the
    answer to each call of one probe.  Pointers are addresses, 0 for
    [NULL]. *)

Module Platform.

Definition EIO : Z := 5.
Definition ENOMEM : Z := 12.
Definition EBUSY : Z := 16.
Definition MAX_ERRNO : Z := 4095.

(** [IS_ERR] and [PTR_ERR] of [linux/err.h], for pointers of 32 bits: an
    error pointer is one of the last 4095 addresses, and stands for the
    address taken as a [long]. *)
Definition IS_ERR (p : Z) : bool := u32 (- MAX_ERRNO) <=? p.
Definition PTR_ERR (p : Z) : Z := s32 p.

Record kernel : Type := mk_kernel {
  kzalloc : Z;
  of_start : Z;
  of_len : Z;
  request_mem_region : Z;
  ioremap : Z;
  of_iomap : Z;
  alloc_chrdev_region : Z * Z;
  kmalloc : Z;
  cdev_add : Z;
  class_create : Z;
  device_create : Z
}.

(** The fields of [struct npcm750_ece] the set-up fills in. *)
Record npcm750_ece : Type := mk_ece {
  base : Z;
  ed_buffer : Z;
  dev : Z;
  dev_p : Z;
  dev_cdevp : Z;
  ece_class : Z;
  dev_t : Z;
  comp_len : Z;
  comp_start : Z
}.

Definition set_base (v : Z) (e : npcm750_ece) : npcm750_ece :=
  mk_ece v (ed_buffer e) (dev e) (dev_p e) (dev_cdevp e) (ece_class e)
         (dev_t e) (comp_len e) (comp_start e).
Definition set_ed_buffer (v : Z) (e : npcm750_ece) : npcm750_ece :=
  mk_ece (base e) v (dev e) (dev_p e) (dev_cdevp e) (ece_class e)
         (dev_t e) (comp_len e) (comp_start e).
Definition set_dev (v : Z) (e : npcm750_ece) : npcm750_ece :=
  mk_ece (base e) (ed_buffer e) v (dev_p e) (dev_cdevp e) (ece_class e)
         (dev_t e) (comp_len e) (comp_start e).
Definition set_dev_p (v : Z) (e : npcm750_ece) : npcm750_ece :=
  mk_ece (base e) (ed_buffer e) (dev e) v (dev_cdevp e) (ece_class e)
         (dev_t e) (comp_len e) (comp_start e).
Definition set_ece_class (v : Z) (e : npcm750_ece) : npcm750_ece :=
  mk_ece (base e) (ed_buffer e) (dev e) (dev_p e) (dev_cdevp e) v
         (dev_t e) (comp_len e) (comp_start e).
Definition set_dev_t (v : Z) (e : npcm750_ece) : npcm750_ece :=
  mk_ece (base e) (ed_buffer e) (dev e) (dev_p e) (dev_cdevp e) (ece_class e)
         v (comp_len e) (comp_start e).
Definition set_comp (start len : Z) (e : npcm750_ece) : npcm750_ece :=
  mk_ece (base e) (ed_buffer e) (dev e) (dev_p e) (dev_cdevp e) (ece_class e)
         (dev_t e) len start.

(** What [kzalloc] hands out. *)
Definition zeroed : npcm750_ece := mk_ece 0 0 0 0 0 0 0 0 0.

(** The label [err] of [npcm750_ece_device_create]:
    [if (!dev_cdevp) kfree(dev_cdevp); return ret;].  The result is the
    value returned, the struct, and the pointers given to [kfree]. *)
Definition device_create_err (ret dev_cdevp : Z) (e : npcm750_ece)
  : Z * npcm750_ece * list Z :=
  (ret, e, if dev_cdevp =? 0 then [dev_cdevp] else []).

Definition npcm750_ece_device_create (k : kernel) (e : npcm750_ece)
  : Z * npcm750_ece * list Z :=
  let dev_cdevp := dev_cdevp e in
  let '(ret, devt) := alloc_chrdev_region k in
  if ret <? 0 then device_create_err ret dev_cdevp e
  else
    let dev_cdevp := kmalloc k in
    if dev_cdevp =? 0 then device_create_err ret dev_cdevp e
    else
      let e := set_dev_t devt e in
      let ret := cdev_add k in
      if ret <? 0 then device_create_err ret dev_cdevp e
      else
        let e := set_ece_class (class_create k) e in
        if IS_ERR (ece_class e)
        then
          let ret := PTR_ERR (ece_class e) in
          let e := set_ece_class 0 e in
          device_create_err ret dev_cdevp e
        else
          let e := set_dev (device_create k) e in
          if IS_ERR (dev e)
          then
            let e := set_dev 0 e in
            device_create_err ret dev_cdevp e
          else (0, e, []).

(** The outcome of a probe: the value returned, what [registered_ece]
    points to afterwards (with [Some], the video driver has gone on to
    initialise the engine before it returns), and the pointers given to
    [kfree], in order. *)
Record outcome : Type := mk_outcome {
  ret : Z;
  registered_ece : option npcm750_ece;
  kfreed : list Z
}.

(** The label [err] of [npcm750_ece_probe]: [kfree(ece); return ret;]. *)
Definition probe_err (ret : Z) (k : kernel) (freed : list Z) : outcome :=
  mk_outcome ret None (freed ++ [kzalloc k]).

Definition npcm750_ece_probe (pdev_dev : Z) (k : kernel) : outcome :=
  if kzalloc k =? 0 then mk_outcome (- ENOMEM) None []
  else
    let e := set_comp (of_start k) (of_len k) zeroed in
    if request_mem_region k =? 0 then probe_err (- EBUSY) k []
    else
      let e := set_ed_buffer (ioremap k) e in
      if ed_buffer e =? 0 then probe_err (- EIO) k []
      else
        let e := set_base (of_iomap k) e in
        if IS_ERR (base e) then probe_err (PTR_ERR (base e)) k []
        else
          let e := set_dev_p pdev_dev e in
          let '(ret, e, freed) := npcm750_ece_device_create k e in
          if negb (ret =? 0) then probe_err ret k freed
          else mk_outcome 0 (Some e) freed.

(** A kernel that grants everything. *)
Definition granting : kernel :=
  mk_kernel 0xC1000000 0x7C00000 0x400000 0xC1000100 0xD0000000 0xF0820000
            (0, 0xF400000) 0xC1000200 0 0xC1000300 0xC1000400.

(** The same, but for one refusal. *)
Definition without_cdev : kernel :=
  mk_kernel 0xC1000000 0x7C00000 0x400000 0xC1000100 0xD0000000 0xF0820000
            (0, 0xF400000) 0 0 0xC1000300 0xC1000400.

Definition without_iomap : kernel :=
  mk_kernel 0xC1000000 0x7C00000 0x400000 0xC1000100 0xD0000000 0
            (0, 0xF400000) 0xC1000200 0 0xC1000300 0xC1000400.

Definition without_class : kernel :=
  mk_kernel 0xC1000000 0x7C00000 0x400000 0xC1000100 0xD0000000 0xF0820000
            (0, 0xF400000) 0xC1000200 0 (u32 (- ENOMEM)) 0xC1000400.

End Platform.

(** * Properties *)

(** ** Machine arithmetic *)

Lemma u32_small x : is_u32 x -> u32 x = x.
Proof. intros H. unfold u32. apply Z.mod_small. exact H. Qed.

Lemma u32_range x : is_u32 (u32 x).
Proof. unfold is_u32, u32. apply Z.mod_pos_bound. reflexivity. Qed.

Lemma add32_small x y : is_u32 (x + y) -> add32 x y = x + y.
Proof. apply u32_small. Qed.

Lemma ceil_div_spec a b :
  0 < b -> b * (ceil_div a b - 1) < a <= b * ceil_div a b.
Proof.
  intros Hb. unfold ceil_div.
  pose proof (Z.div_mod (a + b - 1) b ltac:(lia)) as E.
  pose proof (Z.mod_pos_bound (a + b - 1) b Hb) as B.
  lia.
Qed.

(** ** The tile partition *)

Example rect_tiles_640 :
  rect_tiles 640 640 = mk_tiles 40 40 16 16.
Proof. reflexivity. Qed.

Example rect_tiles_20 :
  rect_tiles 20 20 = mk_tiles 2 2 4 4.
Proof. reflexivity. Qed.

Example rect_tiles_0 :
  rect_tiles 0 0 = mk_tiles 0 1 16 0.
Proof. reflexivity. Qed.

(** A rectangle of width 0 sets every bit of the dimension register. *)
Example rect_dimen_0 :
  rect_dimen (rect_tiles 0 16) = 0xFFFFFFFF.
Proof. reflexivity. Qed.

Ltac tiles_arith :=
  unfold is_u32, ceil_div in *;
  repeat match goal with
         | |- context [Z.eqb ?a ?b] => destruct (Z.eqb_spec a b)
         | H : context [Z.eqb ?a ?b] |- _ => destruct (Z.eqb_spec a b)
         end;
  cbn [negb orb andb fst snd w_tile h_tile w_size h_size] in *;
  try (rewrite add32_small by (unfold is_u32; Z.div_mod_to_equations; lia));
  try (Z.div_mod_to_equations; lia).

(** C1.  For every rectangle (of [u32] width and height) the locals of
    the encode routine at the write of the dimension register are:
    [w_tile = ceil (w / 16)], [w_size = 16] when [w] is a multiple of 16
    and [w mod 16] otherwise; [h_tile = floor (h / 16)] plus one exactly
    when [h] is not a multiple of 16 or the quotient is zero, and
    [h_size = 16] when there is no increment and [h mod 16] otherwise. *)
Theorem tile_partition_rule (r_w r_h : Z) :
  is_u32 r_w -> is_u32 r_h ->
  w_tile (rect_tiles r_w r_h) = ceil_div r_w 16 /\
  w_size (rect_tiles r_w r_h) = (if r_w mod 16 =? 0 then 16 else r_w mod 16) /\
  h_tile (rect_tiles r_w r_h) = r_h / 16 + (if row_bump r_h then 1 else 0) /\
  h_size (rect_tiles r_w r_h) = (if row_bump r_h then r_h mod 16 else 16).
Proof.
  intros Hw Hh.
  unfold rect_tiles, row_bump, ECE_TILE_W, ECE_TILE_H.
  repeat split; tiles_arith.
Qed.

Lemma tile_partition_rule_witness :
  w_tile (rect_tiles 20 20) = ceil_div 20 16 /\
  w_size (rect_tiles 20 20) = (if 20 mod 16 =? 0 then 16 else 20 mod 16) /\
  h_tile (rect_tiles 20 20) = 20 / 16 + (if row_bump 20 then 1 else 0) /\
  h_size (rect_tiles 20 20) = (if row_bump 20 then 20 mod 16 else 16).
Proof. apply (tile_partition_rule 20 20); unfold is_u32; lia. Defined.

(** C2, as stated, fails: an empty rectangle gets no tile column and a
    last row of height 0. *)
Lemma tiles_inv_fails_on_empty_rect : ~ tiles_inv (rect_tiles 0 0).
Proof. intros [H _]. vm_compute in H. apply H. reflexivity. Qed.

(** C2, amended.  For every rectangle there is at least one tile row and
    the last column is 1 to 16 pixels wide; there is at least one tile
    column when the width is not 0, and the last row is 1 to 16 pixels
    high when the height is not 0.  So the layout invariant holds for
    every rectangle of non-zero width and height. *)
Theorem tiles_inv_nonempty_rect (r_w r_h : Z) :
  is_u32 r_w -> is_u32 r_h ->
  1 <= h_tile (rect_tiles r_w r_h) /\
  1 <= w_size (rect_tiles r_w r_h) <= 16 /\
  (1 <= r_w -> 1 <= w_tile (rect_tiles r_w r_h)) /\
  (1 <= r_h -> 1 <= h_size (rect_tiles r_w r_h) <= 16) /\
  (1 <= r_w -> 1 <= r_h -> tiles_inv (rect_tiles r_w r_h)).
Proof.
  intros Hw Hh.
  unfold tiles_inv, rect_tiles, ECE_TILE_W, ECE_TILE_H.
  repeat split; intros; tiles_arith.
Qed.

Lemma tiles_inv_nonempty_rect_witness :
  1 <= h_tile (rect_tiles 7 33) /\
  1 <= w_size (rect_tiles 7 33) <= 16 /\
  (1 <= 7 -> 1 <= w_tile (rect_tiles 7 33)) /\
  (1 <= 33 -> 1 <= h_size (rect_tiles 7 33) <= 16) /\
  (1 <= 7 -> 1 <= 33 -> tiles_inv (rect_tiles 7 33)).
Proof. apply (tiles_inv_nonempty_rect 7 33); unfold is_u32; lia. Defined.

(** C3, as stated, fails at width 0: no tile column, and a last column
    recorded as 16 wide. *)
Lemma narrow_rect_fails_on_zero_width :
  ~ (forall r_w r_h, is_u32 r_w -> is_u32 r_h -> r_w < ECE_TILE_W ->
       w_tile (rect_tiles r_w r_h) = 1 /\ w_size (rect_tiles r_w r_h) = r_w).
Proof.
  intros H. specialize (H 0 16).
  destruct H as [H _]; [unfold is_u32; lia .. | reflexivity |].
  discriminate H.
Qed.

(** C3, amended.  For every rectangle whose width is at least 1 and less
    than the tile width there is one tile column, and the last column is
    as wide as the rectangle. *)
Theorem narrow_rect_one_column (r_w r_h : Z) :
  is_u32 r_h -> 1 <= r_w < ECE_TILE_W ->
  w_tile (rect_tiles r_w r_h) = 1 /\ w_size (rect_tiles r_w r_h) = r_w.
Proof.
  unfold rect_tiles, ECE_TILE_W, ECE_TILE_H. intros Hh Hw.
  split; tiles_arith.
Qed.

Lemma narrow_rect_one_column_witness :
  w_tile (rect_tiles 9 100) = 1 /\ w_size (rect_tiles 9 100) = 9.
Proof.
  apply (narrow_rect_one_column 9 100); unfold is_u32, ECE_TILE_W; lia.
Defined.

(** ** Running programs *)

Section RunFacts.
Context {St : Type}.
Implicit Types w : World St.

Lemma run_bind {A B} (p : Prog St A) (k : A -> Prog St B) w :
  run (p ≫= k) w =
  match run p w with
  | Some (a, w') => run (k a) w'
  | None => None
  end.
Proof.
  revert w. induction p as [a| |p IH|p IH|addr f IH|val addr p IH
                            |idx f IH|f IH|s p IH]; intros w; cbn.
  - reflexivity.
  - reflexivity.
  - apply IH.
  - apply IH.
  - apply IH.
  - apply IH.
  - apply IH.
  - apply IH.
  - apply IH.
Qed.

Lemma run_seq {A B} (p : Prog St A) (q : Prog St B) w :
  run (p ;; q) w =
  match run p w with
  | Some (_, w') => run q w'
  | None => None
  end.
Proof. apply run_bind. Qed.

Lemma run_ret {A} (a : A) w : run (mret a : Prog St A) w = Some (a, w).
Proof. reflexivity. Qed.

End RunFacts.

(** ** The device *)

Lemma hw_polled_other addr d : addr <> DDA_STS -> hw_polled addr d = d.
Proof.
  intros H. unfold hw_polled.
  destruct (Z.eqb_spec addr DDA_STS); [contradiction | reflexivity].
Qed.

Lemma regs_hw_writel val addr d :
  addr <> DDA_STS -> regs (hw_writel val addr d) = <[addr := val]> (regs d).
Proof.
  intros H. unfold hw_writel.
  destruct (Z.eqb_spec addr DDA_STS); [contradiction | reflexivity].
Qed.

Lemma reg_hw_writel_eq val addr d :
  addr <> DDA_STS -> reg (hw_writel val addr d) addr = val.
Proof.
  intros H. unfold reg. rewrite regs_hw_writel by exact H.
  rewrite lookup_insert_eq. reflexivity.
Qed.

Lemma reg_hw_writel_ne val addr addr' d :
  addr <> addr' -> reg (hw_writel val addr d) addr' = reg d addr'.
Proof.
  intros H. unfold reg, hw_writel. cbn [regs].
  rewrite lookup_insert_ne by exact H. reflexivity.
Qed.

(** A write to the status register clears [CDREADY] if it writes a 1
    there, and nothing else. *)
Lemma reg_hw_writel_sts val d :
  reg (hw_writel val DDA_STS d) DDA_STS
  = Z.land (reg d DDA_STS) (not32 (Z.land val CDREADY)).
Proof.
  unfold reg, hw_writel. cbn [regs Z.eqb DDA_STS Pos.eqb].
  rewrite lookup_insert_eq. reflexivity.
Qed.

Lemma busy_hw_writel val addr d :
  addr <> RECT_DIMEN -> busy (hw_writel val addr d) = busy d.
Proof.
  intros H. unfold hw_writel. cbn [busy].
  destruct (Z.eqb_spec addr RECT_DIMEN); [contradiction | reflexivity].
Qed.

Lemma busy_hw_writel_dimen val d :
  busy (hw_writel val RECT_DIMEN d) = latency d.
Proof. reflexivity. Qed.

Lemma latency_hw_writel val addr d :
  latency (hw_writel val addr d) = latency d.
Proof. reflexivity. Qed.

Lemma loads_hw_writel val addr d : loads (hw_writel val addr d) = loads d.
Proof. reflexivity. Qed.

Lemma ed_mem_hw_writel val addr d : ed_mem (hw_writel val addr d) = ed_mem d.
Proof. reflexivity. Qed.

(** Register offsets are told apart by computation. *)
Ltac reg_neq := let H := fresh in intros H; vm_compute in H; discriminate H.

Ltac reg_simpl :=
  repeat first
    [ rewrite hw_polled_other by reg_neq
    | rewrite reg_hw_writel_eq by reg_neq
    | rewrite reg_hw_writel_ne by reg_neq
    | rewrite reg_hw_writel_sts ].

(** One step of [run] through the structure of a program. *)
Ltac run_step :=
  cbn [run mbind prog_mbind prog_bind mret prog_ret readl writel load_ed
       get_ece set_ece mutex_lock mutex_unlock dev ece log].

Ltac log_simpl := rewrite <- ?app_assoc; cbn [app].

(** *** Masks *)

Lemma land_not32_same m x : Z.land (Z.land x (not32 m)) m = 0.
Proof.
  rewrite <- Z.land_assoc.
  replace (Z.land (not32 m) m) with 0; [apply Z.land_0_r |].
  symmetry. apply Z.bits_inj'. intros n Hn.
  rewrite Z.land_spec, Z.bits_0. unfold not32, u32.
  destruct (Z.ltb_spec n 32).
  - rewrite Z.mod_pow2_bits_low by lia.
    rewrite Z.lnot_spec by lia. apply andb_negb_l.
  - rewrite Z.mod_pow2_bits_high by lia. reflexivity.
Qed.

Lemma land_lor_same m x : Z.land (Z.lor x m) m = m.
Proof.
  apply Z.bits_inj'. intros n _.
  rewrite Z.land_spec, Z.lor_spec.
  destruct (Z.testbit x n), (Z.testbit m n); reflexivity.
Qed.

Lemma land_not32_idem m x :
  Z.land (Z.land x (not32 m)) (not32 m) = Z.land x (not32 m).
Proof. rewrite <- Z.land_assoc, Z.land_diag. reflexivity. Qed.

Lemma hw_writel_other val addr d :
  addr <> DDA_STS -> addr <> RECT_DIMEN ->
  hw_writel val addr d
  = mk_dev (<[addr := val]> (regs d)) (busy d) (latency d)
           (ed_mem d) (loads d).
Proof.
  intros H H'. unfold hw_writel.
  destruct (Z.eqb_spec addr DDA_STS); [contradiction|].
  destruct (Z.eqb_spec addr RECT_DIMEN); [contradiction | reflexivity].
Qed.

(** ** Register helpers of the media driver *)

Lemma run_update_bits offset mask bits (w : World Media.npcm750_ece) :
  offset <> DDA_STS ->
  run (Media.npcm750_ece_update_bits offset mask bits) w =
  Some (tt, mk_world
    (hw_writel (Z.lor (Z.land (reg (dev w) offset) (not32 mask))
                      (Z.land bits mask)) offset (dev w))
    (ece w)
    (log w ++ [EvRead offset (reg (dev w) offset);
               EvWrite offset (Z.lor (Z.land (reg (dev w) offset) (not32 mask))
                                     (Z.land bits mask))])).
Proof.
  intros H. unfold Media.npcm750_ece_update_bits. run_step.
  rewrite hw_polled_other by exact H. log_simpl. reflexivity.
Qed.

(** ** Reset *)

Lemma lor_land_not32_1 x :
  Z.land (Z.lor (Z.land x (not32 1)) 1) (not32 1) = Z.land (Z.lor x 1) (not32 1).
Proof.
  rewrite !Z.land_lor_distr_l, land_not32_idem. reflexivity.
Qed.

(** C9.  From one and the same device, the reset routines of the two
    drivers end in one and the same device state, although they write
    the control and hex-control registers in different orders: the
    encoder-enable bit of [DDA_CTRL] is set, the encode-disable bit of
    [HEX_CTRL] is clear and [HEX_RECT_OFFSET] is 0. *)
Theorem reset_variants_agree (d : Device) ev em lv lm :
  exists wv wm,
    run Video.ece_reset (mk_world d ev lv) = Some (tt, wv) /\
    run Media.npcm750_ece_reset (mk_world d em lm) = Some (tt, wm) /\
    dev wv = dev wm /\
    Z.testbit (reg (dev wm) DDA_CTRL) 0 = true /\
    Z.testbit (reg (dev wm) HEX_CTRL) 0 = false /\
    reg (dev wm) HEX_RECT_OFFSET = 0 /\
    written (drop (length lv) (log wv))
      = [DDA_CTRL; DDA_CTRL; HEX_CTRL; HEX_CTRL; HEX_RECT_OFFSET] /\
    written (drop (length lm) (log wm))
      = [DDA_CTRL; HEX_CTRL; DDA_CTRL; HEX_CTRL; HEX_RECT_OFFSET].
Proof.
  unfold Media.npcm750_ece_reset.
  repeat (rewrite run_seq, run_update_bits by reg_neq; cbn beta iota zeta).
  unfold Media.npcm750_ece_clear_rect_offset, Media.npcm750_ece_write.
  unfold Video.ece_reset. run_step. reg_simpl. log_simpl.
  match goal with |- context [if ?c then _ else _] => destruct c end;
    run_step; (do 2 eexists; split; [reflexivity|]; split; [reflexivity|]);
    cbn [dev log].
  all: rewrite !drop_app_length.
  all: rewrite !hw_writel_other by reg_neq;
    cbn [regs busy latency ed_mem loads].
  all: change Media.HEX_CTRL_ENCDIS with 1; change Media.DDA_CTRL_ECEEN with 1;
    change ENCDIS with 1; change ECEEN with 1;
    change (Z.land (not32 1) 1) with 0; change (Z.land 1 1) with 1;
    rewrite ?Z.lor_0_r, ?land_not32_idem, ?lor_land_not32_1.
  all: repeat split.
  all: try (f_equal; apply map_eq; intros i; rewrite !lookup_insert;
            repeat case_decide; congruence).
  all: unfold reg at 1; cbn [regs].
  all: repeat first [ rewrite lookup_insert_eq
                   | rewrite lookup_insert_ne by reg_neq ].
  all: cbn [default from_option id].
  all: rewrite ?Z.lor_spec, ?Z.land_spec; try reflexivity.
  all: first [ apply orb_true_r | apply andb_false_r ].
Qed.

(** ** Line pitch *)

Lemma lp_code_legal pitch : legal_lp pitch <-> is_Some (lp_code pitch).
Proof.
  unfold legal_lp, lp_code. split.
  - intros [->|[->|[->|[->| ->]]]]; cbn; eauto.
  - intros [c Hc].
    repeat match type of Hc with
           | context [Z.eqb ?a ?b] => destruct (Z.eqb_spec a b); [tauto|]
           end.
    discriminate Hc.
Qed.

Lemma lp_code_illegal pitch : ~ legal_lp pitch <-> lp_code pitch = None.
Proof.
  rewrite lp_code_legal, <- eq_None_not_Some. reflexivity.
Qed.

Lemma hw_writel_twice val addr d :
  hw_writel val addr (hw_writel val addr d) = hw_writel val addr d.
Proof.
  unfold hw_writel at 1. destruct (Z.eqb_spec addr DDA_STS) as [->|H].
  - rewrite reg_hw_writel_sts.
    unfold hw_writel.
    cbn [regs busy latency ed_mem loads Z.eqb DDA_STS RECT_DIMEN Pos.eqb].
    rewrite insert_insert_eq, land_not32_idem. reflexivity.
  - unfold hw_writel. destruct (Z.eqb_spec addr DDA_STS); [contradiction|].
    cbn [regs busy latency ed_mem loads].
    rewrite insert_insert_eq.
    destruct (addr =? RECT_DIMEN); reflexivity.
Qed.

Section SetLp.
Context {St : Type} (lin_pitch : St -> Z) (set_lin_pitch : Z -> St -> St).
Hypothesis get_set : forall v e, lin_pitch (set_lin_pitch v e) = v.
Hypothesis set_set :
  forall v e, set_lin_pitch v (set_lin_pitch v e) = set_lin_pitch v e.

(** The shape shared by [ece_set_lp] and [npcm750_ece_set_lp]. *)
Lemma lp_config_ok_of_run (set_lp : Z -> Prog St unit) pitch w :
  (forall w, run (set_lp pitch) w =
     Some (tt, match lp_code pitch with
               | Some lp => mk_world (hw_writel lp RESOL (dev w))
                                     (set_lin_pitch pitch (ece w))
                                     (log w ++ [EvWrite RESOL lp])
               | None => w
               end)) ->
  lp_config_ok set_lp lin_pitch pitch w.
Proof.
  intros Hrun. unfold lp_config_ok.
  eexists _, _. split; [apply Hrun|]. split; [apply Hrun|].
  destruct (lp_code pitch) as [lp|] eqn:E; cbn [dev ece].
  - assert (legal_lp pitch) as L by (apply lp_code_legal; eauto).
    rewrite set_set, hw_writel_twice, get_set.
    rewrite reg_hw_writel_eq by reg_neq.
    repeat split; try reflexivity; tauto.
  - apply lp_code_illegal in E.
    repeat split; try reflexivity; tauto.
Qed.

End SetLp.


(** ** Frame-buffer address *)

(** C8.  In both drivers, setting the frame-buffer address to 0 fails
    with an error ([-EFAULT] is the code the drivers use for the invalid
    argument) without any access to the device, so that [FBR_BA] keeps
    its value; any other address is written to [FBR_BA] and the call
    succeeds. *)
Theorem setfb_zero_rejected (fuel : nat) (data : ece_ioctl_cmd)
    (out_ok : bool)
    (wm : World Media.npcm750_ece) (wv : World Video.npcm750_ece) :
  setfb_ok Media.npcm750_ece_ioctl fuel data out_ok wm /\
  setfb_ok Video.drv_ioctl fuel data out_ok wv.
Proof.
  unfold setfb_ok, Media.npcm750_ece_ioctl, Video.drv_ioctl.
  cbn [u_in u_out_ok].
  repeat split; intros H.
  1, 3: rewrite H; cbn [Z.eqb].
  3, 4: apply Z.eqb_neq in H; rewrite H.
  all: unfold Media.unlock_return, Video.unlock_return,
         Media.npcm750_ece_set_fb_addr, Video.ece_set_fb_addr,
         Media.npcm750_ece_write.
  all: run_step; log_simpl; eexists; split; [reflexivity|]; cbn [dev ece log].
  all: reg_simpl; repeat split.
Qed.

Lemma setfb_zero_rejected_witness :
  (exists w',
     run (Media.npcm750_ece_ioctl 0 ECE_IOCSETFB
            (mk_uarg (Some (cmd_fb 0)) true)) Media.world0
       = Some ((- EFAULT, NoReply), w') /\
     dev w' = dev Media.world0 /\ ece w' = ece Media.world0 /\
     log w' = log Media.world0 ++ [EvLock; EvUnlock]) /\
  (exists w',
     run (Video.drv_ioctl 0 ECE_IOCSETFB
            (mk_uarg (Some (cmd_fb 0x6000000)) true)) Video.world0
       = Some ((0, NoReply), w') /\
     reg (dev w') FBR_BA = 0x6000000 /\
     log w' = log Video.world0 ++ [EvLock; EvWrite FBR_BA 0x6000000;
                                   EvUnlock]).
Proof.
  split.
  - apply (setfb_zero_rejected 0 (cmd_fb 0) true Media.world0 Video.world0).
    reflexivity.
  - apply (setfb_zero_rejected 0 (cmd_fb 0x6000000) true
             Media.world0 Video.world0).
    discriminate.
Defined.

(** ** Waiting for the engine *)

Lemma engine_tick_idle d : busy d = O -> engine_tick d = d.
Proof. intros H. unfold engine_tick. rewrite H. reflexivity. Qed.

Lemma engine_tick_last d : busy d = 1%nat -> engine_tick d = dev_ready d.
Proof. intros H. unfold engine_tick. rewrite H. reflexivity. Qed.

Lemma engine_tick_more d n :
  busy d = S (S n) ->
  engine_tick d = mk_dev (regs d) (S n) (latency d) (ed_mem d) (loads d).
Proof. intros H. unfold engine_tick. rewrite H. reflexivity. Qed.

Lemma hw_polled_sts d : hw_polled DDA_STS d = engine_tick d.
Proof. reflexivity. Qed.

Lemma reg_dev_ready_sts d :
  reg (dev_ready d) DDA_STS = Z.lor (reg d DDA_STS) CDREADY.
Proof.
  unfold dev_ready. unfold reg at 1. cbn [regs].
  rewrite lookup_insert_eq. reflexivity.
Qed.

Lemma reg_dev_ready_other d addr :
  addr <> DDA_STS -> reg (dev_ready d) addr = reg d addr.
Proof.
  intros H. unfold reg, dev_ready. cbn [regs].
  rewrite lookup_insert_ne by congruence. reflexivity.
Qed.

Lemma polls_S n s : polls (S n) s = EvRead DDA_STS s :: polls n s.
Proof. reflexivity. Qed.

Lemma cdready_raised s : Z.land (Z.lor s CDREADY) CDREADY = CDREADY.
Proof. apply land_lor_same. Qed.

Section MediaWait.
Implicit Types w : World Media.npcm750_ece.

(** A poll that finds the bit set ends the wait. *)
Lemma media_wait_ready fuel w :
  Z.land (reg (dev w) DDA_STS) CDREADY <> 0 ->
  run (Media.wait_rect_compressed (S fuel)) w =
  Some (tt, mk_world (engine_tick (dev w)) (ece w)
                     (log w ++ [EvRead DDA_STS (reg (dev w) DDA_STS)])).
Proof.
  intros H. cbn [Media.wait_rect_compressed].
  unfold Media.npcm750_ece_is_rect_compressed, Media.npcm750_ece_read.
  run_step. change Media.DDA_STS_CDREADY with CDREADY.
  apply Z.eqb_neq in H. rewrite H. reflexivity.
Qed.

(** A poll that finds the bit clear is followed by another. *)
Lemma media_wait_again fuel w :
  Z.land (reg (dev w) DDA_STS) CDREADY = 0 ->
  run (Media.wait_rect_compressed (S fuel)) w =
  run (Media.wait_rect_compressed fuel)
      (mk_world (engine_tick (dev w)) (ece w)
                (log w ++ [EvRead DDA_STS (reg (dev w) DDA_STS)])).
Proof.
  intros H. cbn [Media.wait_rect_compressed].
  unfold Media.npcm750_ece_is_rect_compressed, Media.npcm750_ece_read.
  run_step. change Media.DDA_STS_CDREADY with CDREADY.
  rewrite H. reflexivity.
Qed.

(** With the engine idle and the bit clear the wait never ends. *)
Lemma media_wait_forever fuel w :
  busy (dev w) = O -> Z.land (reg (dev w) DDA_STS) CDREADY = 0 ->
  run (Media.wait_rect_compressed fuel) w = None.
Proof.
  revert w. induction fuel as [|fuel IH]; intros w Hb Hs; [reflexivity|].
  rewrite media_wait_again by exact Hs.
  rewrite engine_tick_idle by exact Hb.
  apply IH; assumption.
Qed.

(** With the engine [n] polls from completion, the wait ends with poll
    [n + 1]. *)
Lemma media_wait_busy n fuel w :
  busy (dev w) = S n -> Z.land (reg (dev w) DDA_STS) CDREADY = 0 ->
  (S n < fuel)%nat ->
  run (Media.wait_rect_compressed fuel) w =
  Some (tt, mk_world (dev_ready (dev w)) (ece w)
              (log w ++ polls (S n) (reg (dev w) DDA_STS)
                     ++ [EvRead DDA_STS (Z.lor (reg (dev w) DDA_STS) CDREADY)])).
Proof.
  revert fuel w. induction n as [|n IH]; intros fuel w Hb Hs Hf.
  - destruct fuel as [|[|fuel]]; [lia..|].
    rewrite media_wait_again by exact Hs.
    rewrite engine_tick_last by exact Hb.
    rewrite media_wait_ready; cbn [dev ece log].
    + rewrite reg_dev_ready_sts, engine_tick_idle by reflexivity.
      log_simpl. reflexivity.
    + rewrite reg_dev_ready_sts, cdready_raised. discriminate.
  - destruct fuel as [|fuel]; [lia|].
    rewrite media_wait_again by exact Hs.
    rewrite (engine_tick_more _ _ Hb).
    rewrite IH; cbn [dev ece log busy]; [|reflexivity|exact Hs|lia].
    rewrite (polls_S (S n)). log_simpl. reflexivity.
Qed.

End MediaWait.

Lemma cdready_test s :
  Z.land s CDREADY = 0 \/ Z.land s CDREADY = CDREADY.
Proof.
  destruct (Z.testbit s 8) eqn:E; [right|left];
    apply Z.bits_inj'; intros n Hn; rewrite Z.land_spec;
    destruct (Z.eq_dec n 8) as [->|Hne].
  - rewrite E. reflexivity.
  - replace (Z.testbit CDREADY n) with false; [apply andb_false_r|].
    symmetry. change CDREADY with (2 ^ 8). apply Z.pow2_bits_false. lia.
  - rewrite E, Z.bits_0. reflexivity.
  - rewrite Z.bits_0.
    replace (Z.testbit CDREADY n) with false; [apply andb_false_r|].
    symmetry. change CDREADY with (2 ^ 8). apply Z.pow2_bits_false. lia.
Qed.

Section VideoWait.
Implicit Types w : World Video.npcm750_ece.

Lemma video_wait_ready fuel w :
  Z.land (reg (dev w) DDA_STS) CDREADY <> 0 ->
  run (Video.wait_rect_compressed (S fuel)) w =
  Some (tt, mk_world (engine_tick (dev w)) (ece w)
                     (log w ++ [EvRead DDA_STS (reg (dev w) DDA_STS)])).
Proof.
  intros H. cbn [Video.wait_rect_compressed].
  unfold Video.ece_is_rect_compressed. run_step.
  destruct (cdready_test (reg (dev w) DDA_STS)) as [E|E]; [contradiction|].
  rewrite E. reflexivity.
Qed.

Lemma video_wait_again fuel w :
  Z.land (reg (dev w) DDA_STS) CDREADY = 0 ->
  run (Video.wait_rect_compressed (S fuel)) w =
  run (Video.wait_rect_compressed fuel)
      (mk_world (engine_tick (dev w)) (ece w)
                (log w ++ [EvRead DDA_STS (reg (dev w) DDA_STS)])).
Proof.
  intros H. cbn [Video.wait_rect_compressed].
  unfold Video.ece_is_rect_compressed. run_step.
  rewrite H. reflexivity.
Qed.

Lemma video_wait_forever fuel w :
  busy (dev w) = O -> Z.land (reg (dev w) DDA_STS) CDREADY = 0 ->
  run (Video.wait_rect_compressed fuel) w = None.
Proof.
  revert w. induction fuel as [|fuel IH]; intros w Hb Hs; [reflexivity|].
  rewrite video_wait_again by exact Hs.
  rewrite engine_tick_idle by exact Hb.
  apply IH; assumption.
Qed.

Lemma video_wait_busy n fuel w :
  busy (dev w) = S n -> Z.land (reg (dev w) DDA_STS) CDREADY = 0 ->
  (S n < fuel)%nat ->
  run (Video.wait_rect_compressed fuel) w =
  Some (tt, mk_world (dev_ready (dev w)) (ece w)
              (log w ++ polls (S n) (reg (dev w) DDA_STS)
                     ++ [EvRead DDA_STS (Z.lor (reg (dev w) DDA_STS) CDREADY)])).
Proof.
  revert fuel w. induction n as [|n IH]; intros fuel w Hb Hs Hf.
  - destruct fuel as [|[|fuel]]; [lia..|].
    rewrite video_wait_again by exact Hs.
    rewrite engine_tick_last by exact Hb.
    rewrite video_wait_ready; cbn [dev ece log].
    + rewrite reg_dev_ready_sts, engine_tick_idle by reflexivity.
      log_simpl. reflexivity.
    + rewrite reg_dev_ready_sts, cdready_raised. discriminate.
  - destruct fuel as [|fuel]; [lia|].
    rewrite video_wait_again by exact Hs.
    rewrite (engine_tick_more _ _ Hb).
    rewrite IH; cbn [dev ece log busy]; [|reflexivity|exact Hs|lia].
    rewrite (polls_S (S n)). log_simpl. reflexivity.
Qed.

End VideoWait.

(** ** Decoding the size word *)

Lemma lor_shiftl_add x y n :
  0 <= n -> 0 <= x < 2 ^ n -> Z.lor x (Z.shiftl y n) = x + 2 ^ n * y.
Proof.
  intros Hn Hx.
  rewrite <- Z.lxor_lor, <- Z.add_nocarry_lxor, Z.shiftl_mul_pow2 by
    first [ exact Hn
          | apply Z.bits_inj'; intros m Hm;
            rewrite Z.land_spec, Z.bits_0;
            destruct (Z.ltb_spec m n);
            [ rewrite Z.shiftl_spec_low by lia; apply andb_false_r
            | rewrite <- (Z.mod_small x (2 ^ n)) by lia;
              rewrite Z.mod_pow2_bits_high by lia; reflexivity ] ].
  lia.
Qed.

Lemma u8_range x : 0 <= u8 x < 2 ^ 8.
Proof. unfold u8. apply Z.mod_pos_bound. reflexivity. Qed.

Lemma ed_byte_range d idx : 0 <= ed_byte d idx < 2 ^ 8.
Proof. apply u8_range. Qed.

(** The size expression of the drivers is the little-endian decode. *)
Lemma ed_size_of_le32 b0 b1 b2 b3 :
  0 <= b0 < 2 ^ 8 -> 0 <= b1 < 2 ^ 8 -> 0 <= b2 < 2 ^ 8 -> 0 <= b3 < 2 ^ 8 ->
  ed_size_of b0 b1 b2 b3 = le32 b0 b1 b2 b3.
Proof.
  intros H0 H1 H2 H3. unfold ed_size_of, le32.
  rewrite (lor_shiftl_add b0 b1 8) by lia.
  rewrite (lor_shiftl_add _ b2 16) by lia.
  rewrite (lor_shiftl_add _ b3 24) by lia.
  apply u32_small. unfold is_u32. lia.
Qed.

Lemma decode_at_le32 d off : decode_at d off = le32_at d off.
Proof. apply ed_size_of_le32; apply ed_byte_range. Qed.

Lemma decode_at_range d off : is_u32 (decode_at d off).
Proof. apply u32_range. Qed.

Lemma run_prog_bind {St A B} (k : A -> Prog St B) (p : Prog St A) w :
  run (prog_bind k p) w =
  match run p w with
  | Some (a, w') => run (k a) w'
  | None => None
  end.
Proof. apply run_bind. Qed.

(** ** Reading the size: the media driver *)

Section MediaSize.
Implicit Types w : World Media.npcm750_ece.

(** [npcm750_ece_clear_drs]: one read of the status register and one
    write of the value read with [CDREADY] set. *)
Lemma media_clear_drs_run w :
  run Media.npcm750_ece_clear_drs w =
  Some (tt, mk_world
    (hw_writel (Z.lor (Z.land (reg (dev w) DDA_STS) (not32 CDREADY)) CDREADY)
               DDA_STS (engine_tick (dev w)))
    (ece w)
    (log w ++ [EvRead DDA_STS (reg (dev w) DDA_STS);
               EvWrite DDA_STS
                 (Z.lor (Z.land (reg (dev w) DDA_STS) (not32 CDREADY))
                        CDREADY)])).
Proof.
  unfold Media.npcm750_ece_clear_drs, Media.npcm750_ece_update_bits.
  run_step. log_simpl. reflexivity.
Qed.

(** The decode and the clear that follow the wait. *)
Lemma media_get_ed_size_run fuel offset w w1 :
  run (Media.wait_rect_compressed fuel) w = Some (tt, w1) ->
  run (Media.npcm750_ece_get_ed_size fuel offset) w =
  Some (decode_at (dev w1) offset,
        mk_world
          (hw_writel
             (Z.lor (Z.land (reg (dev w1) DDA_STS) (not32 CDREADY)) CDREADY)
             DDA_STS (engine_tick (loaded4 (dev w1))))
          (ece w1)
          (log w1 ++ decode_events (dev w1) offset
                  ++ [EvRead DDA_STS (reg (dev w1) DDA_STS);
                      EvWrite DDA_STS
                        (Z.lor (Z.land (reg (dev w1) DDA_STS) (not32 CDREADY))
                               CDREADY)])).
Proof.
  intros Hw. unfold Media.npcm750_ece_get_ed_size.
  rewrite run_seq, Hw. run_step.
  rewrite run_bind, media_clear_drs_run. run_step. log_simpl.
  reflexivity.
Qed.

Lemma media_get_ed_size_blocked fuel offset w :
  run (Media.wait_rect_compressed fuel) w = None ->
  run (Media.npcm750_ece_get_ed_size fuel offset) w = None.
Proof.
  intros Hw. unfold Media.npcm750_ece_get_ed_size.
  rewrite run_seq, Hw. reflexivity.
Qed.

End MediaSize.

(** ** Reading the size: the video driver *)

Lemma round_dev_S d j : round_dev d (S j) = round_dev (loaded4 d) j.
Proof. unfold round_dev. apply Nat.iter_succ_r. Qed.

Lemma round_size_S d j : round_size d (S j) = round_size (loaded4 d) j.
Proof. unfold round_size. rewrite round_dev_S. reflexivity. Qed.

Lemma regs_round_dev d j : regs (round_dev d j) = regs d.
Proof. induction j as [|j IH]; [reflexivity | exact IH]. Qed.

Lemma busy_round_dev d j : busy (round_dev d j) = busy d.
Proof. induction j as [|j IH]; [reflexivity | exact IH]. Qed.

Lemma loads_round_dev d j : loads (round_dev d j) = (4 * j + loads d)%nat.
Proof.
  induction j as [|j IH]; [reflexivity|].
  change (loads (round_dev d (S j))) with (S (S (S (S (loads (round_dev d j)))))).
  rewrite IH. lia.
Qed.

Lemma length_rounds d k : length (rounds d k) = (4 * k)%nat.
Proof.
  revert d. induction k as [|k IH]; intros d; [reflexivity|].
  cbn [rounds]. rewrite length_app, IH. cbn [decode_events length]. lia.
Qed.

Section VideoSize.
Implicit Types w : World Video.npcm750_ece.

(** One round of the loop. *)
Lemma video_read_ed_size_round fuel count w :
  run (Video.read_ed_size (S fuel) count) w =
  let w1 := mk_world (loaded4 (dev w)) (ece w)
                     (log w ++ decode_events (dev w) 0) in
  if (decode_at (dev w) 0 =? 0) && (count + 1 <? 30)
  then run (Video.read_ed_size fuel (count + 1)) w1
  else Some (decode_at (dev w) 0, w1).
Proof.
  cbn [Video.read_ed_size]. run_step. log_simpl.
  change (ed_size_of _ _ _ _) with (decode_at (dev w) 0).
  destruct ((decode_at (dev w) 0 =? 0) && (count + 1 <? 30)); reflexivity.
Qed.

(** The loop entered with [count] makes between 1 and [30 - count]
    rounds: it stops at the first round that decodes a non-zero size, and
    otherwise when [count] reaches 30. *)
Lemma video_read_ed_size_run m fuel count w :
  count = 30 - Z.of_nat (S m) -> (S m <= fuel)%nat ->
  exists k, (1 <= k <= S m)%nat /\
    run (Video.read_ed_size fuel count) w =
      Some (round_size (dev w) (k - 1),
            mk_world (round_dev (dev w) k) (ece w)
                     (log w ++ rounds (dev w) k)) /\
    (forall j, (j < k - 1)%nat -> round_size (dev w) j = 0) /\
    (round_size (dev w) (k - 1) <> 0 \/ k = S m).
Proof.
  revert fuel count w. induction m as [|m IH]; intros fuel count w Hc Hf;
    (destruct fuel as [|fuel]; [lia|]);
    rewrite video_read_ed_size_round; cbn zeta.
  - exists 1%nat.
    replace (count + 1 <? 30) with false by (symmetry; apply Z.ltb_ge; lia).
    rewrite andb_false_r. cbn [rounds]. rewrite app_nil_r.
    repeat split; lia.
  - replace (count + 1 <? 30) with true by (symmetry; apply Z.ltb_lt; lia).
    rewrite andb_true_r.
    destruct (Z.eqb_spec (decode_at (dev w) 0) 0) as [Hz|Hnz].
    + destruct (IH fuel (count + 1)
                  (mk_world (loaded4 (dev w)) (ece w)
                            (log w ++ decode_events (dev w) 0)))
        as (k & Hk & Hrun & Hzero & Hlast); [lia..|].
      exists (S k). cbn [dev ece log] in *.
      replace (S k - 1)%nat with (S (k - 1)) by lia.
      rewrite round_size_S, round_dev_S. cbn [rounds]. rewrite app_assoc.
      repeat split; try lia; try exact Hrun.
      intros [|j] Hj; [exact Hz|]. rewrite round_size_S. apply Hzero. lia.
    + exists 1%nat. cbn [rounds]. rewrite app_nil_r.
      repeat split; try lia. left. exact Hnz.
Qed.

Lemma video_clear_drs_run w :
  run Video.ece_clear_drs w =
  Some (tt, mk_world
    (engine_tick
       (hw_writel (Z.lor (reg (dev w) DDA_STS) CDREADY) DDA_STS
                  (engine_tick (dev w))))
    (ece w)
    (log w ++ [EvRead DDA_STS (reg (dev w) DDA_STS);
               EvWrite DDA_STS (Z.lor (reg (dev w) DDA_STS) CDREADY);
               EvRead DDA_STS
                 (reg (hw_writel (Z.lor (reg (dev w) DDA_STS) CDREADY) DDA_STS
                                 (engine_tick (dev w))) DDA_STS)])).
Proof.
  unfold Video.ece_clear_drs. run_step. log_simpl. reflexivity.
Qed.

End VideoSize.

(** ** Wait, read the size, clear *)

Lemma reg_round_dev d j addr : reg (round_dev d j) addr = reg d addr.
Proof. unfold reg. rewrite regs_round_dev. reflexivity. Qed.

Lemma engine_tick_round_dev_idle d j :
  busy d = O -> engine_tick (round_dev d j) = round_dev d j.
Proof. intros H. apply engine_tick_idle. rewrite busy_round_dev. exact H. Qed.

Lemma cdready_cleared s v :
  Z.land v CDREADY = CDREADY ->
  Z.land (Z.land s (not32 (Z.land v CDREADY))) CDREADY = 0.
Proof. intros ->. apply land_not32_same. Qed.

Lemma media_get_ed_size_busy n fuel offset (w : World Media.npcm750_ece) :
  busy (dev w) = S n -> Z.land (reg (dev w) DDA_STS) CDREADY = 0 ->
  (S n < fuel)%nat ->
  exists w',
    run (Media.npcm750_ece_get_ed_size fuel offset) w
      = Some (decode_at (dev_ready (dev w)) offset, w') /\
    log w' = log w ++ polls (S n) (reg (dev w) DDA_STS)
                   ++ [EvRead DDA_STS (Z.lor (reg (dev w) DDA_STS) CDREADY)]
                   ++ decode_events (dev_ready (dev w)) offset
                   ++ clear_events_media (Z.lor (reg (dev w) DDA_STS) CDREADY) /\
    Z.land (reg (dev w') DDA_STS) CDREADY = 0 /\
    loads (dev w') = (4 + loads (dev w))%nat /\
    ece w' = ece w.
Proof.
  intros Hb Hs Hf.
  rewrite (media_get_ed_size_run _ _ _ _ (media_wait_busy _ _ _ Hb Hs Hf)).
  eexists. split; [reflexivity|]. cbn [dev ece log].
  rewrite reg_dev_ready_sts, engine_tick_idle by reflexivity.
  repeat split.
  - log_simpl. reflexivity.
  - rewrite reg_hw_writel_sts. apply cdready_cleared, land_lor_same.
Qed.

Lemma video_get_ed_size_busy n fuel (w : World Video.npcm750_ece) :
  busy (dev w) = S n -> Z.land (reg (dev w) DDA_STS) CDREADY = 0 ->
  (S n < fuel)%nat -> (30 <= fuel)%nat ->
  exists k w', (1 <= k <= 30)%nat /\
    run (Video.ece_get_ed_size fuel) w
      = Some (round_size (dev_ready (dev w)) (k - 1), w') /\
    (forall j, (j < k - 1)%nat -> round_size (dev_ready (dev w)) j = 0) /\
    (round_size (dev_ready (dev w)) (k - 1) <> 0 \/ k = 30%nat) /\
    log w' = log w ++ polls (S n) (reg (dev w) DDA_STS)
                   ++ [EvRead DDA_STS (Z.lor (reg (dev w) DDA_STS) CDREADY)]
                   ++ rounds (dev_ready (dev w)) k
                   ++ clear_events_video (Z.lor (reg (dev w) DDA_STS) CDREADY) /\
    Z.land (reg (dev w') DDA_STS) CDREADY = 0 /\
    loads (dev w') = (4 * k + loads (dev w))%nat /\
    ece w' = ece w.
Proof.
  intros Hb Hs Hf H30. unfold Video.ece_get_ed_size.
  rewrite run_seq, (video_wait_busy _ _ _ Hb Hs Hf).
  destruct (video_read_ed_size_run 29 fuel 0
              (mk_world (dev_ready (dev w)) (ece w)
                 (log w ++ polls (S n) (reg (dev w) DDA_STS)
                    ++ [EvRead DDA_STS (Z.lor (reg (dev w) DDA_STS) CDREADY)])))
    as (k & Hk & Hrun & Hzero & Hlast); [reflexivity | lia |].
  cbn [dev ece log] in Hrun, Hzero, Hlast.
  rewrite run_bind, Hrun, run_seq, video_clear_drs_run. run_step.
  exists k. eexists. split; [exact Hk|]. split; [reflexivity|].
  cbn [dev ece log].
  rewrite !reg_hw_writel_sts, !reg_round_dev, !reg_dev_ready_sts.
  rewrite !engine_tick_round_dev_idle by reflexivity.
  rewrite (engine_tick_idle (hw_writel _ _ _))
    by (rewrite busy_hw_writel, busy_round_dev by reg_neq; reflexivity).
  rewrite reg_hw_writel_sts, reg_round_dev, reg_dev_ready_sts.
  repeat split; try assumption.
  - log_simpl. rewrite cdready_raised. reflexivity.
  - rewrite cdready_raised. apply land_not32_same.
  - rewrite loads_hw_writel, loads_round_dev. reflexivity.
Qed.

(** ** C4 and C5: the completion poll *)

Example media_get_ed_size_sample :
  exists w',
    run (Media.npcm750_ece_get_ed_size 4 8) Media.world0
      = Some (0x01020304, w') /\
    log w' = [EvRead DDA_STS 0; EvRead DDA_STS 0; EvRead DDA_STS 0x100;
              EvLoad 8 4; EvLoad 9 3; EvLoad 10 2; EvLoad 11 1;
              EvRead DDA_STS 0x100; EvWrite DDA_STS 0x100] /\
    reg (dev w') DDA_STS = 0.
Proof. eexists. split; [|split]; vm_compute; reflexivity. Qed.

Example video_get_ed_size_sample :
  exists w',
    run (Video.ece_get_ed_size 30) Video.world0 = Some (0x01020304, w') /\
    log w' = [EvRead DDA_STS 0; EvRead DDA_STS 0; EvRead DDA_STS 0x100;
              EvLoad 0 0; EvLoad 1 0; EvLoad 2 0; EvLoad 3 0;
              EvLoad 0 0; EvLoad 1 0; EvLoad 2 0; EvLoad 3 0;
              EvLoad 0 4; EvLoad 1 3; EvLoad 2 2; EvLoad 3 1;
              EvRead DDA_STS 0x100; EvWrite DDA_STS 0x100; EvRead DDA_STS 0].
Proof. eexists. split; vm_compute; reflexivity. Qed.

(** C4, as stated, fails for the media driver, the one that reads the
    size at the offset captured before the encode: its last access to the
    device is the write that clears the bit, and no read of the status
    register follows. *)
Lemma media_clear_is_not_reread :
  exists size w',
    run (Media.npcm750_ece_get_ed_size 4 8) Media.world0 = Some (size, w') /\
    ~ wait_read_clear 8 size (log w').
Proof.
  eexists _, _. split; [vm_compute; reflexivity|].
  intros (n & s & r & b0 & b1 & b2 & b3 & pre & v & v' & _ & _ & _ & _ & E).
  apply (f_equal last) in E.
  change [EvWrite DDA_STS v; EvRead DDA_STS v']
    with ([EvWrite DDA_STS v] ++ [EvRead DDA_STS v']) in E.
  rewrite !app_assoc, last_snoc in E.
  vm_compute in E. discriminate E.
Qed.

(** C4, amended.  The wait-and-read-size operation polls the status
    register until it finds bit 8 set (with the engine [n + 1] polls from
    completion: [n + 1] polls that find it clear and one that finds it
    set; with the engine idle and the bit clear it never returns), then
    loads four bytes of the output buffer and returns their
    little-endian value, and only after that clears the ready bit by
    writing the status value back with bit 8 set, which leaves the bit
    clear.  The media driver loads the bytes once, at the offset it is
    given, and ends with the write; the video driver loads the bytes at
    offset 0, up to 30 times, and reads the status register once more
    after the write. *)
Theorem wait_and_read_size_course (n fuel : nat) (offset : Z)
    (wm : World Media.npcm750_ece) (wv : World Video.npcm750_ece) :
  (busy (dev wm) = S n -> Z.land (reg (dev wm) DDA_STS) CDREADY = 0 ->
   (S n < fuel)%nat ->
   exists w',
     run (Media.npcm750_ece_get_ed_size fuel offset) wm
       = Some (le32_at (dev_ready (dev wm)) offset, w') /\
     log w' = log wm ++ polls (S n) (reg (dev wm) DDA_STS)
                ++ [EvRead DDA_STS (Z.lor (reg (dev wm) DDA_STS) CDREADY)]
                ++ decode_events (dev_ready (dev wm)) offset
                ++ clear_events_media (Z.lor (reg (dev wm) DDA_STS) CDREADY) /\
     Z.land (reg (dev w') DDA_STS) CDREADY = 0) /\
  (busy (dev wv) = S n -> Z.land (reg (dev wv) DDA_STS) CDREADY = 0 ->
   (S n < fuel)%nat -> (30 <= fuel)%nat ->
   exists k w', (1 <= k <= 30)%nat /\
     run (Video.ece_get_ed_size fuel) wv
       = Some (le32_at (round_dev (dev_ready (dev wv)) (k - 1)) 0, w') /\
     log w' = log wv ++ polls (S n) (reg (dev wv) DDA_STS)
                ++ [EvRead DDA_STS (Z.lor (reg (dev wv) DDA_STS) CDREADY)]
                ++ rounds (dev_ready (dev wv)) k
                ++ clear_events_video (Z.lor (reg (dev wv) DDA_STS) CDREADY) /\
     Z.land (reg (dev w') DDA_STS) CDREADY = 0) /\
  (busy (dev wm) = O -> Z.land (reg (dev wm) DDA_STS) CDREADY = 0 ->
   run (Media.npcm750_ece_get_ed_size fuel offset) wm = None) /\
  (busy (dev wv) = O -> Z.land (reg (dev wv) DDA_STS) CDREADY = 0 ->
   run (Video.ece_get_ed_size fuel) wv = None).
Proof.
  repeat split.
  - intros Hb Hs Hf.
    destruct (media_get_ed_size_busy n fuel offset wm Hb Hs Hf)
      as (w' & Hrun & Hlog & Hclr & _).
    exists w'. rewrite <- decode_at_le32. auto.
  - intros Hb Hs Hf H30.
    destruct (video_get_ed_size_busy n fuel wv Hb Hs Hf H30)
      as (k & w' & Hk & Hrun & _ & _ & Hlog & Hclr & _).
    exists k, w'. rewrite <- decode_at_le32. auto.
  - intros Hb Hs. apply media_get_ed_size_blocked, media_wait_forever; auto.
  - intros Hb Hs. unfold Video.ece_get_ed_size.
    rewrite run_seq, video_wait_forever by assumption. reflexivity.
Qed.

Lemma wait_and_read_size_course_witness :
  (exists w',
     run (Media.npcm750_ece_get_ed_size 4 8) Media.world0
       = Some (le32_at (dev_ready (dev Media.world0)) 8, w') /\
     log w' = log Media.world0
                ++ polls 2 (reg (dev Media.world0) DDA_STS)
                ++ [EvRead DDA_STS
                      (Z.lor (reg (dev Media.world0) DDA_STS) CDREADY)]
                ++ decode_events (dev_ready (dev Media.world0)) 8
                ++ clear_events_media
                     (Z.lor (reg (dev Media.world0) DDA_STS) CDREADY) /\
     Z.land (reg (dev w') DDA_STS) CDREADY = 0) /\
  (exists k w', (1 <= k <= 30)%nat /\
     run (Video.ece_get_ed_size 30) Video.world0
       = Some (le32_at (round_dev (dev_ready (dev Video.world0)) (k - 1)) 0,
               w') /\
     log w' = log Video.world0
                ++ polls 2 (reg (dev Video.world0) DDA_STS)
                ++ [EvRead DDA_STS
                      (Z.lor (reg (dev Video.world0) DDA_STS) CDREADY)]
                ++ rounds (dev_ready (dev Video.world0)) k
                ++ clear_events_video
                     (Z.lor (reg (dev Video.world0) DDA_STS) CDREADY) /\
     Z.land (reg (dev w') DDA_STS) CDREADY = 0) /\
  run (Media.npcm750_ece_get_ed_size 4 8) Media.world_idle = None /\
  run (Video.ece_get_ed_size 30) Video.world_idle = None.
Proof.
  repeat apply conj.
  - apply (wait_and_read_size_course 1 4 8 Media.world0 Video.world0);
      [reflexivity | reflexivity | lia].
  - apply (wait_and_read_size_course 1 30 8 Media.world0 Video.world0);
      [reflexivity | reflexivity | lia | lia].
  - apply (wait_and_read_size_course 1 4 8 Media.world_idle Video.world_idle);
      reflexivity.
  - apply (wait_and_read_size_course 1 30 8 Media.world_idle Video.world_idle);
      reflexivity.
Defined.

(** C5.  In the video driver, once a poll has found the ready bit set,
    the size word is decoded in rounds of four loads: the first round
    that decodes a non-zero size ends the loop and gives the result, and
    after 30 rounds of zeroes the result is 0.  There are at least 1 and
    at most 30 rounds (at most 120 loads), whatever the buffer holds, and
    no further poll of the status register comes between them. *)
Theorem bounded_retry_on_zero_size (n fuel : nat)
    (wv : World Video.npcm750_ece) :
  busy (dev wv) = S n -> Z.land (reg (dev wv) DDA_STS) CDREADY = 0 ->
  (S n < fuel)%nat -> (30 <= fuel)%nat ->
  exists k size w',
    run (Video.ece_get_ed_size fuel) wv = Some (size, w') /\
    (1 <= k <= 30)%nat /\
    size = round_size (dev_ready (dev wv)) (k - 1) /\
    (forall j, (j < k - 1)%nat -> round_size (dev_ready (dev wv)) j = 0) /\
    (size <> 0 \/ k = 30%nat) /\
    log w' = log wv ++ polls (S n) (reg (dev wv) DDA_STS)
               ++ [EvRead DDA_STS (Z.lor (reg (dev wv) DDA_STS) CDREADY)]
               ++ rounds (dev_ready (dev wv)) k
               ++ clear_events_video (Z.lor (reg (dev wv) DDA_STS) CDREADY) /\
    length (rounds (dev_ready (dev wv)) k) = (4 * k)%nat /\
    loads (dev w') = (4 * k + loads (dev wv))%nat.
Proof.
  intros Hb Hs Hf H30.
  destruct (video_get_ed_size_busy n fuel wv Hb Hs Hf H30)
    as (k & w' & Hk & Hrun & Hzero & Hlast & Hlog & _ & Hloads & _).
  exists k, (round_size (dev_ready (dev wv)) (k - 1)), w'.
  rewrite length_rounds. auto 10.
Qed.

Lemma bounded_retry_on_zero_size_witness :
  exists k size w',
    run (Video.ece_get_ed_size 30) Video.world0 = Some (size, w') /\
    (1 <= k <= 30)%nat /\
    size = round_size (dev_ready (dev Video.world0)) (k - 1) /\
    (forall j, (j < k - 1)%nat ->
               round_size (dev_ready (dev Video.world0)) j = 0) /\
    (size <> 0 \/ k = 30%nat) /\
    log w' = log Video.world0
               ++ polls 2 (reg (dev Video.world0) DDA_STS)
               ++ [EvRead DDA_STS
                     (Z.lor (reg (dev Video.world0) DDA_STS) CDREADY)]
               ++ rounds (dev_ready (dev Video.world0)) k
               ++ clear_events_video
                    (Z.lor (reg (dev Video.world0) DDA_STS) CDREADY) /\
    length (rounds (dev_ready (dev Video.world0)) k) = (4 * k)%nat /\
    loads (dev w') = (4 * k + loads (dev Video.world0))%nat.
Proof.
  apply (bounded_retry_on_zero_size 1 30 Video.world0);
    [reflexivity | reflexivity | lia | lia].
Defined.

(** A buffer that never shows a size: 30 rounds, 120 loads, result 0. *)
Example video_get_ed_size_gives_up :
  exists w',
    run (Video.ece_get_ed_size 40)
        (mk_world (sample_dev 1000) (ece Video.world0) [])
      = Some (0, w') /\
    loads (dev w') = 120%nat.
Proof. eexists. split; vm_compute; reflexivity. Qed.

(** ** The gap length *)

Lemma gap_field_bits v :
  Z.shiftr (Z.land v ENC_GAP) ENC_GAP_OFFSET = gap_bits v.
Proof.
  unfold gap_bits, ENC_GAP, ENC_GAP_OFFSET.
  rewrite Z.shiftr_land.
  change (Z.shiftr 0x1f00 8) with (Z.ones 5).
  rewrite Z.land_ones, Z.shiftr_div_pow2 by lia. reflexivity.
Qed.

(** C7.  In both drivers, every encode request that returns a command
    block reports as gap length 4 when bits 8 to 12 of the hex-control
    register, read from the device as the last access of the request,
    are 0, and the value of those bits otherwise. *)
Theorem gap_length_default (fuel : nat) (args : uarg)
    (wm : World Media.npcm750_ece) (wv : World Video.npcm750_ece) :
  gap_reported Media.npcm750_ece_ioctl Media.enc_gap fuel args wm /\
  gap_reported Video.drv_ioctl Video.enc_gap fuel args wv.
Proof.
  split; intros err data' w'.
  - unfold Media.npcm750_ece_ioctl.
    destruct (u_in args) as [data|]; [|discriminate].
    unfold Media.npcm750_ece_read_rect_offset, Media.npcm750_ece_read,
      Media.npcm750_ece_enc_rect, Media.npcm750_ece_fifo_reset_bypass,
      Media.npcm750_ece_update_bits, Media.npcm750_ece_write,
      Media.unlock_return.
    run_step. rewrite run_bind.
    match goal with |- context [run (Media.npcm750_ece_get_ed_size ?f ?o) ?w] =>
      destruct (run (Media.npcm750_ece_get_ed_size f o) w) as [[sz w4]|];
        [|discriminate]
    end.
    run_step. cbn [Media.enc_gap Media.set_enc_gap].
    change Media.HEX_CTRL_ENC_GAP with ENC_GAP.
    change Media.HEX_CTRL_ENC_GAP_OFFSET with ENC_GAP_OFFSET.
    rewrite gap_field_bits.
    destruct (gap_bits (reg (dev w4) HEX_CTRL) =? 0) eqn:Hg;
      destruct (u_out_ok args); run_step; intros H; inversion H; subst;
      cbn [dev ece log Media.enc_gap Media.set_enc_gap
           Uapi.gap_len Uapi.set_gap_len_len].
    all: exists (log w4), (reg (dev w4) HEX_CTRL).
    all: unfold gap_length_of; rewrite Hg.
    all: log_simpl; repeat split.
  - unfold Video.drv_ioctl.
    destruct (u_in args) as [data|]; [|discriminate].
    unfold Video.ece_enc_rect, Video.fifo_reset_bypass,
      Video.ece_clear_rect_offset, Video.unlock_return.
    run_step. rewrite run_bind.
    match goal with |- context [run (Video.ece_get_ed_size ?f) ?w] =>
      destruct (run (Video.ece_get_ed_size f) w) as [[sz w4]|];
        [|discriminate]
    end.
    run_step. cbn [Video.enc_gap Video.set_enc_gap].
    rewrite gap_field_bits.
    match goal with |- context [gap_bits ?v =? 0] =>
      destruct (gap_bits v =? 0) eqn:Hg;
        destruct (u_out_ok args); run_step; intros H; inversion H; subst;
        cbn [dev ece log Video.enc_gap Video.set_enc_gap
             Uapi.gap_len Uapi.set_gap_len_len];
        exists (log w4 ++ [EvWrite HEX_RECT_OFFSET 0]), v
    end.
    all: unfold gap_length_of; rewrite Hg.
    all: log_simpl; repeat split.
Qed.

(** With an engine of latency [n + 1] and fuel for as many polls and one
    more, an encode request returns a command block. *)
Lemma media_ioctl_geted_returns n fuel data
    (w : World Media.npcm750_ece) :
  latency (dev w) = S n -> Z.land (reg (dev w) DDA_STS) CDREADY = 0 ->
  (S n < fuel)%nat ->
  exists data' w',
    run (Media.npcm750_ece_ioctl fuel ECE_IOCGETED (mk_uarg (Some data) true))
        w = Some ((0, ReplyCmd data'), w').
Proof.
  intros Hb Hs Hf. unfold Media.npcm750_ece_ioctl. cbn [u_in u_out_ok].
  unfold Media.npcm750_ece_read_rect_offset, Media.npcm750_ece_read,
    Media.npcm750_ece_enc_rect, Media.npcm750_ece_fifo_reset_bypass,
    Media.npcm750_ece_update_bits, Media.npcm750_ece_write,
    Media.unlock_return.
  run_step. rewrite run_bind. rewrite !hw_polled_other by reg_neq.
  match goal with |- context [run (Media.npcm750_ece_get_ed_size ?f ?o) ?w] =>
    destruct (media_get_ed_size_busy n f o w) as (w4 & Hrun & _)
  end.
  - exact Hb.
  - cbn [dev]. rewrite !reg_hw_writel_ne by reg_neq. exact Hs.
  - exact Hf.
  - rewrite Hrun. run_step. cbn [Media.enc_gap Media.set_enc_gap].
    match goal with |- context [if ?c then _ else _] => destruct c end;
      run_step; eexists _, _; reflexivity.
Qed.

Lemma video_ioctl_geted_returns n fuel data
    (w : World Video.npcm750_ece) :
  latency (dev w) = S n -> Z.land (reg (dev w) DDA_STS) CDREADY = 0 ->
  (S n < fuel)%nat -> (30 <= fuel)%nat ->
  exists data' w',
    run (Video.drv_ioctl fuel ECE_IOCGETED (mk_uarg (Some data) true))
        w = Some ((0, ReplyCmd data'), w').
Proof.
  intros Hb Hs Hf H30. unfold Video.drv_ioctl. cbn [u_in u_out_ok].
  unfold Video.ece_enc_rect, Video.fifo_reset_bypass,
    Video.ece_clear_rect_offset, Video.unlock_return.
  run_step. rewrite run_bind. rewrite !hw_polled_other by reg_neq.
  match goal with |- context [run (Video.ece_get_ed_size ?f) ?w] =>
    destruct (video_get_ed_size_busy n f w) as (k & w4 & _ & Hrun & _)
  end.
  - exact Hb.
  - cbn [dev]. rewrite !reg_hw_writel_ne by reg_neq. exact Hs.
  - exact Hf.
  - exact H30.
  - rewrite Hrun. run_step. cbn [Video.enc_gap Video.set_enc_gap].
    match goal with |- context [if ?c then _ else _] => destruct c end;
      run_step; eexists _, _; reflexivity.
Qed.

(** The second example of the specification: the rectangle (10, 0, 20,
    20) is programmed as offset 20 and two tiles each way with a
    remainder of 4; the engine has raised no gap length, so 4 is
    reported. *)
Example media_ioctl_geted_sample :
  exists w',
    run (Media.npcm750_ece_ioctl 4 ECE_IOCGETED
           (mk_uarg (Some (cmd_rect 10 0 20 20)) true)) Media.world0
      = Some ((0, ReplyCmd (Uapi.mk_cmd 0 4 0 0x01020304 10 0 20 20 0)), w') /\
    reg (dev w') RECT_XY = 20 /\
    reg (dev w') RECT_DIMEN
      = Z.lor (Z.lor (Z.lor (Z.shiftl 3 11) (Z.shiftl 3 27)) 1) (Z.shiftl 1 16) /\
    Media.enc_gap (ece w') = 4.
Proof. eexists. split; [|split; [|split]]; vm_compute; reflexivity. Qed.

Example video_ioctl_geted_sample :
  exists w',
    run (Video.drv_ioctl 30 ECE_IOCGETED
           (mk_uarg (Some (cmd_rect 0 0 640 640)) true)) world_gap7
      = Some ((0, ReplyCmd (Uapi.mk_cmd 0 7 0 0x01020304 0 0 640 640 0)), w') /\
    reg (dev w') RECT_XY = 0 /\
    reg (dev w') RECT_DIMEN
      = Z.lor (Z.lor (Z.lor (Z.shiftl 15 11) (Z.shiftl 15 27)) 39)
              (Z.shiftl 39 16) /\
    Video.enc_gap (ece w') = 7.
Proof. eexists. split; [|split; [|split]]; vm_compute; reflexivity. Qed.

Lemma gap_length_default_witness :
  (exists err data' w',
     run (Media.npcm750_ece_ioctl 4 ECE_IOCGETED
            (mk_uarg (Some (cmd_rect 10 0 20 20)) true)) Media.world0
       = Some ((err, ReplyCmd data'), w') /\
     exists pre v,
       log w' = pre ++ [EvRead HEX_CTRL v; EvUnlock] /\
       Uapi.gap_len data' = gap_length_of v /\
       Media.enc_gap (ece w') = gap_length_of v /\
       err = 0) /\
  (exists err data' w',
     run (Video.drv_ioctl 30 ECE_IOCGETED
            (mk_uarg (Some (cmd_rect 0 0 640 640)) true)) world_gap7
       = Some ((err, ReplyCmd data'), w') /\
     exists pre v,
       log w' = pre ++ [EvRead HEX_CTRL v; EvUnlock] /\
       Uapi.gap_len data' = gap_length_of v /\
       Video.enc_gap (ece w') = gap_length_of v /\
       err = 0).
Proof.
  split.
  - eexists _, _, _. split; [vm_compute; reflexivity|].
    eapply (proj1 (gap_length_default 4
                     (mk_uarg (Some (cmd_rect 10 0 20 20)) true)
                     Media.world0 world_gap7)).
    vm_compute. reflexivity.
  - eexists _, _, _. split; [vm_compute; reflexivity|].
    eapply (proj2 (gap_length_default 30
                     (mk_uarg (Some (cmd_rect 0 0 640 640)) true)
                     Media.world0 world_gap7)).
    vm_compute. reflexivity.
Defined.

(** ** The mutex covers every access *)

Lemma plain_bind {St B C} (p : Prog St B) (k : B -> Prog St C) :
  Plain p -> (forall b, Plain (k b)) -> Plain (p ≫= k).
Proof.
  intros Hp Hk. induction Hp; cbn; try constructor; auto.
Qed.

Lemma inside_bind {St A B} (p : Prog St B) (k : B -> Prog St A) :
  Plain p -> (forall b, Inside (k b)) -> Inside (p ≫= k).
Proof.
  intros Hp Hk. induction Hp; cbn; try constructor; auto.
Qed.

Lemma plain_readl {St} addr : Plain (readl addr : Prog St Z).
Proof. repeat constructor. Qed.
Lemma plain_writel {St} val addr : Plain (writel val addr : Prog St unit).
Proof. repeat constructor. Qed.
Lemma plain_load_ed {St} idx : Plain (load_ed idx : Prog St Z).
Proof. repeat constructor. Qed.
Lemma plain_get_ece {St} : Plain (get_ece : Prog St St).
Proof. repeat constructor. Qed.
Lemma plain_set_ece {St} s : Plain (set_ece s : Prog St unit).
Proof. repeat constructor. Qed.
Lemma plain_mret {St B} (b : B) : Plain (mret b : Prog St B).
Proof. constructor. Qed.

Create HintDb plain discriminated.
#[local] Hint Resolve plain_readl plain_writel plain_load_ed plain_get_ece
  plain_set_ece plain_mret : plain.

(** Programs put together from plain parts with bind and branches. *)
Ltac plain :=
  repeat first
    [ progress intros
    | apply plain_bind
    | match goal with
      | |- Plain (if ?c then _ else _) => destruct c
      | |- Plain (match ?o with Some _ => _ | None => _ end) => destruct o
      end
    | solve [auto with plain] ].

Lemma plain_media_update_bits offset mask bits :
  Plain (Media.npcm750_ece_update_bits offset mask bits).
Proof. unfold Media.npcm750_ece_update_bits. plain. Qed.
#[local] Hint Resolve plain_media_update_bits : plain.

Lemma plain_media_read r : Plain (Media.npcm750_ece_read r).
Proof. unfold Media.npcm750_ece_read. plain. Qed.
Lemma plain_media_write r val : Plain (Media.npcm750_ece_write r val).
Proof. unfold Media.npcm750_ece_write. plain. Qed.
#[local] Hint Resolve plain_media_read plain_media_write : plain.

Lemma plain_media_clear_drs : Plain Media.npcm750_ece_clear_drs.
Proof. unfold Media.npcm750_ece_clear_drs. plain. Qed.
Lemma plain_media_clear_rect_offset : Plain Media.npcm750_ece_clear_rect_offset.
Proof. unfold Media.npcm750_ece_clear_rect_offset. plain. Qed.
Lemma plain_media_read_rect_offset : Plain Media.npcm750_ece_read_rect_offset.
Proof. unfold Media.npcm750_ece_read_rect_offset. plain. Qed.
Lemma plain_media_is_rect_compressed : Plain Media.npcm750_ece_is_rect_compressed.
Proof. unfold Media.npcm750_ece_is_rect_compressed. plain. Qed.
#[local] Hint Resolve plain_media_clear_drs plain_media_clear_rect_offset
  plain_media_read_rect_offset plain_media_is_rect_compressed : plain.

Lemma plain_media_wait fuel : Plain (Media.wait_rect_compressed fuel).
Proof.
  induction fuel as [|fuel IH]; cbn [Media.wait_rect_compressed];
    [constructor | plain].
Qed.
#[local] Hint Resolve plain_media_wait : plain.

Lemma plain_media_get_ed_size fuel offset :
  Plain (Media.npcm750_ece_get_ed_size fuel offset).
Proof. unfold Media.npcm750_ece_get_ed_size. plain. Qed.
Lemma plain_media_fifo_reset_bypass : Plain Media.npcm750_ece_fifo_reset_bypass.
Proof. unfold Media.npcm750_ece_fifo_reset_bypass. plain. Qed.
#[local] Hint Resolve plain_media_get_ed_size plain_media_fifo_reset_bypass
  : plain.

Lemma plain_media_enc_rect x y w h : Plain (Media.npcm750_ece_enc_rect x y w h).
Proof. unfold Media.npcm750_ece_enc_rect. plain. Qed.
Lemma plain_media_set_fb_addr b : Plain (Media.npcm750_ece_set_fb_addr b).
Proof. unfold Media.npcm750_ece_set_fb_addr. plain. Qed.
Lemma plain_media_set_lp pitch : Plain (Media.npcm750_ece_set_lp pitch).
Proof. unfold Media.npcm750_ece_set_lp. plain. Qed.
#[local] Hint Resolve plain_media_enc_rect plain_media_set_fb_addr
  plain_media_set_lp : plain.

Ltac inside :=
  repeat first
    [ progress intros
    | apply inside_bind; [solve [plain] |]
    | match goal with
      | |- Inside (if ?c then _ else _) => destruct c
      | |- Inside (match ?o with Some _ => _ | None => _ end) => destruct o
      end
    | apply inside_unlock ].

(** Every path through [npcm750_ece_ioctl] takes the mutex first, makes
    all its accesses while holding it, and releases it right before it
    returns. *)
Lemma media_ioctl_outside fuel cmd args :
  Outside (Media.npcm750_ece_ioctl fuel cmd args).
Proof.
  unfold Media.npcm750_ece_ioctl. apply outside_before.
  destruct cmd; cbn beta iota; unfold Media.unlock_return; inside.
Qed.

Lemma plain_video_is_rect_compressed : Plain Video.ece_is_rect_compressed.
Proof. unfold Video.ece_is_rect_compressed. plain. Qed.
Lemma plain_video_clear_drs : Plain Video.ece_clear_drs.
Proof. unfold Video.ece_clear_drs. plain. Qed.
Lemma plain_video_clear_rect_offset : Plain Video.ece_clear_rect_offset.
Proof. unfold Video.ece_clear_rect_offset. plain. Qed.
#[local] Hint Resolve plain_video_is_rect_compressed plain_video_clear_drs
  plain_video_clear_rect_offset : plain.

Lemma plain_video_wait fuel : Plain (Video.wait_rect_compressed fuel).
Proof.
  induction fuel as [|fuel IH]; cbn [Video.wait_rect_compressed];
    [constructor | plain].
Qed.

Lemma plain_video_read_ed_size fuel count :
  Plain (Video.read_ed_size fuel count).
Proof.
  revert count. induction fuel as [|fuel IH]; intros count;
    cbn [Video.read_ed_size]; [constructor | plain].
Qed.
#[local] Hint Resolve plain_video_wait plain_video_read_ed_size : plain.

Lemma plain_video_get_ed_size fuel : Plain (Video.ece_get_ed_size fuel).
Proof. unfold Video.ece_get_ed_size. plain. Qed.
Lemma plain_video_fifo_reset_bypass : Plain Video.fifo_reset_bypass.
Proof. unfold Video.fifo_reset_bypass. plain. Qed.
#[local] Hint Resolve plain_video_get_ed_size plain_video_fifo_reset_bypass
  : plain.

Lemma plain_video_enc_rect x y w h : Plain (Video.ece_enc_rect x y w h).
Proof. unfold Video.ece_enc_rect. plain. Qed.
Lemma plain_video_set_enc_dba : Plain Video.ece_set_enc_dba.
Proof. unfold Video.ece_set_enc_dba. plain. Qed.
Lemma plain_video_set_fb_addr b : Plain (Video.ece_set_fb_addr b).
Proof. unfold Video.ece_set_fb_addr. plain. Qed.
Lemma plain_video_set_lp pitch : Plain (Video.ece_set_lp pitch).
Proof. unfold Video.ece_set_lp. plain. Qed.
#[local] Hint Resolve plain_video_enc_rect plain_video_set_enc_dba
  plain_video_set_fb_addr plain_video_set_lp : plain.

(** The same for [drv_ioctl], its early return included. *)
Lemma video_ioctl_outside fuel cmd args :
  Outside (Video.drv_ioctl fuel cmd args).
Proof.
  unfold Video.drv_ioctl. apply outside_before.
  destruct (u_in args); [destruct cmd|]; cbn beta iota;
    unfold Video.unlock_return; inside.
Qed.


(** ** Interleaved callers *)

Section Serial.
Context {St A : Type}.
Implicit Types (c : Config St A) (p : Prog St A) (l : list (nat * Event)).

Lemma holder_snoc o l ie :
  holder o (l ++ [ie]) =
  match holder o l with
  | Some o' => holder_step o' ie
  | None => None
  end.
Proof.
  revert o. induction l as [|x l IH]; intros o; cbn [holder app].
  - destruct (holder_step o ie); reflexivity.
  - destruct (holder_step o x); [apply IH | reflexivity].
Qed.

Lemma times_snoc i e l j e' :
  times i e (l ++ [(j, e')]) =
  (times i e l + if decide ((j, e') = (i, e)) then 1 else 0)%nat.
Proof.
  unfold times. rewrite filter_app, length_app. f_equal.
  rewrite filter_cons, filter_nil. case_decide; reflexivity.
Qed.

Lemma times_snoc_other i e l j e' :
  j <> i -> times i e (l ++ [(j, e')]) = times i e l.
Proof.
  intros H. rewrite times_snoc. case_decide; [congruence | lia].
Qed.

Lemma times_snoc_event i e l j e' :
  e' <> e -> times i e (l ++ [(j, e')]) = times i e l.
Proof.
  intros H. rewrite times_snoc. case_decide; [congruence | lia].
Qed.

Lemma times_snoc_same i e l :
  times i e (l ++ [(i, e)]) = S (times i e l).
Proof.
  rewrite times_snoc. case_decide; [lia | congruence].
Qed.

(** A caller that does not move and neither gains nor loses the mutex
    stays in its stage. *)
Lemma thread_ok_other o o' l l' j p :
  (o = Some j <-> o' = Some j) ->
  (forall e, times j e l' = times j e l) ->
  thread_ok o l j p -> thread_ok o' l' j p.
Proof.
  intros Ho Ht [(?&?&?&?)|[(k&?&?&?&?&?)|(a&?&?&?&?)]];
    [left | right; left; exists k | right; right; exists a];
    rewrite !Ht; intuition.
Qed.

Lemma inside_not_lock k : ~ Inside (MutexLock k : Prog St A).
Proof. intros H. inversion H. Qed.

Lemma inside_not_ret a : ~ Inside (Ret a : Prog St A).
Proof. intros H. inversion H. Qed.

(** A caller that holds the mutex and is not at a lock operation. *)
Lemma thread_ok_inside o l i p :
  thread_ok o l i p ->
  (forall k, p <> MutexLock k) -> (forall a, p <> Ret a) ->
  Inside p /\ o = Some i /\
  times i EvLock l = 1%nat /\ times i EvUnlock l = 0%nat.
Proof.
  intros [H|[(k & -> & _)|(a & -> & _)]] Hk Ha;
    [exact H | destruct (Hk k) | destruct (Ha a)]; reflexivity.
Qed.

(** A step keeps the discipline. *)
Lemma step_disciplined i c c' :
  disciplined c -> step i c = Some c' -> disciplined c'.
Proof.
  intros (Hh & Hth & Hnone). unfold step.
  destruct (threads c !! i) as [p|] eqn:Hp; [|discriminate].
  pose proof (Hth i p Hp) as Hok.
  pose proof (lookup_lt_Some _ _ _ Hp) as Hlt.
  assert (Hrest : forall o' l' q,
    (forall j, j <> i -> (owner c = Some j <-> o' = Some j)) ->
    (forall j e, j <> i -> times j e l' = times j e (clog c)) ->
    thread_ok o' l' i q ->
    (forall j p', <[i := q]> (threads c) !! j = Some p' ->
                  thread_ok o' l' j p') /\
    (forall j e, <[i := q]> (threads c) !! j = None -> times j e l' = 0%nat)).
  { intros o' l' q Ho Ht Hq. split.
    - intros j p' Hj. destruct (decide (j = i)) as [->|Hne].
      + rewrite list_lookup_insert_eq in Hj by exact Hlt.
        injection Hj as <-. exact Hq.
      + rewrite list_lookup_insert_ne in Hj by congruence.
        apply (thread_ok_other (owner c) _ (clog c)); auto.
    - intros j e Hj. apply lookup_ge_None in Hj.
      rewrite length_insert in Hj.
      rewrite Ht by lia. apply Hnone, lookup_ge_None. exact Hj. }
  destruct p as [a| |k|k|addr k|val addr k|idx k|k|s k]; try discriminate.
  - (* mutex_lock *)
    destruct Hok as [(Hin & _)|[(k' & Hk & Hin & Ho & Hl & Hu)|(a & Ha & _)]];
      [destruct (inside_not_lock _ Hin) | | discriminate Ha].
    injection Hk as <-.
    destruct (owner c) as [j|] eqn:Eo; [discriminate|].
    intros [= <-]. unfold disciplined. cbn [clog owner threads].
    split; [|apply Hrest].
    + rewrite holder_snoc, Hh. reflexivity.
    + intros j Hj. split; intros [= E]; congruence.
    + intros j e Hj. apply times_snoc_other. congruence.
    + left. rewrite times_snoc_same, times_snoc_event, Hl, Hu by discriminate.
      auto.
  - (* mutex_unlock *)
    destruct (thread_ok_inside _ _ _ _ Hok) as (Hin & Ho & Hl & Hu);
      [discriminate.. |].
    inversion Hin as [|a Ha| | | | |]; subst k.
    intros [= <-]. unfold disciplined. cbn [clog owner threads].
    split; [|apply Hrest].
    + rewrite holder_snoc, Hh, Ho. cbn. rewrite decide_True by reflexivity.
      reflexivity.
    + intros j Hj. rewrite Ho. split; intros [= E]; congruence.
    + intros j e Hj. apply times_snoc_other. congruence.
    + right. right. exists a.
      rewrite times_snoc_same, times_snoc_event, Hl, Hu by discriminate.
      auto.
  - (* readl *)
    destruct (thread_ok_inside _ _ _ _ Hok) as (Hin & Ho & Hl & Hu);
      [discriminate.. |].
    inversion Hin; subst.
    intros [= <-]. unfold disciplined. cbn [clog owner threads].
    split; [|apply Hrest].
    + rewrite holder_snoc, Hh, Ho. cbn. rewrite decide_True by reflexivity.
      reflexivity.
    + tauto.
    + intros j e Hj. apply times_snoc_other. congruence.
    + left. rewrite !times_snoc_event by discriminate. auto.
  - (* writel *)
    destruct (thread_ok_inside _ _ _ _ Hok) as (Hin & Ho & Hl & Hu);
      [discriminate.. |].
    inversion Hin; subst.
    intros [= <-]. unfold disciplined. cbn [clog owner threads].
    split; [|apply Hrest].
    + rewrite holder_snoc, Hh, Ho. cbn. rewrite decide_True by reflexivity.
      reflexivity.
    + tauto.
    + intros j e Hj. apply times_snoc_other. congruence.
    + left. rewrite !times_snoc_event by discriminate. auto.
  - (* a load from the output buffer *)
    destruct (thread_ok_inside _ _ _ _ Hok) as (Hin & Ho & Hl & Hu);
      [discriminate.. |].
    inversion Hin; subst.
    intros [= <-]. unfold disciplined. cbn [clog owner threads].
    split; [|apply Hrest].
    + rewrite holder_snoc, Hh, Ho. cbn. rewrite decide_True by reflexivity.
      reflexivity.
    + tauto.
    + intros j e Hj. apply times_snoc_other. congruence.
    + left. rewrite !times_snoc_event by discriminate. auto.
  - (* a read of the driver struct *)
    destruct (thread_ok_inside _ _ _ _ Hok) as (Hin & Ho & Hl & Hu);
      [discriminate.. |].
    inversion Hin; subst.
    intros [= <-]. unfold disciplined. cbn [clog owner threads].
    split; [exact Hh | apply Hrest]; [tauto | reflexivity |].
    left. auto.
  - (* a write of the driver struct *)
    destruct (thread_ok_inside _ _ _ _ Hok) as (Hin & Ho & Hl & Hu);
      [discriminate.. |].
    inversion Hin; subst.
    intros [= <-]. unfold disciplined. cbn [clog owner threads].
    split; [exact Hh | apply Hrest]; [tauto | reflexivity |].
    left. auto.
Qed.

Lemma interleave_disciplined sched c :
  disciplined c -> disciplined (interleave sched c).
Proof.
  revert c. induction sched as [|i sched IH]; intros c Hc; [exact Hc|].
  cbn [interleave]. apply IH.
  destruct (step i c) as [c'|] eqn:E; [|exact Hc].
  exact (step_disciplined i c c' Hc E).
Qed.

Lemma start_disciplined (ps : list (Prog St A)) d e :
  Forall Outside ps -> disciplined (start ps d e).
Proof.
  intros Hps. unfold disciplined, start. cbn [clog owner threads].
  repeat split.
  intros i p Hp.
  destruct (proj1 (Forall_lookup _ _) Hps i p Hp) as [k Hk|a].
  - right. left. exists k. repeat split; [exact Hk | discriminate].
  - right. right. exists a. repeat split; [discriminate | cbn; lia].
Qed.

(** In a history that keeps to the discipline a caller has taken the
    mutex once more than it has released it if it is the holder, and as
    often otherwise. *)
Lemma holder_times l o i :
  holder None l = Some o ->
  times i EvLock l
  = (times i EvUnlock l + if decide (o = Some i) then 1 else 0)%nat.
Proof.
  revert o. induction l as [|[j e] l IH] using rev_ind; intros o.
  - intros [= <-]. rewrite decide_False by discriminate. reflexivity.
  - rewrite holder_snoc.
    destruct (holder None l) as [o1|]; [|discriminate].
    specialize (IH o1 eq_refl). rewrite !times_snoc.
    unfold holder_step. cbn [fst snd].
    destruct e, o1 as [h|]; try discriminate;
      repeat case_decide; simplify_eq; intros; simplify_eq; lia.
Qed.

Lemma holder_in_flight l o i :
  holder None l = Some o -> in_flight l i <-> o = Some i.
Proof.
  intros H. unfold in_flight. rewrite (holder_times l o i H).
  case_decide; split; intros; try lia; congruence.
Qed.

(** Callers that each take the mutex before anything else, make all
    their accesses under it and return right after releasing it, are
    serialised under every schedule. *)
Lemma outside_serialised (ps : list (Prog St A)) d e sched :
  Forall Outside ps -> serialised ps d e sched.
Proof.
  intros Hps. unfold serialised. cbn zeta.
  pose proof (interleave_disciplined sched _ (start_disciplined ps d e Hps))
    as Hd.
  set (c := interleave sched (start ps d e)) in *.
  destruct Hd as (Hh & Hth & Hnone).
  split; [|split; [|split]].
  - unfold serial. rewrite Hh. eauto.
  - intros i j Hi Hj.
    apply (holder_in_flight _ _ _ Hh) in Hi, Hj. congruence.
  - intros i. destruct (threads c !! i) as [p|] eqn:Hp.
    + destruct (Hth i p Hp)
        as [(_&_&Hl&_)|[(k&_&_&_&Hl&_)|(a&_&_&_&Hl)]]; lia.
    + rewrite Hnone by exact Hp. lia.
  - intros i p Hp Hacc.
    destruct (thread_ok_inside _ _ _ _ (Hth i p Hp)) as (_ & Ho & _);
      [intros k ->; discriminate Hacc | intros a ->; discriminate Hacc |].
    split; [exact Ho|]. apply (holder_in_flight _ _ _ Hh). exact Ho.
Qed.

End Serial.


(** ** The stored line pitch stays legal *)

Lemma keeps_bind {St B C} (I : St -> Prop) (p : Prog St B)
    (k : B -> Prog St C) :
  Keeps I p -> (forall b, Keeps I (k b)) -> Keeps I (p ≫= k).
Proof.
  intros Hp Hk. induction Hp; cbn; try constructor; auto.
Qed.

Lemma keeps_run {St B} (I : St -> Prop) (p : Prog St B) w b w' :
  Keeps I p -> I (ece w) -> run p w = Some (b, w') -> I (ece w').
Proof.
  intros Hp. revert w.
  induction Hp as [b0| |k _ IH|k _ IH|addr k _ IH|val addr k _ IH
                   |idx k _ IH|k _ IH|s k Hs _ IH]; intros w Hw; cbn [run];
    try discriminate;
    try (apply IH; cbn [ece]; assumption).
  intros [= <- <-]. exact Hw.
Qed.

(** A step of any caller keeps the property of the struct. *)
Lemma keeps_step {St A} (I : St -> Prop) i (c c' : Config St A) :
  Forall (Keeps I) (threads c) -> I (cece c) -> step i c = Some c' ->
  Forall (Keeps I) (threads c') /\ I (cece c').
Proof.
  intros Hth Hc. unfold step.
  destruct (threads c !! i) as [p|] eqn:Hp; [|discriminate].
  pose proof (proj1 (Forall_lookup _ _) Hth i p Hp) as Hk.
  destruct Hk; try discriminate;
    try (destruct (owner c); [discriminate|]);
    intros [= <-]; cbn [threads cece];
    (split; [apply Forall_insert; auto | auto]).
Qed.

Lemma keeps_interleave {St A} (I : St -> Prop) sched (c : Config St A) :
  Forall (Keeps I) (threads c) -> I (cece c) ->
  I (cece (interleave sched c)).
Proof.
  revert c. induction sched as [|i sched IH]; intros c Hth Hc; [exact Hc|].
  cbn [interleave]. destruct (step i c) as [c'|] eqn:E; cbn [default].
  - destruct (keeps_step I i c c' Hth Hc E). apply IH; assumption.
  - apply IH; assumption.
Qed.

Create HintDb drv discriminated.
#[local] Hint Unfold
  Media.npcm750_ece_update_bits Media.npcm750_ece_read
  Media.npcm750_ece_write Media.npcm750_ece_clear_drs
  Media.npcm750_ece_clear_rect_offset Media.npcm750_ece_read_rect_offset
  Media.npcm750_ece_is_rect_compressed Media.npcm750_ece_get_ed_size
  Media.npcm750_ece_fifo_reset_bypass Media.npcm750_ece_enc_rect
  Media.npcm750_ece_set_enc_dba Media.npcm750_ece_set_fb_addr
  Media.npcm750_ece_set_lp Media.npcm750_ece_reset
  Media.npcm750_ece_initialise Media.npcm750_ece_open
  Media.unlock_return Media.npcm750_ece_ioctl
  Video.ece_is_rect_compressed Video.ece_clear_drs Video.ece_get_ed_size
  Video.ece_clear_rect_offset Video.fifo_reset_bypass Video.ece_enc_rect
  Video.ece_set_enc_dba Video.ece_set_fb_addr Video.ece_set_lp
  Video.ece_reset Video.ece_initialise Video.npcm750_ece_probe
  Video.unlock_return Video.drv_ioctl : drv.

Lemma legal_default_lp : legal_lp DEFAULT_LP.
Proof. right. right. left. reflexivity. Qed.

(** A program laid open down to its loops keeps the line pitch legal if
    its stores do. *)
Ltac keeps_lp loops :=
  autounfold with drv;
  repeat first
    [ progress intros
    | solve [loops]
    | progress cbn [mbind prog_mbind prog_bind mret prog_ret readl writel
                    load_ed get_ece set_ece mutex_lock mutex_unlock]
    | match goal with
      | |- Keeps _ (if ?c then _ else _) => destruct c
      | |- Keeps _ (match lp_code ?x with Some _ => _ | None => _ end) =>
          destruct (lp_code x) eqn:?
      | |- Keeps _ (match ?o with Some _ => _ | None => _ end) => destruct o
      | |- Keeps _ (match ?c with ECE_IOCGETED => _ | _ => _ end) =>
          destruct c
      | |- Keeps _ (prog_bind _ (if ?c then _ else _)) => destruct c
      | |- Keeps _ (mbind _ (if ?c then _ else _)) => destruct c
      | |- Keeps _ (mbind _ (match lp_code ?x with
                             | Some _ => _ | None => _ end)) =>
          destruct (lp_code x) eqn:?
      | |- Keeps _ (prog_bind _ _) => apply keeps_bind
      | |- Keeps _ (mbind _ _) => apply keeps_bind
      | |- Keeps _ _ => constructor
      end ].

Lemma keeps_media_wait (I : Media.npcm750_ece -> Prop) fuel :
  Keeps I (Media.wait_rect_compressed fuel).
Proof.
  induction fuel as [|fuel IH]; cbn [Media.wait_rect_compressed].
  - apply keeps_spin.
  - keeps_lp ltac:(exact IH).
Qed.

Lemma keeps_video_wait (I : Video.npcm750_ece -> Prop) fuel :
  Keeps I (Video.wait_rect_compressed fuel).
Proof.
  induction fuel as [|fuel IH]; cbn [Video.wait_rect_compressed];
    [apply keeps_spin | keeps_lp ltac:(exact IH)].
Qed.

Lemma keeps_video_read_ed_size (I : Video.npcm750_ece -> Prop) fuel count :
  Keeps I (Video.read_ed_size fuel count).
Proof.
  revert count. induction fuel as [|fuel IH]; intros count;
    cbn [Video.read_ed_size];
    [apply keeps_spin | keeps_lp ltac:(apply IH)].
Qed.

Lemma keeps_media_ioctl fuel cmd args :
  Keeps (fun e => legal_lp (Media.lin_pitch e))
        (Media.npcm750_ece_ioctl fuel cmd args).
Proof.
  keeps_lp ltac:(apply keeps_media_wait).
  all: cbn [Media.lin_pitch Media.set_lin_pitch Media.set_enc_gap];
    try assumption.
  all: apply lp_code_legal; eauto.
Qed.

Lemma keeps_media_open :
  Keeps (fun e => legal_lp (Media.lin_pitch e)) Media.npcm750_ece_open.
Proof.
  keeps_lp fail.
  all: cbn [Media.lin_pitch Media.set_lin_pitch Media.set_enc_gap];
    try assumption.
  all: apply legal_default_lp.
Qed.

Lemma keeps_video_ioctl fuel cmd args :
  Keeps (fun e => legal_lp (Video.lin_pitch e))
        (Video.drv_ioctl fuel cmd args).
Proof.
  keeps_lp ltac:(first [apply keeps_video_wait
                       | apply keeps_video_read_ed_size]).
  all: cbn [Video.lin_pitch Video.set_lin_pitch Video.set_enc_gap
            Video.set_width_height Video.set_initialised];
    try assumption.
  all: apply lp_code_legal; eauto.
Qed.


(** A program without a busy-wait returns. *)
Lemma total_run {St B} (p : Prog St B) w :
  Total p -> exists b w', run p w = Some (b, w').
Proof.
  intros Hp. revert w.
  induction Hp as [b|k _ IH|k _ IH|addr k _ IH|val addr k _ IH
                   |idx k _ IH|k _ IH|s k _ IH]; intros w; cbn [run];
    try apply IH.
  eexists _, _. reflexivity.
Qed.

Ltac total :=
  autounfold with drv;
  repeat first
    [ progress intros
    | progress cbn [mbind prog_mbind prog_bind mret prog_ret readl writel
                    load_ed get_ece set_ece mutex_lock mutex_unlock]
    | match goal with
      | |- Total (if ?c then _ else _) => destruct c
      | |- Total (mbind _ (if ?c then _ else _)) => destruct c
      | |- Total _ => constructor
      | |- Total ?p =>
          match p with context [if ?c then _ else _] => destruct c end
      end ].

Lemma total_media_reset : Total Media.npcm750_ece_reset.
Proof. total. Qed.

Lemma total_media_clear_drs : Total Media.npcm750_ece_clear_drs.
Proof. total. Qed.

Lemma total_video_initialise : Total Video.ece_initialise.
Proof. total. Qed.

Lemma media_open_legal (w : World Media.npcm750_ece) :
  exists r w',
    run Media.npcm750_ece_open w = Some (r, w') /\
    legal_lp (Media.lin_pitch (ece w')).
Proof.
  unfold Media.npcm750_ece_open, Media.npcm750_ece_initialise.
  rewrite !run_seq.
  destruct (total_run _ w total_media_reset) as (? & w1 & ->).
  cbn beta iota. rewrite run_seq.
  destruct (total_run _ w1 total_media_clear_drs) as (? & w2 & ->).
  cbn beta iota.
  unfold Media.npcm750_ece_set_enc_dba, Media.npcm750_ece_write. run_step.
  eexists _, _. split; [reflexivity|]. apply legal_default_lp.
Qed.

Lemma video_probe_legal (w : World Video.npcm750_ece) :
  exists r w',
    run Video.npcm750_ece_probe w = Some (r, w') /\
    legal_lp (Video.lin_pitch (ece w')).
Proof.
  unfold Video.npcm750_ece_probe. rewrite run_seq.
  destruct (total_run _ w total_video_initialise) as (? & w1 & ->).
  cbn beta iota. unfold Video.ece_set_enc_dba. run_step.
  eexists _, _. split; [reflexivity|]. apply legal_default_lp.
Qed.

Lemma lp_always_legal_of_keeps {St : Type}
    (ioctl : nat -> ioctl_nr -> uarg -> Prog St (Z * ureply))
    (init : Prog St Z) (lin_pitch : St -> Z) :
  (forall w, exists r w',
     run init w = Some (r, w') /\ legal_lp (lin_pitch (ece w'))) ->
  (forall fuel cmd args,
     Keeps (fun e => legal_lp (lin_pitch e)) (ioctl fuel cmd args)) ->
  lp_always_legal ioctl init lin_pitch.
Proof.
  intros Hinit Hk. split; [exact Hinit|].
  intros fuel reqs d e sched He.
  apply (keeps_interleave (fun e => legal_lp (lin_pitch e))); [|exact He].
  cbn [start threads]. apply Forall_map, Forall_forall. intros r _. apply Hk.
Qed.

(** C6.  In both drivers, configuring the line pitch is idempotent: a
    second call with the same pitch leaves the stored [lin_pitch] and
    the whole device, [RESOL] included, as the first call left them; a
    legal pitch (512, 1024, 2048, 2560 or 4096) is stored and its code
    programmed; any other pitch leaves the stored pitch and every
    register as they were.  So the stored pitch is always legal: [open]
    (media driver) and the probe (video driver) store 2048, and no
    request of any caller, under any schedule, makes a legal pitch
    illegal. *)
Theorem set_lp_idempotent_and_guarded (pitch : Z)
    (wm : World Media.npcm750_ece) (wv : World Video.npcm750_ece) :
  lp_config_ok Media.npcm750_ece_set_lp Media.lin_pitch pitch wm /\
  lp_config_ok Video.ece_set_lp Video.lin_pitch pitch wv /\
  lp_always_legal Media.npcm750_ece_ioctl Media.npcm750_ece_open
                  Media.lin_pitch /\
  lp_always_legal Video.drv_ioctl Video.npcm750_ece_probe Video.lin_pitch.
Proof.
  split; [|split; [|split]].
  - apply (lp_config_ok_of_run _ Media.set_lin_pitch); try reflexivity.
    intros w. unfold Media.npcm750_ece_set_lp, Media.npcm750_ece_write.
    destruct (lp_code pitch); reflexivity.
  - apply (lp_config_ok_of_run _ Video.set_lin_pitch); try reflexivity.
    intros w. unfold Video.ece_set_lp.
    destruct (lp_code pitch); reflexivity.
  - apply lp_always_legal_of_keeps;
      [apply media_open_legal | apply keeps_media_ioctl].
  - apply lp_always_legal_of_keeps;
      [apply video_probe_legal | apply keeps_video_ioctl].
Qed.

Lemma set_lp_idempotent_and_guarded_witness :
  lp_config_ok Media.npcm750_ece_set_lp Media.lin_pitch 1024 Media.world0 /\
  lp_config_ok Video.ece_set_lp Video.lin_pitch 1024 Video.world0 /\
  lp_always_legal Media.npcm750_ece_ioctl Media.npcm750_ece_open
                  Media.lin_pitch /\
  lp_always_legal Video.drv_ioctl Video.npcm750_ece_probe Video.lin_pitch.
Proof.
  exact (set_lp_idempotent_and_guarded 1024 Media.world0 Video.world0).
Defined.

(** A request for an illegal pitch that passes the gate of the ioctl
    (0 is a multiple of 512) changes nothing; a request for 1024 is
    stored and programmed as code 1. *)
Example setlp_sample :
  (exists w',
     run (Media.npcm750_ece_ioctl 0 ECE_IOCSETLP
            (mk_uarg (Some (Uapi.mk_cmd 0 0 0 0 0 0 0 0 0)) true))
         Media.world0 = Some ((0, NoReply), w') /\
     Media.lin_pitch (ece w') = 2048 /\
     log w' = [EvLock; EvUnlock]) /\
  (exists w',
     run (Media.npcm750_ece_ioctl 0 ECE_IOCSETLP
            (mk_uarg (Some (Uapi.mk_cmd 0 0 0 0 0 0 0 0 1024)) true))
         Media.world0 = Some ((0, NoReply), w') /\
     Media.lin_pitch (ece w') = 1024 /\
     log w' = [EvLock; EvWrite RESOL 1; EvUnlock]).
Proof.
  split; eexists; (split; [|split]); vm_compute; reflexivity.
Qed.

(** ** Interleaved requests are requests one after the other *)

Section Sequential.
Context {St A : Type}.
Implicit Types (c : Config St A) (p : Prog St A) (ps : list (Prog St A)).

Lemma seq_run_snoc ps order i w :
  seq_run ps (order ++ [i]) w =
  match seq_run ps order w with
  | None => None
  | Some (rs, w') =>
      match ps !! i with
      | None => None
      | Some p =>
          match run p w' with
          | None => None
          | Some (a, w'') => Some (rs ++ [a], w'')
          end
      end
  end.
Proof.
  revert w. induction order as [|j order IH]; intros w; cbn [seq_run app].
  - destruct (ps !! i) as [p|]; [|reflexivity].
    destruct (run p w) as [[a w']|]; reflexivity.
  - destruct (ps !! j) as [p|]; [|reflexivity].
    destruct (run p w) as [[a w']|]; [|reflexivity].
    rewrite IH. destruct (seq_run ps order w') as [[rs w'']|]; [|reflexivity].
    destruct (ps !! i) as [q|]; [|reflexivity].
    destruct (run q w'') as [[b w3]|]; reflexivity.
Qed.

(** A step of the holder of the mutex is a step of [run]. *)
Lemma step_run i c c' p :
  threads c !! i = Some p -> owner c = Some i -> step i c = Some c' ->
  exists p', threads c' !! i = Some p' /\
    run p (world_of c) = run p' (world_of c') /\
    (forall j, j <> i -> threads c' !! j = threads c !! j) /\
    ((forall k, p <> MutexUnlock k) -> owner c' = owner c).
Proof.
  intros Hp Ho. unfold step. rewrite Hp, Ho.
  pose proof (lookup_lt_Some _ _ _ Hp) as Hlt.
  destruct p; try discriminate; intros [= <-]; cbn [threads owner];
    rewrite list_lookup_insert_eq by exact Hlt;
    (eexists; split; [reflexivity|]);
    (split; [|split; [intros j Hj; apply list_lookup_insert_ne; congruence
                     |intros H; first [congruence | destruct (H _ eq_refl)]]]);
    unfold world_of; cbn [run cdev cece clog dev ece log];
    rewrite ?map_app; reflexivity.
Qed.

Lemma step_inside i c c' p :
  threads c !! i = Some p -> Inside p -> step i c = Some c' ->
  (exists a, p = MutexUnlock (Ret a) /\ threads c' !! i = Some (Ret a) /\
             owner c' = None) \/
  ((forall k, p <> MutexUnlock k) /\
   exists p', threads c' !! i = Some p' /\ Inside p').
Proof.
  intros Hp Hin. unfold step. rewrite Hp.
  pose proof (lookup_lt_Some _ _ _ Hp) as Hlt.
  destruct Hin; try discriminate; intros [= <-]; cbn [threads owner];
    rewrite list_lookup_insert_eq by exact Hlt;
    [left; eauto | right; split; [discriminate | eauto] ..].
Qed.

(** A caller that has not begun, or has returned, moves only to take a
    free mutex. *)
Lemma step_outside i c c' p :
  threads c !! i = Some p -> Outside p -> step i c = Some c' ->
  exists k, p = MutexLock k /\ Inside k /\ owner c = None /\
    c' = mk_config (<[i := k]> (threads c)) (cdev c) (cece c) (Some i)
                   (clog c ++ [(i, EvLock)]).
Proof.
  intros Hp Hout. unfold step. rewrite Hp.
  destruct Hout as [k Hk|a]; [|discriminate].
  destruct (owner c); [discriminate|]. intros [= <-]. eauto.
Qed.

Lemma step_stands ps c c' i order results w_seq w0 :
  Forall Outside ps ->
  seq_run ps order w0 = Some (results, w_seq) ->
  stands ps c order results w_seq ->
  step i c = Some c' ->
  exists order' results' w_seq',
    seq_run ps order' w0 = Some (results', w_seq') /\
    stands ps c' order' results' w_seq'.
Proof.
  intros Hps Hseq (Hnd & Hlen & Hdone & Hnew & Hown) Hstep.
  assert (Hret : forall j, j ∈ order -> exists a, threads c !! j = Some (Ret a)).
  { intros j Hj. apply list_elem_of_lookup in Hj as [n Hn].
    destruct (lookup_lt_is_Some_2 results n) as [a Ha].
    - rewrite Hlen. eapply lookup_lt_Some, Hn.
    - exists a. eapply Hdone; eassumption. }
  assert (Hi : i ∉ order).
  { intros Hin. destruct (Hret i Hin) as [a Ha].
    unfold step in Hstep. rewrite Ha in Hstep. discriminate. }
  destruct (owner c) as [h|] eqn:Ho.
  - (* the mutex is held *)
    destruct Hown as (Hh & p & P & Hp & HP & Hin & Hrun).
    destruct (decide (i = h)) as [->|Hne].
    + destruct (step_run h c c' p Hp Ho Hstep) as (p' & Hp' & Hrun' & Hoth & Hkeep).
      destruct (step_inside h c c' p Hp Hin Hstep)
        as [(a & -> & Ha & Ho')|(Hnu & p'' & Hp'' & Hin')].
      * (* the holder releases the mutex and has returned *)
        exists (order ++ [h]), (results ++ [a]), (world_of c').
        rewrite Ha in Hp'. injection Hp' as <-.
        split.
        { rewrite seq_run_snoc, Hseq, HP, <- Hrun, Hrun'. reflexivity. }
        unfold stands. rewrite Ho'.
        split; [apply NoDup_app; repeat split; auto using NoDup_singleton;
                intros x Hx Hx'; apply list_elem_of_singleton in Hx'; congruence|].
        split; [rewrite !length_app, Hlen; reflexivity|].
        split; [|split; [|reflexivity]].
        -- intros n j b Hn Hb.
           destruct (decide (n < length order)%nat) as [Hlt|Hge].
           ++ rewrite lookup_app_l in Hn by exact Hlt.
              rewrite lookup_app_l in Hb by (rewrite Hlen; exact Hlt).
              rewrite Hoth; [eapply Hdone; eassumption|].
              intros ->. apply Hh. eapply list_elem_of_lookup_2, Hn.
           ++ rewrite lookup_app_r in Hn by lia.
              rewrite lookup_app_r in Hb by lia.
              rewrite Hlen in Hb.
              destruct (n - length order)%nat; [|discriminate].
              injection Hn as <-. injection Hb as <-. exact Ha.
        -- intros j Hj _. apply not_elem_of_app in Hj as [Hj Hjh].
           rewrite list_elem_of_singleton in Hjh. rewrite Hoth by exact Hjh.
           apply Hnew; [exact Hj | congruence].
      * (* the holder goes on *)
        exists order, results, w_seq. split; [exact Hseq|].
        rewrite Hp'' in Hp'. injection Hp' as <-.
        unfold stands. rewrite (Hkeep Hnu), Ho. cbn beta iota.
        split; [exact Hnd|]. split; [exact Hlen|].
        split; [|split; [|split]].
        -- intros n j b Hn Hb. rewrite Hoth; [eapply Hdone; eassumption|].
           intros ->. apply Hh. eapply list_elem_of_lookup_2, Hn.
        -- intros j Hj Hjo. rewrite Hoth by congruence.
           apply Hnew; [exact Hj | congruence].
        -- exact Hh.
        -- exists p'', P. rewrite <- Hrun'. auto.
    + (* any other caller waits *)
      exfalso.
      destruct (threads c !! i) as [q|] eqn:Hq;
        [|unfold step in Hstep; rewrite Hq in Hstep; discriminate].
      assert (Hq' : ps !! i = Some q) by (rewrite <- Hnew, Hq; congruence).
      pose proof (proj1 (Forall_lookup _ _) Hps i q Hq') as Hout.
      destruct (step_outside i c c' q Hq Hout Hstep) as (k & _ & _ & Hfree & _).
      congruence.
  - (* the mutex is free *)
    destruct (threads c !! i) as [q|] eqn:Hq;
      [|unfold step in Hstep; rewrite Hq in Hstep; discriminate].
    assert (Hq' : ps !! i = Some q) by (rewrite <- Hnew, Hq; congruence).
    pose proof (proj1 (Forall_lookup _ _) Hps i q Hq') as Hout.
    destruct (step_outside i c c' q Hq Hout Hstep) as (k & -> & Hin & _ & ->).
    pose proof (lookup_lt_Some _ _ _ Hq) as Hlt.
    exists order, results, w_seq. split; [exact Hseq|].
    unfold stands. cbn [owner threads].
    split; [exact Hnd|]. split; [exact Hlen|].
    split; [|split; [|split]].
    + intros n j b Hn Hb.
      rewrite list_lookup_insert_ne; [eapply Hdone; eassumption|].
      intros ->. apply Hi. eapply list_elem_of_lookup_2, Hn.
    + intros j Hj Hjo. rewrite list_lookup_insert_ne by congruence.
      apply Hnew; [exact Hj | discriminate].
    + exact Hi.
    + exists k, (MutexLock k).
      rewrite list_lookup_insert_eq by exact Hlt.
      repeat split; auto. rewrite <- Hown.
      unfold world_of. cbn [run cdev cece clog dev ece log].
      rewrite map_app. reflexivity.
Qed.

Lemma start_stands ps d e :
  stands ps (start ps d e) [] [] (mk_world d e []).
Proof.
  unfold stands, start. cbn [owner threads].
  split; [apply NoDup_nil_2|]. split; [reflexivity|].
  split; [intros n i a Hn; discriminate Hn|].
  split; reflexivity.
Qed.

Lemma interleave_stands ps sched c w0 :
  Forall Outside ps ->
  (exists order results w_seq,
     seq_run ps order w0 = Some (results, w_seq) /\
     stands ps c order results w_seq) ->
  exists order results w_seq,
    seq_run ps order w0 = Some (results, w_seq) /\
    stands ps (interleave sched c) order results w_seq.
Proof.
  intros Hps. revert c.
  induction sched as [|i sched IH]; intros c Hc; [exact Hc|].
  cbn [interleave]. apply IH.
  destruct (step i c) as [c'|] eqn:E; [|exact Hc].
  destruct Hc as (order & results & w_seq & Hseq & Hst).
  exact (step_stands ps c c' i order results w_seq w0 Hps Hseq Hst E).
Qed.

(** Callers that keep to the three stages have, under every schedule,
    done what some of them do one after the other. *)
Lemma outside_sequential ps d e sched :
  Forall Outside ps -> sequential ps d e sched.
Proof.
  intros Hps. apply interleave_stands; [exact Hps|].
  exists [], [], (mk_world d e []). split; [reflexivity|].
  apply start_stands.
Qed.

End Sequential.

(** C10.  Whatever the requests of the callers of the ioctl entry point
    of either driver, encode requests among them, and however the
    callers are scheduled, at every instant: the history of the mutex
    and the device keeps to the discipline (the mutex is taken only when
    free and released only by its holder, and every access to the device
    is made by the holder); at most one caller is in flight; every
    caller takes the mutex once at most, so the programming of the
    registers, the wait for completion and the gap computation of one
    request lie in one critical section; and a caller that is about to
    access the device or the driver struct holds the mutex.  So no
    caller sees the registers as another has half programmed them: the
    callers that have returned have done, and got, what they do and get
    when they run one after the other, each alone, and what the holder
    of the mutex still has to run gives from the present state what its
    whole request gives from the state the others left. *)
Theorem ioctl_requests_serialised (fuel : nat)
    (reqs : list (ioctl_nr * uarg)) (d : Device)
    (em : Media.npcm750_ece) (ev : Video.npcm750_ece) (sched : list nat) :
  serialised (callers Media.npcm750_ece_ioctl fuel reqs) d em sched /\
  serialised (callers Video.drv_ioctl fuel reqs) d ev sched /\
  sequential (callers Media.npcm750_ece_ioctl fuel reqs) d em sched /\
  sequential (callers Video.drv_ioctl fuel reqs) d ev sched.
Proof.
  assert (Hm : Forall Outside (callers Media.npcm750_ece_ioctl fuel reqs))
    by (apply Forall_map, Forall_forall; intros r _;
        apply media_ioctl_outside).
  assert (Hv : Forall Outside (callers Video.drv_ioctl fuel reqs))
    by (apply Forall_map, Forall_forall; intros r _;
        apply video_ioctl_outside).
  auto using outside_serialised, outside_sequential.
Qed.

(** Two encode requests on the sample device.  The second caller finds
    the mutex held and cannot move until the first has released it; its
    own request then runs from the lock to the unlock. *)
Example two_encodes_sample :
  let reqs := [(ECE_IOCGETED, mk_uarg (Some (cmd_rect 0 0 16 16)) true);
               (ECE_IOCGETED, mk_uarg (Some (cmd_rect 0 0 32 16)) true)] in
  let c := interleave [0; 1; 0; 1; 1; 0]%nat
             (start (callers Media.npcm750_ece_ioctl 4 reqs)
                    (sample_dev 0) (ece Media.world0)) in
  clog c = [(0, EvLock); (0, EvRead HEX_RECT_OFFSET 0)]%nat /\
  owner c = Some 0%nat /\
  map snd (filter (fun ie => ie.1 = 1%nat)
     (clog (interleave (repeat 0%nat 40 ++ repeat 1%nat 40)
              (start (callers Media.npcm750_ece_ioctl 4 reqs)
                     (sample_dev 0) (ece Media.world0)))))
  = [EvLock; EvRead HEX_RECT_OFFSET 0;
     EvRead DDA_CTRL 1; EvWrite DDA_CTRL 0;
     EvRead DDA_CTRL 0; EvWrite DDA_CTRL 1;
     EvWrite RECT_XY 0; EvWrite RECT_DIMEN 0x78007801;
     EvRead DDA_STS 0; EvRead DDA_STS 0; EvRead DDA_STS 0x100;
     EvLoad 0 4; EvLoad 1 3; EvLoad 2 2; EvLoad 3 1;
     EvRead DDA_STS 0x100; EvWrite DDA_STS 0x100;
     EvRead HEX_CTRL 0; EvUnlock].
Proof. cbn zeta. split; [|split]; vm_compute; reflexivity. Qed.

(** The discipline is a property of the ioctl entry points, not of the
    model: [npcm750_ece_open] resets the engine without taking the mutex,
    and a history in which it runs next to an encode request is not
    serial. *)
Example open_is_not_serialised :
  let ps := [Media.npcm750_ece_ioctl 4 ECE_IOCGETED
               (mk_uarg (Some (cmd_rect 0 0 16 16)) true);
             media_open_caller] in
  let c := interleave [0; 0; 1; 1]%nat
             (start ps (sample_dev 0) (ece Media.world0)) in
  clog c = [(0, EvLock); (0, EvRead HEX_RECT_OFFSET 0);
            (1, EvRead DDA_CTRL 0); (1, EvWrite DDA_CTRL 0)]%nat /\
  holder None (clog c) = None.
Proof. cbn zeta. split; vm_compute; reflexivity. Qed.

(** ** The tile partition, further *)

(** X1.  The tile layout accounts for every pixel of the rectangle: the
    full tiles before the last column and the width of the last column
    add up to the width, and likewise for the rows and the height.  This
    holds for every [u32] width and height, the empty ones included. *)
Theorem tiles_cover_rectangle (r_w r_h : Z) :
  is_u32 r_w -> is_u32 r_h ->
  ECE_TILE_W * (w_tile (rect_tiles r_w r_h) - 1) + w_size (rect_tiles r_w r_h)
    = r_w /\
  ECE_TILE_H * (h_tile (rect_tiles r_w r_h) - 1) + h_size (rect_tiles r_w r_h)
    = r_h.
Proof.
  intros Hw Hh. unfold rect_tiles, ECE_TILE_W, ECE_TILE_H.
  split; tiles_arith.
Qed.

Lemma tiles_cover_rectangle_witness :
  ECE_TILE_W * (w_tile (rect_tiles 20 0) - 1) + w_size (rect_tiles 20 0) = 20 /\
  ECE_TILE_H * (h_tile (rect_tiles 20 0) - 1) + h_size (rect_tiles 20 0) = 0.
Proof. apply (tiles_cover_rectangle 20 0); unfold is_u32; lia. Defined.

Lemma rect_tiles_inv r_w r_h :
  1 <= r_w < 2 ^ 32 -> 1 <= r_h < 2 ^ 32 -> tiles_inv (rect_tiles r_w r_h).
Proof.
  intros Hw Hh. unfold tiles_inv, rect_tiles, ECE_TILE_W, ECE_TILE_H.
  repeat split; tiles_arith.
Qed.

Lemma rect_tiles_counts r_w r_h :
  1 <= r_w <= 2 ^ 15 -> 1 <= r_h <= 2 ^ 15 ->
  w_tile (rect_tiles r_w r_h) <= 2 ^ 11 /\ h_tile (rect_tiles r_w r_h) <= 2 ^ 11.
Proof.
  intros Hw Hh. unfold rect_tiles, ECE_TILE_W, ECE_TILE_H.
  split; tiles_arith.
Qed.

Lemma shl32_last_field a off :
  0 <= off < 32 ->
  shl32 (sub32 a 1) off = Z.shiftl ((a - 1) mod 2 ^ (32 - off)) off.
Proof.
  intros Hoff. unfold shl32, sub32, u32.
  rewrite !Z.shiftl_mul_pow2 by lia.
  replace (2 ^ 32) with (2 ^ (32 - off) * 2 ^ off)
    by (rewrite <- Z.pow_add_r by lia; f_equal; lia).
  assert (0 < 2 ^ off) by (apply Z.pow_pos_nonneg; lia).
  assert (0 < 2 ^ (32 - off)) by (apply Z.pow_pos_nonneg; lia).
  rewrite Z.mul_mod_distr_r by lia. f_equal.
  apply Z.mod_mod_divide. exists (2 ^ off). ring.
Qed.

(** The value written to [RECT_DIMEN] as a sum of its fields. *)
Lemma rect_dimen_sum t :
  1 <= w_tile t <= 2 ^ 11 -> 1 <= h_tile t <= 2 ^ 11 ->
  1 <= w_size t <= 32 ->
  rect_dimen t
  = (w_tile t - 1) + 2 ^ 11 * (w_size t - 1)
    + 2 ^ 16 * (h_tile t - 1) + 2 ^ 27 * ((h_size t - 1) mod 2 ^ 5).
Proof.
  intros Hwt Hht Hws.
  pose proof (Z.mod_pos_bound (h_size t - 1) (2 ^ 5) ltac:(lia)) as Hhs.
  unfold rect_dimen.
  rewrite (shl32_last_field (h_size t)) by (vm_compute; split; congruence).
  unfold shl32, sub32,
    ECE_RECT_DIMEN_WLTR_OFFSET, ECE_RECT_DIMEN_HLTR_OFFSET,
    ECE_RECT_DIMEN_WR_OFFSET, ECE_RECT_DIMEN_HR_OFFSET.
  change (32 - 27) with 5.
  rewrite (u32_small (w_size t - 1)),
    (u32_small (w_tile t - 1)), (u32_small (h_tile t - 1))
    by (unfold is_u32; lia).
  rewrite Z.shiftl_0_r.
  rewrite (u32_small (Z.shiftl _ 11)),
    (u32_small (Z.shiftl _ 16)), (u32_small (w_tile t - 1))
    by (unfold is_u32; rewrite ?Z.shiftl_mul_pow2 by lia; lia).
  transitivity
    (Z.lor (Z.lor (Z.lor (w_tile t - 1) (Z.shiftl (w_size t - 1) 11))
                  (Z.shiftl (h_tile t - 1) 16))
           (Z.shiftl ((h_size t - 1) mod 2 ^ 5) 27)).
  - apply Z.bits_inj'. intros n _. rewrite !Z.lor_spec.
    repeat match goal with
           | |- context [Z.testbit ?a ?b] => destruct (Z.testbit a b)
           end; reflexivity.
  - rewrite (lor_shiftl_add (w_tile t - 1)) by lia.
    rewrite (lor_shiftl_add _ (h_tile t - 1) 16) by lia.
    rewrite (lor_shiftl_add _ _ 27) by lia.
    reflexivity.
Qed.

(** The fields of the dimension register, for a layout within the
    invariant and tile counts within 11 bits. *)
Lemma rect_dimen_fields t :
  1 <= w_tile t <= 2 ^ 11 -> 1 <= h_tile t <= 2 ^ 11 ->
  1 <= w_size t <= 32 ->
  dimen_field (rect_dimen t) ECE_RECT_DIMEN_WR_OFFSET 11 = w_tile t - 1 /\
  dimen_field (rect_dimen t) ECE_RECT_DIMEN_WLTR_OFFSET 5 = w_size t - 1 /\
  dimen_field (rect_dimen t) ECE_RECT_DIMEN_HR_OFFSET 11 = h_tile t - 1 /\
  dimen_field (rect_dimen t) ECE_RECT_DIMEN_HLTR_OFFSET 5
    = (h_size t - 1) mod 2 ^ 5.
Proof.
  intros Hwt Hht Hws.
  pose proof (Z.mod_pos_bound (h_size t - 1) (2 ^ 5) ltac:(lia)) as Hhs.
  rewrite rect_dimen_sum by assumption.
  unfold dimen_field, ECE_RECT_DIMEN_WR_OFFSET, ECE_RECT_DIMEN_WLTR_OFFSET,
    ECE_RECT_DIMEN_HR_OFFSET, ECE_RECT_DIMEN_HLTR_OFFSET.
  generalize dependent ((h_size t - 1) mod 2 ^ 5). intros hs Hhs.
  repeat split; Z.div_mod_to_equations; lia.
Qed.

Lemma rect_tiles_cols_indep r_w r_h r_h' :
  w_tile (rect_tiles r_w r_h) = w_tile (rect_tiles r_w r_h') /\
  w_size (rect_tiles r_w r_h) = w_size (rect_tiles r_w r_h').
Proof.
  unfold rect_tiles.
  repeat match goal with
         | |- context [if ?c then _ else _] => destruct c
         end; split; reflexivity.
Qed.

Lemma rect_tiles_rows_indep r_w r_w' r_h :
  h_tile (rect_tiles r_w r_h) = h_tile (rect_tiles r_w' r_h) /\
  h_size (rect_tiles r_w r_h) = h_size (rect_tiles r_w' r_h).
Proof.
  unfold rect_tiles.
  repeat match goal with
         | |- context [if ?c then _ else _] => destruct c
         end; split; reflexivity.
Qed.

(** X2.  The dimension register holds the rectangle: for a width and a
    height from 1 to 32768 the value written to [RECT_DIMEN] decodes, by
    its four fields, to the width and the height it was computed from. *)
Theorem rect_dimen_round_trip (r_w r_h : Z) :
  1 <= r_w <= 2 ^ 15 -> 1 <= r_h <= 2 ^ 15 ->
  dimen_width (rect_dimen (rect_tiles r_w r_h)) = r_w /\
  dimen_height (rect_dimen (rect_tiles r_w r_h)) = r_h.
Proof.
  intros Hw Hh.
  destruct (rect_tiles_counts r_w r_h Hw Hh) as [Cw Ch].
  destruct (rect_tiles_inv r_w r_h) as (I1 & I2 & I3 & I4); [lia..|].
  unfold ECE_TILE_W, ECE_TILE_H in I3, I4.
  destruct (rect_dimen_fields (rect_tiles r_w r_h)) as (F1 & F2 & F3 & F4);
    [lia..|].
  unfold dimen_width, dimen_height. rewrite F1, F2, F3, F4.
  rewrite (Z.mod_small (_ - 1)) by lia.
  assert (Hw' : is_u32 r_w) by (unfold is_u32; lia).
  assert (Hh' : is_u32 r_h) by (unfold is_u32; lia).
  clear F1 F2 F3 F4 Cw Ch.
  unfold rect_tiles, ECE_TILE_W, ECE_TILE_H.
  split; tiles_arith.
Qed.

Lemma rect_dimen_round_trip_witness :
  dimen_width (rect_dimen (rect_tiles 640 33)) = 640 /\
  dimen_height (rect_dimen (rect_tiles 640 33)) = 33.
Proof. apply (rect_dimen_round_trip 640 33); lia. Defined.

(** The bound of X2 is sharp: the widths 2 and 32769 are programmed as
    one and the same register value. *)
Example rect_dimen_collision :
  rect_dimen (rect_tiles 32769 16) = rect_dimen (rect_tiles 2 16).
Proof. reflexivity. Qed.

Lemma lor_u32 x y : is_u32 x -> is_u32 y -> is_u32 (Z.lor x y).
Proof.
  unfold is_u32. intros Hx Hy. split; [apply Z.lor_nonneg; lia|].
  destruct (Z.eq_dec (Z.lor x y) 0) as [->|Hz]; [lia|].
  assert (0 <= Z.lor x y) by (apply Z.lor_nonneg; lia).
  apply Z.log2_lt_pow2; [lia|].
  rewrite Z.log2_lor by lia.
  destruct (Z.eq_dec x 0) as [->|Hx0]; destruct (Z.eq_dec y 0) as [->|Hy0];
    cbn [Z.log2]; try lia.
  - apply Z.max_lub_lt; [lia | apply Z.log2_lt_pow2; lia].
  - apply Z.max_lub_lt; [apply Z.log2_lt_pow2; lia | lia].
  - apply Z.max_lub_lt; apply Z.log2_lt_pow2; lia.
Qed.

Lemma lor_ones32 x : is_u32 x -> Z.lor x (2 ^ 32 - 1) = 2 ^ 32 - 1.
Proof.
  intros Hx. change (2 ^ 32 - 1) with (Z.ones 32).
  apply Z.bits_inj'. intros n Hn. rewrite Z.lor_spec.
  destruct (Z.ltb_spec n 32).
  - rewrite Z.ones_spec_low by lia. apply orb_true_r.
  - rewrite Z.ones_spec_high by lia. rewrite orb_false_r.
    rewrite <- (u32_small x Hx). unfold u32.
    apply Z.mod_pow2_bits_high. lia.
Qed.

(** X3.  An empty rectangle is not refused, and what is programmed for
    it is no rectangle: for a width of 0 every bit of the value written
    to [RECT_DIMEN] is set, whatever the height; for a height of 0 (and a
    width from 1 to 32768) the register stands for the given width and a
    height of 32, one row of tiles whose last-row field has wrapped
    around to 31. *)
Theorem empty_rect_dimen (r_w r_h : Z) :
  is_u32 r_h -> 1 <= r_w <= 2 ^ 15 ->
  rect_dimen (rect_tiles 0 r_h) = 0xFFFFFFFF /\
  dimen_width (rect_dimen (rect_tiles r_w 0)) = r_w /\
  dimen_field (rect_dimen (rect_tiles r_w 0)) ECE_RECT_DIMEN_HR_OFFSET 11 = 0 /\
  dimen_field (rect_dimen (rect_tiles r_w 0)) ECE_RECT_DIMEN_HLTR_OFFSET 5 = 31 /\
  dimen_height (rect_dimen (rect_tiles r_w 0)) = 32.
Proof.
  intros Hh Hw. split.
  - unfold rect_dimen, rect_tiles, ECE_TILE_W, ECE_TILE_H.
    change (0 / 16) with 0. change (0 mod 16) with 0.
    cbn [Z.eqb negb].
    match goal with
    | |- context [if ?c then _ else _] => destruct c
    end; cbn [w_tile h_tile w_size h_size];
      change (shl32 (sub32 0 1) ECE_RECT_DIMEN_WR_OFFSET) with (2 ^ 32 - 1);
      rewrite Z.lor_assoc || idtac.
    all: rewrite <- Z.lor_assoc, (Z.lor_comm (2 ^ 32 - 1)), Z.lor_assoc.
    all: rewrite lor_ones32; [reflexivity|].
    all: repeat apply lor_u32; apply u32_range.
  - assert (Hw' : is_u32 r_w) by (unfold is_u32; lia).
    destruct (rect_tiles_counts r_w 1) as [Cw _]; [lia..|].
    destruct (rect_tiles_inv r_w 1) as (I1 & _ & I3 & _); [lia..|].
    unfold ECE_TILE_W in I3.
    destruct (rect_tiles_cols_indep r_w 1 0) as [E1 E2].
    destruct (rect_tiles_rows_indep r_w 0 0) as [R1 R2].
    rewrite E1 in Cw, I1. rewrite E2 in I3.
    destruct (rect_dimen_fields (rect_tiles r_w 0)) as (F1 & F2 & F3 & F4);
      [exact (conj I1 Cw) | rewrite R1; vm_compute; split; congruence
      | lia |].
    unfold dimen_width, dimen_height. rewrite F1, F2, F3, F4, R1, R2.
    change (h_tile (rect_tiles 0 0)) with 1.
    change (h_size (rect_tiles 0 0)) with 0.
    repeat split; try reflexivity.
    unfold rect_tiles, ECE_TILE_W, ECE_TILE_H. tiles_arith.
Qed.

Lemma empty_rect_dimen_witness :
  rect_dimen (rect_tiles 0 480) = 0xFFFFFFFF /\
  dimen_width (rect_dimen (rect_tiles 640 0)) = 640 /\
  dimen_field (rect_dimen (rect_tiles 640 0)) ECE_RECT_DIMEN_HR_OFFSET 11 = 0 /\
  dimen_field (rect_dimen (rect_tiles 640 0)) ECE_RECT_DIMEN_HLTR_OFFSET 5 = 31 /\
  dimen_height (rect_dimen (rect_tiles 640 0)) = 32.
Proof. apply (empty_rect_dimen 640 480); unfold is_u32; lia. Defined.

(** ** Running programs, further *)

(** The history only grows. *)
Lemma run_log {St B} (p : Prog St B) (w : World St) b w' :
  run p w = Some (b, w') ->
  log w' = log w ++ drop (length (log w)) (log w').
Proof.
  revert w. induction p as [a| |p IH|p IH|addr f IH|val addr p IH
                            |idx f IH|f IH|s p IH]; intros w; cbn [run].
  - intros [= <- <-]. rewrite drop_all, app_nil_r. reflexivity.
  - discriminate.
  - intros H. apply IH in H. cbn [log] in H.
    rewrite H at 2. rewrite <- app_assoc,  drop_app_length.
    rewrite H at 1. rewrite <- app_assoc. reflexivity.
  - intros H. apply IH in H. cbn [log] in H.
    rewrite H at 2. rewrite <- app_assoc,  drop_app_length.
    rewrite H at 1. rewrite <- app_assoc. reflexivity.
  - intros H. apply IH in H. cbn [log] in H.
    rewrite H at 2. rewrite <- app_assoc,  drop_app_length.
    rewrite H at 1. rewrite <- app_assoc. reflexivity.
  - intros H. apply IH in H. cbn [log] in H.
    rewrite H at 2. rewrite <- app_assoc,  drop_app_length.
    rewrite H at 1. rewrite <- app_assoc. reflexivity.
  - intros H. apply IH in H. cbn [log] in H.
    rewrite H at 2. rewrite <- app_assoc,  drop_app_length.
    rewrite H at 1. rewrite <- app_assoc. reflexivity.
  - intros H. apply IH in H. exact H.
  - intros H. apply IH in H. exact H.
Qed.

(** ** Programming a rectangle, further *)

(** X4.  Both encode routines program a rectangle in the same way: they
    write the control register twice (enable bit cleared, then set),
    then the byte offset [y * pitch + 2 * x] (in [u32] arithmetic) to
    [RECT_XY], and last the packed tile layout to [RECT_DIMEN], which
    starts the engine.  They leave the driver struct and every other
    register as they were, and from one and the same device and line
    pitch the two drivers end in one and the same device state. *)
Theorem enc_rect_programs_rectangle (x y w h : Z) (d : Device)
    (em : Media.npcm750_ece) (ev : Video.npcm750_ece) (lm lv : list Event) :
  Video.lin_pitch ev = Media.lin_pitch em ->
  exists wm wv,
    run (Media.npcm750_ece_enc_rect x y w h) (mk_world d em lm)
      = Some (tt, wm) /\
    run (Video.ece_enc_rect x y w h) (mk_world d ev lv) = Some (tt, wv) /\
    dev wv = dev wm /\
    ece wm = em /\ ece wv = ev /\
    written (drop (length lm) (log wm))
      = [DDA_CTRL; DDA_CTRL; RECT_XY; RECT_DIMEN] /\
    written (drop (length lv) (log wv))
      = [DDA_CTRL; DDA_CTRL; RECT_XY; RECT_DIMEN] /\
    reg (dev wm) RECT_XY
      = add32 (mul32 y (Media.lin_pitch em)) (mul32 x 2) /\
    reg (dev wm) RECT_DIMEN = rect_dimen (rect_tiles w h) /\
    Z.testbit (reg (dev wm) DDA_CTRL) 0 = true /\
    busy (dev wm) = latency d /\
    (forall a, a <> DDA_CTRL -> a <> RECT_XY -> a <> RECT_DIMEN ->
               reg (dev wm) a = reg d a).
Proof.
  intros Hlp.
  unfold Media.npcm750_ece_enc_rect, Media.npcm750_ece_fifo_reset_bypass,
    Media.npcm750_ece_update_bits, Media.npcm750_ece_write,
    Video.ece_enc_rect, Video.fifo_reset_bypass.
  run_step. log_simpl.
  eexists _, _. split; [reflexivity|]. split; [reflexivity|].
  cbn [dev ece log]. rewrite !drop_app_length, Hlp. reg_simpl.
  change Media.DDA_CTRL_ECEEN with 1. change ECEEN with 1.
  change (Z.land (not32 1) 1) with 0. change (Z.land 1 1) with 1.
  rewrite Z.lor_0_r, land_not32_idem.
  repeat apply conj; try reflexivity.
  - rewrite Z.lor_spec. apply orb_true_r.
  - intros a H1 H2 H3. rewrite !reg_hw_writel_ne by congruence. reflexivity.
Qed.

Lemma enc_rect_programs_rectangle_witness :
  exists wm wv,
    run (Media.npcm750_ece_enc_rect 10 0 20 20)
        (mk_world (sample_dev 0) (ece Media.world0) [])
      = Some (tt, wm) /\
    run (Video.ece_enc_rect 10 0 20 20)
        (mk_world (sample_dev 0) (ece Video.world0) []) = Some (tt, wv) /\
    dev wv = dev wm /\
    ece wm = ece Media.world0 /\ ece wv = ece Video.world0 /\
    written (drop (length (@nil Event)) (log wm))
      = [DDA_CTRL; DDA_CTRL; RECT_XY; RECT_DIMEN] /\
    written (drop (length (@nil Event)) (log wv))
      = [DDA_CTRL; DDA_CTRL; RECT_XY; RECT_DIMEN] /\
    reg (dev wm) RECT_XY
      = add32 (mul32 0 (Media.lin_pitch (ece Media.world0))) (mul32 10 2) /\
    reg (dev wm) RECT_DIMEN = rect_dimen (rect_tiles 20 20) /\
    Z.testbit (reg (dev wm) DDA_CTRL) 0 = true /\
    busy (dev wm) = latency (sample_dev 0) /\
    (forall a, a <> DDA_CTRL -> a <> RECT_XY -> a <> RECT_DIMEN ->
               reg (dev wm) a = reg (sample_dev 0) a).
Proof.
  apply (enc_rect_programs_rectangle 10 0 20 20 (sample_dev 0)
           (ece Media.world0) (ece Video.world0) [] []).
  reflexivity.
Defined.

(** ** Register helpers, further *)

Lemma testbit_not32 m n :
  0 <= n < 32 -> Z.testbit (not32 m) n = negb (Z.testbit m n).
Proof.
  intros Hn. unfold not32, u32.
  rewrite Z.mod_pow2_bits_low by lia. apply Z.lnot_spec. lia.
Qed.

(** X5.  [npcm750_ece_update_bits] is a read-modify-write that replaces
    exactly the bits under the mask: after it, each of the 32 bits of the
    register is the bit of [bits] where the mask has a 1 and the bit the
    register had where the mask has a 0.  It reads and writes the
    register once and touches no other register and no field of the
    driver struct.  (The status register, whose ready bit is cleared by
    writing a 1, is set apart.) *)
Theorem update_bits_masked (offset mask bits : Z)
    (w : World Media.npcm750_ece) :
  offset <> DDA_STS ->
  exists v w',
    run (Media.npcm750_ece_update_bits offset mask bits) w = Some (tt, w') /\
    log w' = log w ++ [EvRead offset (reg (dev w) offset); EvWrite offset v] /\
    reg (dev w') offset = v /\
    (forall n, 0 <= n < 32 ->
       Z.testbit v n = if Z.testbit mask n then Z.testbit bits n
                       else Z.testbit (reg (dev w) offset) n) /\
    (forall a, a <> offset -> reg (dev w') a = reg (dev w) a) /\
    ece w' = ece w.
Proof.
  intros Hoff. rewrite run_update_bits by exact Hoff.
  eexists _, _. split; [reflexivity|]. cbn [dev ece log].
  split; [reflexivity|]. split; [apply reg_hw_writel_eq, Hoff|].
  split; [|split; [|reflexivity]].
  - intros n Hn.
    rewrite Z.lor_spec, !Z.land_spec, testbit_not32 by exact Hn.
    destruct (Z.testbit mask n), (Z.testbit bits n),
      (Z.testbit (reg (dev w) offset) n); reflexivity.
  - intros a Ha. apply reg_hw_writel_ne. congruence.
Qed.

Lemma update_bits_masked_witness :
  exists v w',
    run (Media.npcm750_ece_update_bits HEX_CTRL 0x1f00 0x0700) Media.world0
      = Some (tt, w') /\
    log w' = log Media.world0
               ++ [EvRead HEX_CTRL (reg (dev Media.world0) HEX_CTRL);
                   EvWrite HEX_CTRL v] /\
    reg (dev w') HEX_CTRL = v /\
    (forall n, 0 <= n < 32 ->
       Z.testbit v n = if Z.testbit 0x1f00 n then Z.testbit 0x0700 n
                       else Z.testbit (reg (dev Media.world0) HEX_CTRL) n) /\
    (forall a, a <> HEX_CTRL -> reg (dev w') a = reg (dev Media.world0) a) /\
    ece w' = ece Media.world0.
Proof.
  apply (update_bits_masked HEX_CTRL 0x1f00 0x0700 Media.world0).
  discriminate.
Defined.

(** ** Open and release of the media driver *)

Lemma reg_engine_tick_other d a :
  a <> DDA_STS -> reg (engine_tick d) a = reg d a.
Proof.
  intros Ha. unfold engine_tick.
  destruct (busy d) as [|[|n]]; try reflexivity.
  unfold reg. cbn [regs]. rewrite lookup_insert_ne by congruence. reflexivity.
Qed.

(** The reset sequence of the media driver, run. *)
Lemma media_reset_run (w : World Media.npcm750_ece) :
  exists w' evs,
    run Media.npcm750_ece_reset w = Some (tt, w') /\
    ece w' = ece w /\
    log w' = log w ++ evs /\
    written evs = [DDA_CTRL; HEX_CTRL; DDA_CTRL; HEX_CTRL; HEX_RECT_OFFSET] /\
    Z.testbit (reg (dev w') DDA_CTRL) 0 = true /\
    Z.testbit (reg (dev w') HEX_CTRL) 0 = false /\
    reg (dev w') HEX_RECT_OFFSET = 0 /\
    busy (dev w') = busy (dev w) /\
    (forall n, 1 <= n < 32 ->
       Z.testbit (reg (dev w') HEX_CTRL) n
       = Z.testbit (reg (dev w) HEX_CTRL) n) /\
    (forall a, a <> DDA_CTRL -> a <> HEX_CTRL -> a <> HEX_RECT_OFFSET ->
               reg (dev w') a = reg (dev w) a).
Proof.
  unfold Media.npcm750_ece_reset.
  repeat (rewrite run_seq, run_update_bits by reg_neq; cbn beta iota zeta).
  unfold Media.npcm750_ece_clear_rect_offset, Media.npcm750_ece_write.
  run_step. eexists _, _. split; [reflexivity|]. cbn [dev ece log].
  log_simpl. reg_simpl.
  rewrite !busy_hw_writel by reg_neq.
  change Media.HEX_CTRL_ENCDIS with 1. change Media.DDA_CTRL_ECEEN with 1.
  repeat apply conj; try reflexivity.
  - rewrite Z.lor_spec. apply orb_true_r.
  - rewrite Z.lor_spec, !Z.land_spec, testbit_not32 by lia.
    rewrite andb_false_r. reflexivity.
  - intros n Hn.
    repeat rewrite ?Z.lor_spec, ?Z.land_spec, ?testbit_not32 by lia.
    replace (Z.testbit 1 n) with false
      by (symmetry; apply Z.bits_above_log2; cbn; lia).
    destruct (Z.testbit (reg (dev w) HEX_CTRL) n); reflexivity.
  - intros a H1 H2 H3. rewrite !reg_hw_writel_ne by congruence. reflexivity.
Qed.

Lemma written_app l1 l2 : written (l1 ++ l2) = written l1 ++ written l2.
Proof. apply omap_app. Qed.

Lemma media_open_run (w : World Media.npcm750_ece) :
  exists w', run Media.npcm750_ece_open w = Some (0, w') /\ media_opened w w'.
Proof.
  unfold media_opened, Media.npcm750_ece_open, Media.npcm750_ece_initialise.
  rewrite !run_seq.
  destruct (media_reset_run w)
    as (w1 & evs & -> & He & Hl & Hw & Hc & Hh & Ho & _ & _ & Hr).
  cbn beta iota. rewrite run_seq, media_clear_drs_run. cbn beta iota.
  unfold Media.npcm750_ece_set_enc_dba, Media.npcm750_ece_write.
  run_step. eexists. split; [reflexivity|]. cbn [dev ece log].
  reg_simpl.
  rewrite cdready_cleared by apply land_lor_same.
  rewrite !reg_engine_tick_other by reg_neq.
  rewrite (Hr FBR_BA), (Hr RESOL) by reg_neq.
  rewrite He, Hl. log_simpl.
  rewrite drop_app_length, written_app, Hw.
  repeat apply conj; try reflexivity; try assumption.
Qed.



Lemma legal_lp_gate pitch :
  legal_lp pitch -> lp_gate pitch = true /\ u32 pitch = pitch.
Proof. intros [->|[->|[->|[->| ->]]]]; split; reflexivity. Qed.

(** X7.  The line pitch of the struct and the one programmed into the
    engine can part: [open] of the media driver stores the default pitch
    into the struct without writing [RESOL].  After an
    [ECE_IOCSETLP] with a legal pitch and a later [open], the struct
    holds 2048 while the register still holds the code of the pitch set
    before; rectangle offsets are then computed with a pitch the engine
    was not given. *)
Theorem default_pitch_not_programmed (fuel : nat) (data : ece_ioctl_cmd)
    (out_ok : bool) (w : World Media.npcm750_ece) :
  legal_lp (Uapi.lp data) ->
  exists w1 w2,
    run (Media.npcm750_ece_ioctl fuel ECE_IOCSETLP
           (mk_uarg (Some data) out_ok)) w = Some ((0, NoReply), w1) /\
    Media.lin_pitch (ece w1) = Uapi.lp data /\
    lp_code (Uapi.lp data) = Some (reg (dev w1) RESOL) /\
    run Media.npcm750_ece_open w1 = Some (0, w2) /\
    Media.lin_pitch (ece w2) = DEFAULT_LP /\
    reg (dev w2) RESOL = reg (dev w1) RESOL /\
    (Uapi.lp data <> DEFAULT_LP ->
     lp_code (Media.lin_pitch (ece w2)) <> Some (reg (dev w2) RESOL)).
Proof.
  intros Hlegal.
  destruct (legal_lp_gate _ Hlegal) as [Hgate Hu].
  destruct (proj1 (lp_code_legal _) Hlegal) as [c Hc].
  unfold Media.npcm750_ece_ioctl. cbn [u_in].
  rewrite Hgate, Hu. unfold Media.npcm750_ece_set_lp. rewrite Hc.
  unfold Media.npcm750_ece_write, Media.unlock_return. run_step.
  eexists. 
  destruct (media_open_run
              (mk_world (hw_writel c RESOL (dev w))
                        (Media.set_lin_pitch (Uapi.lp data) (ece w))
                        (((log w ++ [EvLock]) ++ [EvWrite RESOL c])
                           ++ [EvUnlock])))
    as (w2 & Hrun & _ & _ & _ & _ & _ & He & _ & Hr & _).
  exists w2. split; [reflexivity|]. cbn [dev ece log] in *.
  rewrite Hrun, He, Hr, reg_hw_writel_eq by reg_neq.
  cbn [Media.lin_pitch Media.set_lin_pitch].
  repeat apply conj; try reflexivity.
  intros Hne E. change (lp_code DEFAULT_LP) with (Some LP_2048) in E.
  inversion E; subst c.
  unfold lp_code in Hc.
  repeat match type of Hc with
         | context [Z.eqb ?a ?b] => destruct (Z.eqb_spec a b)
         end; try discriminate Hc.
  apply Hne. assumption.
Qed.

Lemma default_pitch_not_programmed_witness :
  exists w1 w2,
    run (Media.npcm750_ece_ioctl 0 ECE_IOCSETLP
           (mk_uarg (Some (Uapi.mk_cmd 0 0 0 0 0 0 0 0 4096)) true))
        Media.world0 = Some ((0, NoReply), w1) /\
    Media.lin_pitch (ece w1) = 4096 /\
    lp_code 4096 = Some (reg (dev w1) RESOL) /\
    run Media.npcm750_ece_open w1 = Some (0, w2) /\
    Media.lin_pitch (ece w2) = DEFAULT_LP /\
    reg (dev w2) RESOL = reg (dev w1) RESOL /\
    (4096 <> DEFAULT_LP ->
     lp_code (Media.lin_pitch (ece w2)) <> Some (reg (dev w2) RESOL)).
Proof.
  apply (default_pitch_not_programmed 0
           (Uapi.mk_cmd 0 0 0 0 0 0 0 0 4096) true Media.world0).
  unfold legal_lp. cbn. lia.
Defined.

(** ** Set-up of the video driver *)

Lemma testbit_enc_gap n :
  Z.testbit ENC_GAP n = (8 <=? n) && (n <=? 12).
Proof.
  change ENC_GAP with (Z.shiftl (Z.ones 5) 8).
  destruct (Z.leb_spec 8 n); cbn [andb].
  - rewrite Z.shiftl_spec by lia.
    destruct (Z.leb_spec n 12).
    + apply Z.ones_spec_low. lia.
    + apply Z.ones_spec_high. lia.
  - destruct (Z.ltb_spec n 0).
    + apply Z.testbit_neg_r. lia.
    + apply Z.shiftl_spec_low. lia.
Qed.

(** The gap field is out of the reach of the reset sequence, which
    toggles bit 0 only. *)
Lemma gap_bits_toggle v :
  gap_bits (Z.land (Z.lor v 1) (not32 1)) = gap_bits v.
Proof.
  rewrite <- !gap_field_bits. f_equal.
  apply Z.bits_inj'. intros n Hn.
  rewrite !Z.land_spec, Z.lor_spec, testbit_enc_gap.
  destruct (Z.leb_spec 8 n); cbn [andb]; [|rewrite !andb_false_r; reflexivity].
  destruct (Z.leb_spec n 12); cbn [andb]; [|rewrite !andb_false_r; reflexivity].
  rewrite testbit_not32 by lia.
  replace (Z.testbit 1 n) with false
    by (symmetry; apply Z.bits_above_log2; cbn; lia).
  cbn [negb]. rewrite orb_false_r, !andb_true_r. reflexivity.
Qed.

Lemma gap_bits_range v : 0 <= gap_bits v <= 31.
Proof.
  unfold gap_bits.
  pose proof (Z.mod_pos_bound (v / 2 ^ 8) (2 ^ 5) ltac:(lia)). lia.
Qed.

Lemma gap_length_of_range v : 1 <= gap_length_of v <= 31.
Proof.
  unfold gap_length_of. pose proof (gap_bits_range v).
  destruct (Z.eqb_spec (gap_bits v) 0); lia.
Qed.

(** The reset sequence of the video driver, run. *)
Lemma video_reset_run (w : World Video.npcm750_ece) :
  exists w' evs,
    run Video.ece_reset w = Some (tt, w') /\
    ece w' = Video.set_enc_gap (gap_length_of (reg (dev w) HEX_CTRL)) (ece w) /\
    log w' = log w ++ evs /\
    written evs = [DDA_CTRL; DDA_CTRL; HEX_CTRL; HEX_CTRL; HEX_RECT_OFFSET] /\
    Z.testbit (reg (dev w') DDA_CTRL) 0 = true /\
    Z.testbit (reg (dev w') HEX_CTRL) 0 = false /\
    reg (dev w') HEX_RECT_OFFSET = 0 /\
    busy (dev w') = busy (dev w) /\
    (forall a, a <> DDA_CTRL -> a <> HEX_CTRL -> a <> HEX_RECT_OFFSET ->
               reg (dev w') a = reg (dev w) a).
Proof.
  unfold Video.ece_reset. run_step. reg_simpl. log_simpl.
  change ENCDIS with 1. change ECEEN with 1.
  rewrite gap_field_bits, gap_bits_toggle.
  cbn [Video.enc_gap Video.set_enc_gap].
  unfold gap_length_of.
  destruct (gap_bits (reg (dev w) HEX_CTRL) =? 0); run_step;
    (eexists _, _; split; [reflexivity|]); cbn [dev ece log];
    reg_simpl; rewrite !busy_hw_writel by reg_neq.
  all: repeat apply conj; try reflexivity.
  all: try (rewrite Z.lor_spec; apply orb_true_r).
  all: try (rewrite Z.land_spec, testbit_not32 by lia; apply andb_false_r).
  all: intros a H1 H2 H3; rewrite !reg_hw_writel_ne by congruence; reflexivity.
Qed.

Lemma video_initialise_first (w : World Video.npcm750_ece) :
  Video.initialised (ece w) = 0 ->
  exists w', run Video.ece_initialise w = Some (0, w') /\
             video_initialised w w'.
Proof.
  intros Hi. unfold Video.ece_initialise, video_initialised.
  run_step. rewrite Hi. cbn [Z.eqb].
  rewrite !run_seq.
  destruct (video_reset_run w)
    as (w1 & evs & -> & He & Hl & Hw & Hc & Hh & Ho & Hb & Hr).
  cbn beta iota. rewrite run_seq, video_clear_drs_run. cbn beta iota.
  run_step. eexists. split; [reflexivity|]. cbn [dev ece log].
  rewrite !reg_engine_tick_other by reg_neq. reg_simpl.
  rewrite !reg_engine_tick_other by reg_neq.
  rewrite (Hr FBR_BA), (Hr RESOL), (Hr ED_BA) by reg_neq.
  rewrite He, Hl. log_simpl.
  rewrite drop_app_length, written_app, Hw.
  cbn [Video.set_initialised Video.set_enc_gap Video.initialised
       Video.enc_gap Video.smem_len Video.smem_start Video.width
       Video.height Video.lin_pitch].
  pose proof (gap_length_of_range (reg (dev w) HEX_CTRL)).
  repeat apply conj; try reflexivity; try assumption; try lia.
Qed.


(** X9.  The probe of the video driver, once the resources are mapped,
    leaves the struct with the default geometry and line pitch (640 by
    640, pitch 2048) and marked as initialised, and the output base
    address programmed from [smem_start].  It writes neither the
    resolution register nor the frame-buffer address: the pitch of the
    struct is a default the engine has not been given, and the engine
    has no frame buffer, until the first [ECE_IOCSETLP] and
    [ECE_IOCSETFB]. *)
Theorem video_probe_defaults (w : World Video.npcm750_ece) :
  exists w',
    run Video.npcm750_ece_probe w = Some (0, w') /\
    Video.width (ece w') = DEFAULT_WIDTH /\
    Video.height (ece w') = DEFAULT_HEIGHT /\
    Video.lin_pitch (ece w') = DEFAULT_LP /\
    Video.initialised (ece w') <> 0 /\
    Video.smem_start (ece w') = Video.smem_start (ece w) /\
    Video.smem_len (ece w') = Video.smem_len (ece w) /\
    reg (dev w') ED_BA = Video.smem_start (ece w) /\
    reg (dev w') RESOL = reg (dev w) RESOL /\
    reg (dev w') FBR_BA = reg (dev w) FBR_BA /\
    ~ In RESOL (written (drop (length (log w)) (log w'))) /\
    ~ In FBR_BA (written (drop (length (log w)) (log w'))).
Proof.
  unfold Video.npcm750_ece_probe. rewrite run_seq.
  assert (exists w1,
            run Video.ece_initialise w = Some (0, w1) /\
            Video.initialised (ece w1) <> 0 /\
            Video.smem_start (ece w1) = Video.smem_start (ece w) /\
            Video.smem_len (ece w1) = Video.smem_len (ece w) /\
            reg (dev w1) RESOL = reg (dev w) RESOL /\
            reg (dev w1) FBR_BA = reg (dev w) FBR_BA /\
            ~ In RESOL (written (drop (length (log w)) (log w1))) /\
            ~ In FBR_BA (written (drop (length (log w)) (log w1))))
    as (w1 & Hrun & Hi & Hs & Hl & Hr & Hf & Hn1 & Hn2).
  { destruct (Z.eq_dec (Video.initialised (ece w)) 0) as [Hz|Hnz].
    - destruct (video_initialise_first w Hz)
        as (w1 & Hrun & He & _ & _ & _ & _ & _ & Hf & Hr & Hw).
      exists w1. rewrite He, Hw. cbn [Video.initialised Video.set_initialised
        Video.smem_start Video.smem_len Video.set_enc_gap In].
      repeat split; try assumption; try discriminate.
      all: intros H; decompose [or] H; try discriminate; assumption.
    - exists w. unfold Video.ece_initialise. run_step.
      apply Z.eqb_neq in Hnz. rewrite Hnz. run_step.
      split; [destruct w; reflexivity|].
      rewrite drop_all. cbn [written omap In].
      repeat split; try reflexivity; try tauto. apply Z.eqb_neq, Hnz. }
  rewrite Hrun. cbn beta iota.
  pose proof (run_log _ _ _ _ Hrun) as Hlog.
  unfold Video.ece_set_enc_dba. run_step.
  eexists. split; [reflexivity|]. cbn [dev ece log].
  cbn [Video.width Video.height Video.lin_pitch Video.initialised
       Video.smem_start Video.smem_len Video.set_width_height
       Video.set_lin_pitch].
  reg_simpl. rewrite Hlog, <- app_assoc, drop_app_length, written_app.
  repeat split; try assumption; try reflexivity.
  all: rewrite in_app_iff; cbn [written omap In];
    intros [H|[H|[]]]; try discriminate H; auto.
Qed.

(** ** Results of the ioctl entry points *)



(** X11.  A request that cannot be served accesses nothing.  When the
    command block cannot be copied in, the three commands of the media
    driver that take one, and every command of the video driver, known
    or not, fail with [-EFAULT] between taking and releasing the mutex.
    A command number that is not known is answered with 0 and without
    any access: by the media driver whatever the argument, by the video
    driver once the block has been copied in. *)
Theorem bad_request_untouched (fuel : nat) (cmd : ioctl_nr) (nr : Z)
    (data : ece_ioctl_cmd) (out_ok : bool) (args : uarg)
    (wm : World Media.npcm750_ece) (wv : World Video.npcm750_ece) :
  (media_takes_block cmd = true ->
   exists w',
     run (Media.npcm750_ece_ioctl fuel cmd (mk_uarg None out_ok)) wm
       = Some ((- EFAULT, NoReply), w') /\ untouched wm w') /\
  (exists w',
     run (Media.npcm750_ece_ioctl fuel (ECE_IOC_OTHER nr) args) wm
       = Some ((0, NoReply), w') /\ untouched wm w') /\
  (exists w',
     run (Video.drv_ioctl fuel cmd (mk_uarg None out_ok)) wv
       = Some ((- EFAULT, NoReply), w') /\ untouched wv w') /\
  (video_known cmd = false ->
   exists w',
     run (Video.drv_ioctl fuel cmd (mk_uarg (Some data) out_ok)) wv
       = Some ((0, NoReply), w') /\ untouched wv w').
Proof.
  unfold untouched, Media.npcm750_ece_ioctl, Video.drv_ioctl,
    Media.unlock_return, Video.unlock_return.
  cbn [u_in u_out_ok].
  repeat apply conj.
  - destruct cmd; try discriminate; intros _; run_step; log_simpl;
      eexists; repeat split.
  - run_step. log_simpl. eexists. repeat split.
  - run_step. log_simpl. eexists. repeat split.
  - destruct cmd; try discriminate; intros _; run_step; log_simpl;
      eexists; repeat split.
Qed.

Lemma bad_request_untouched_witness :
  (exists w',
     run (Media.npcm750_ece_ioctl 0 ECE_IOCGETED (mk_uarg None true))
         Media.world0
       = Some ((- EFAULT, NoReply), w') /\ untouched Media.world0 w') /\
  (exists w',
     run (Video.drv_ioctl 0 ECE_IOCGET_OFFSET
            (mk_uarg (Some (cmd_fb 0)) true)) Video.world0
       = Some ((0, NoReply), w') /\ untouched Video.world0 w').
Proof.
  split.
  - apply (bad_request_untouched 0 ECE_IOCGETED 0 (cmd_fb 0) true
             (mk_uarg None true) Media.world0 Video.world0).
    reflexivity.
  - apply (bad_request_untouched 0 ECE_IOCGET_OFFSET 0 (cmd_fb 0) true
             (mk_uarg None true) Media.world0 Video.world0).
    reflexivity.
Defined.

(** ** Setting the line pitch through the ioctl entry point *)

(** For a pitch that is an [int], the [switch] of the set routine decides
    alone: what passes the gate of the request and is supported is
    exactly what is supported. *)
Lemma lp_gate_code lp :
  - 2 ^ 31 <= lp < 2 ^ 31 ->
  (if lp_gate lp then lp_code (u32 lp) else None) = lp_code lp.
Proof.
  intros Hlp.
  destruct (lp_code lp) as [c|] eqn:Hc.
  - assert (legal_lp lp) as L by (apply lp_code_legal; eauto).
    destruct (legal_lp_gate lp L) as [-> ->]. exact Hc.
  - destruct (lp_gate lp); [|reflexivity].
    destruct (Z.ltb_spec lp 0).
    + unfold lp_code, u32.
      replace (lp mod 2 ^ 32) with (lp + 2 ^ 32)
        by (apply Z.mod_unique with (-1); lia).
      repeat match goal with
             | |- context [Z.eqb ?a ?b] => destruct (Z.eqb_spec a b); [lia|]
             end.
      reflexivity.
    + rewrite u32_small by (unfold is_u32; lia). exact Hc.
Qed.

(** X12.  [ECE_IOCSETLP] of the media driver succeeds for every pitch.
    One of the five supported pitches is stored in the struct and its
    code written to [RESOL], the only access to the device; any other
    [int], 0, a negative value or a multiple of 512 that is not
    supported among them, is passed over without any access and still
    answered with 0. *)
Theorem media_setlp_request (fuel : nat) (data : ece_ioctl_cmd)
    (out_ok : bool) (w : World Media.npcm750_ece) :
  - 2 ^ 31 <= Uapi.lp data < 2 ^ 31 ->
  exists w',
    run (Media.npcm750_ece_ioctl fuel ECE_IOCSETLP
           (mk_uarg (Some data) out_ok)) w = Some ((0, NoReply), w') /\
    match lp_code (Uapi.lp data) with
    | Some c =>
        ece w' = Media.set_lin_pitch (Uapi.lp data) (ece w) /\
        reg (dev w') RESOL = c /\
        log w' = log w ++ [EvLock; EvWrite RESOL c; EvUnlock]
    | None => untouched w w'
    end.
Proof.
  intros Hlp. pose proof (lp_gate_code _ Hlp) as G.
  unfold Media.npcm750_ece_ioctl, Media.npcm750_ece_set_lp,
    Media.npcm750_ece_write, Media.unlock_return, untouched.
  cbn [u_in].
  destruct (lp_code (Uapi.lp data)) as [c|] eqn:Hc.
  - assert (legal_lp (Uapi.lp data)) as L by (apply lp_code_legal; eauto).
    destruct (legal_lp_gate _ L) as [Hg Hu]. rewrite Hg, Hu, Hc.
    run_step. log_simpl. eexists. split; [reflexivity|].
    cbn [dev ece log]. reg_simpl. repeat split.
  - destruct (lp_gate (Uapi.lp data)); [rewrite G|];
      run_step; log_simpl; eexists; repeat split.
Qed.

Lemma media_setlp_request_witness :
  exists w',
    run (Media.npcm750_ece_ioctl 0 ECE_IOCSETLP
           (mk_uarg (Some (Uapi.mk_cmd 0 0 0 0 0 0 0 0 1536)) true))
        Media.world0 = Some ((0, NoReply), w') /\
    match lp_code 1536 with
    | Some c =>
        ece w' = Media.set_lin_pitch 1536 (ece Media.world0) /\
        reg (dev w') RESOL = c /\
        log w' = log Media.world0 ++ [EvLock; EvWrite RESOL c; EvUnlock]
    | None => untouched Media.world0 w'
    end.
Proof.
  apply (media_setlp_request 0 (Uapi.mk_cmd 0 0 0 0 0 0 0 0 1536) true
           Media.world0).
  cbn. lia.
Defined.

(** X13.  [ECE_IOCSETLP] of the video driver carries the geometry as
    well, and succeeds whatever it is given.  The pitch is handled as in
    the media driver: a supported pitch is stored and its code written
    to [RESOL], any other is passed over.  The width and the height of
    the command block, taken as [u32], are the width and the height of
    the struct afterwards; when either differs from what the struct
    held, and only then, the output base address is written again, from
    [smem_start]. *)
Theorem video_setlp_request (fuel : nat) (data : ece_ioctl_cmd)
    (out_ok : bool) (w : World Video.npcm750_ece) :
  - 2 ^ 31 <= Uapi.lp data < 2 ^ 31 ->
  exists w',
    run (Video.drv_ioctl fuel ECE_IOCSETLP (mk_uarg (Some data) out_ok)) w
      = Some ((0, NoReply), w') /\
    ece w' = Video.set_width_height (u32 (Uapi.w data)) (u32 (Uapi.h data))
               (match lp_code (Uapi.lp data) with
                | Some _ => Video.set_lin_pitch (Uapi.lp data) (ece w)
                | None => ece w
                end) /\
    written (drop (length (log w)) (log w'))
      = match lp_code (Uapi.lp data) with
        | Some _ => [RESOL]
        | None => []
        end
        ++ (if geometry_changed data (ece w) then [ED_BA] else []) /\
    (forall c, lp_code (Uapi.lp data) = Some c -> reg (dev w') RESOL = c) /\
    (lp_code (Uapi.lp data) = None -> reg (dev w') RESOL = reg (dev w) RESOL) /\
    reg (dev w') ED_BA
      = (if geometry_changed data (ece w) then Video.smem_start (ece w)
         else reg (dev w) ED_BA).
Proof.
  intros Hlp. pose proof (lp_gate_code _ Hlp) as G.
  unfold Video.drv_ioctl, Video.ece_set_lp, Video.ece_set_enc_dba,
    Video.unlock_return, geometry_changed.
  cbn [u_in].
  destruct (lp_code (Uapi.lp data)) as [c|] eqn:Hc.
  - assert (legal_lp (Uapi.lp data)) as L by (apply lp_code_legal; eauto).
    destruct (legal_lp_gate _ L) as [Hg Hu]. rewrite Hg, Hu, Hc.
    run_step.
    cbn [Video.width Video.height Video.set_lin_pitch].
    destruct (negb (u32 (Uapi.w data) =? Video.width (ece w))
              || negb (u32 (Uapi.h data) =? Video.height (ece w))) eqn:Hch;
      run_step; log_simpl; (eexists; split; [reflexivity|]);
      cbn [dev ece log]; rewrite drop_app_length; reg_simpl.
    + repeat split; try congruence.
    + apply orb_false_elim in Hch. destruct Hch as [H1 H2].
      apply negb_false_iff, Z.eqb_eq in H1, H2.
      repeat split; try congruence.
      rewrite H1, H2. destruct (ece w); reflexivity.
  - destruct (lp_gate (Uapi.lp data)); [rewrite G|];
      run_step;
      (destruct (negb (u32 (Uapi.w data) =? Video.width (ece w))
                 || negb (u32 (Uapi.h data) =? Video.height (ece w)))
         eqn:Hch);
      run_step; log_simpl; (eexists; split; [reflexivity|]);
      cbn [dev ece log]; rewrite drop_app_length; reg_simpl.
    1, 3: repeat split; try congruence.
    all: apply orb_false_elim in Hch; destruct Hch as [H1 H2];
      apply negb_false_iff, Z.eqb_eq in H1, H2;
      repeat split; try congruence;
      rewrite H1, H2; destruct (ece w); reflexivity.
Qed.

Lemma video_setlp_request_witness :
  exists w',
    run (Video.drv_ioctl 0 ECE_IOCSETLP
           (mk_uarg (Some (Uapi.mk_cmd 0 0 0 0 0 0 800 600 4096)) true))
        Video.world0
      = Some ((0, NoReply), w') /\
    ece w' = Video.set_width_height (u32 800) (u32 600)
               (match lp_code 4096 with
                | Some _ => Video.set_lin_pitch 4096 (ece Video.world0)
                | None => ece Video.world0
                end) /\
    written (drop (length (log Video.world0)) (log w'))
      = match lp_code 4096 with
        | Some _ => [RESOL]
        | None => []
        end
        ++ (if geometry_changed (Uapi.mk_cmd 0 0 0 0 0 0 800 600 4096)
                                (ece Video.world0)
            then [ED_BA] else []) /\
    (forall c, lp_code 4096 = Some c -> reg (dev w') RESOL = c) /\
    (lp_code 4096 = None ->
     reg (dev w') RESOL = reg (dev Video.world0) RESOL) /\
    reg (dev w') ED_BA
      = (if geometry_changed (Uapi.mk_cmd 0 0 0 0 0 0 800 600 4096)
                             (ece Video.world0)
         then Video.smem_start (ece Video.world0)
         else reg (dev Video.world0) ED_BA).
Proof.
  apply (video_setlp_request 0 (Uapi.mk_cmd 0 0 0 0 0 0 800 600 4096) true
           Video.world0).
  cbn. lia.
Defined.

(** ** The rectangle offset of the media driver *)

(** X14.  The two offset commands of the media driver.
    [ECE_IOCGET_OFFSET] reads [HEX_RECT_OFFSET] and copies the value
    out, changing nothing; when the copy faults the call fails with
    [-EFAULT] after the read.  [ECE_IOCCLEAR_OFFSET] writes 0 to the
    register and succeeds without looking at its argument.  A get that
    follows a clear reports 0. *)
Theorem media_offset_requests (fuel : nat) (args args' : uarg)
    (w : World Media.npcm750_ece) :
  (exists w',
     run (Media.npcm750_ece_ioctl fuel ECE_IOCGET_OFFSET args) w
       = Some (if u_out_ok args
               then (0, ReplyOffset (reg (dev w) HEX_RECT_OFFSET))
               else (- EFAULT, NoReply), w') /\
     dev w' = dev w /\ ece w' = ece w /\
     log w' = log w ++ [EvLock;
                        EvRead HEX_RECT_OFFSET (reg (dev w) HEX_RECT_OFFSET);
                        EvUnlock]) /\
  (exists w1 w2,
     run (Media.npcm750_ece_ioctl fuel ECE_IOCCLEAR_OFFSET args) w
       = Some ((0, NoReply), w1) /\
     reg (dev w1) HEX_RECT_OFFSET = 0 /\
     (forall a, a <> HEX_RECT_OFFSET -> reg (dev w1) a = reg (dev w) a) /\
     ece w1 = ece w /\
     log w1 = log w ++ [EvLock; EvWrite HEX_RECT_OFFSET 0; EvUnlock] /\
     run (Media.npcm750_ece_ioctl fuel ECE_IOCGET_OFFSET args') w1
       = Some (if u_out_ok args' then (0, ReplyOffset 0)
               else (- EFAULT, NoReply), w2)).
Proof.
  unfold Media.npcm750_ece_ioctl, Media.npcm750_ece_read_rect_offset,
    Media.npcm750_ece_clear_rect_offset, Media.npcm750_ece_read,
    Media.npcm750_ece_write, Media.unlock_return.
  split.
  - run_step. rewrite hw_polled_other by reg_neq.
    destruct (u_out_ok args); run_step; log_simpl;
      eexists; repeat split.
  - run_step. reg_simpl. log_simpl.
    destruct (u_out_ok args'); run_step;
      (eexists _, _; split; [reflexivity|]); cbn [dev ece log];
      reg_simpl; (repeat apply conj; try reflexivity);
      intros a Ha; apply reg_hw_writel_ne; congruence.
Qed.

(** ** An encode request from end to end *)

(** The decode reads the buffer only: it gives the same on devices that
    agree on the buffer and on the count of loads. *)
Lemma decode_at_ext d1 d2 off :
  ed_mem d1 = ed_mem d2 -> loads d1 = loads d2 ->
  decode_at d1 off = decode_at d2 off.
Proof.
  intros Hm Hl. unfold decode_at, ed_byte, hw_loaded.
  cbn [ed_mem loads]. rewrite Hm, Hl. reflexivity.
Qed.

Lemma reg_loaded4 d a : reg (loaded4 d) a = reg d a.
Proof. reflexivity. Qed.

Lemma busy_loaded4 d : busy (loaded4 d) = busy d.
Proof. reflexivity. Qed.

Lemma written_polls n s : written (polls n s) = [].
Proof. induction n as [|n IH]; [reflexivity | exact IH]. Qed.

Lemma written_rounds d k : written (rounds d k) = [].
Proof.
  revert d. induction k as [|k IH]; intros d; [reflexivity|].
  cbn [rounds]. rewrite written_app, IH. reflexivity.
Qed.

Lemma media_enc_rect_effect x y w h (wd : World Media.npcm750_ece) :
  exists w' evs,
    run (Media.npcm750_ece_enc_rect x y w h) wd = Some (tt, w') /\
    ece w' = ece wd /\
    log w' = log wd ++ evs /\
    written evs = [DDA_CTRL; DDA_CTRL; RECT_XY; RECT_DIMEN] /\
    rect_programmed x y w h (Media.lin_pitch (ece wd)) (dev wd) (dev w').
Proof.
  unfold Media.npcm750_ece_enc_rect, Media.npcm750_ece_fifo_reset_bypass,
    Media.npcm750_ece_update_bits, Media.npcm750_ece_write, rect_programmed.
  run_step. log_simpl. eexists _, _. split; [reflexivity|].
  cbn [dev ece log]. reg_simpl.
  repeat apply conj; try reflexivity.
  - rewrite Z.lor_spec. apply orb_true_r.
  - intros a H1 H2 H3. rewrite !reg_hw_writel_ne by congruence. reflexivity.
Qed.

Lemma video_enc_rect_effect x y w h (wd : World Video.npcm750_ece) :
  exists w' evs,
    run (Video.ece_enc_rect x y w h) wd = Some (tt, w') /\
    ece w' = ece wd /\
    log w' = log wd ++ evs /\
    written evs = [DDA_CTRL; DDA_CTRL; RECT_XY; RECT_DIMEN] /\
    rect_programmed x y w h (Video.lin_pitch (ece wd)) (dev wd) (dev w').
Proof.
  unfold Video.ece_enc_rect, Video.fifo_reset_bypass, rect_programmed.
  run_step. log_simpl. eexists _, _. split; [reflexivity|].
  cbn [dev ece log]. reg_simpl.
  repeat apply conj; try reflexivity.
  - rewrite Z.lor_spec. apply orb_true_r.
  - intros a H1 H2 H3. rewrite !reg_hw_writel_ne by congruence. reflexivity.
Qed.




Lemma round_size_ext d1 d2 j :
  ed_mem d1 = ed_mem d2 -> loads d1 = loads d2 ->
  round_size d1 j = round_size d2 j.
Proof.
  revert d1 d2. induction j as [|j IH]; intros d1 d2 Hm Hl.
  - apply decode_at_ext; assumption.
  - rewrite !round_size_S. apply IH; cbn [loaded4 hw_loaded ed_mem loads];
      congruence.
Qed.

(** The wait, the rounds of the decode and the clear of the video driver
    on an engine that is [n + 1] polls from completion. *)
Lemma video_get_ed_size_effect n fuel (w : World Video.npcm750_ece) :
  busy (dev w) = S n -> Z.land (reg (dev w) DDA_STS) CDREADY = 0 ->
  (S n < fuel)%nat -> (30 <= fuel)%nat ->
  exists k w' evs, (1 <= k <= 30)%nat /\
    run (Video.ece_get_ed_size fuel) w
      = Some (round_size (dev w) (k - 1), w') /\
    (forall j, (j < k - 1)%nat -> round_size (dev w) j = 0) /\
    (round_size (dev w) (k - 1) <> 0 \/ k = 30%nat) /\
    ece w' = ece w /\
    log w' = log w ++ evs /\
    written evs = [DDA_STS] /\
    Z.land (reg (dev w') DDA_STS) CDREADY = 0 /\
    loads (dev w') = (4 * k + loads (dev w))%nat /\
    (forall a, a <> DDA_STS -> reg (dev w') a = reg (dev w) a).
Proof.
  intros Hb Hs Hf H30. unfold Video.ece_get_ed_size.
  rewrite run_seq, (video_wait_busy _ _ _ Hb Hs Hf).
  destruct (video_read_ed_size_run 29 fuel 0
              (mk_world (dev_ready (dev w)) (ece w)
                 (log w ++ polls (S n) (reg (dev w) DDA_STS)
                    ++ [EvRead DDA_STS (Z.lor (reg (dev w) DDA_STS) CDREADY)])))
    as (k & Hk & Hrun & Hzero & Hlast); [reflexivity | lia |].
  cbn [dev ece log] in Hrun, Hzero, Hlast.
  rewrite run_bind, Hrun, run_seq, video_clear_drs_run. run_step.
  assert (Hext : forall j, round_size (dev_ready (dev w)) j
                           = round_size (dev w) j)
    by (intros j; apply round_size_ext; reflexivity).
  rewrite Hext in *.
  exists k. eexists _, _. split; [exact Hk|]. split; [reflexivity|].
  cbn [dev ece log].
  split; [intros j Hj; rewrite <- Hext; apply Hzero, Hj|].
  split; [exact Hlast|]. split; [reflexivity|].
  split; [rewrite <- !app_assoc; reflexivity|].
  rewrite !written_app, written_polls, written_rounds.
  rewrite !engine_tick_round_dev_idle by reflexivity.
  rewrite (engine_tick_idle (hw_writel _ _ _))
    by (rewrite busy_hw_writel, busy_round_dev by reg_neq; reflexivity).
  repeat apply conj; try reflexivity.
  - rewrite reg_hw_writel_sts, !reg_round_dev, !reg_dev_ready_sts.
    rewrite cdready_raised. apply land_not32_same.
  - rewrite loads_hw_writel, loads_round_dev. reflexivity.
  - intros a Ha. rewrite reg_hw_writel_ne by congruence.
    rewrite reg_round_dev. apply reg_dev_ready_other. exact Ha.
Qed.

(** X16.  An encode request of the video driver, from end to end, on an
    engine that completes after [n + 1] polls: the request programs the
    rectangle, waits, decodes the size at the start of the output buffer
    in [k] rounds, at most 30, stopping at the first that is not 0,
    clears the ready bit and the rectangle offset, and answers with the
    gap length (4 for a field of 0) and the size of the last round.  It
    leaves the frame-buffer address, the resolution and the output base
    address as they were.  When the command block cannot be copied out
    the call fails with [-EFAULT], after the same work on the device. *)
Theorem video_encode_request (n fuel : nat) (data : ece_ioctl_cmd)
    (out_ok : bool) (w : World Video.npcm750_ece) :
  latency (dev w) = S n -> Z.land (reg (dev w) DDA_STS) CDREADY = 0 ->
  (S n < fuel)%nat -> (30 <= fuel)%nat ->
  exists k w', (1 <= k <= 30)%nat /\
    run (Video.drv_ioctl fuel ECE_IOCGETED (mk_uarg (Some data) out_ok)) w
      = Some (encode_reply out_ok (gap_length_of (reg (dev w) HEX_CTRL))
                (le32_at (round_dev (dev w) (k - 1)) 0) data, w') /\
    (forall j, (j < k - 1)%nat -> le32_at (round_dev (dev w) j) 0 = 0) /\
    (le32_at (round_dev (dev w) (k - 1)) 0 <> 0 \/ k = 30%nat) /\
    video_encoded data k w w'.
Proof.
  intros Hb Hs Hf H30. unfold Video.drv_ioctl. cbn [u_in u_out_ok].
  unfold Video.ece_clear_rect_offset, Video.unlock_return.
  run_step. rewrite run_seq.
  match goal with |- context [run (Video.ece_enc_rect ?x ?y ?w ?h) ?wd] =>
    destruct (video_enc_rect_effect x y w h wd)
      as (w1 & evs1 & -> & He1 & Hl1 & Hw1
          & Hxy & Hdim & Hen & Hbusy & Hlat & Hmem & Hloads & Hfr1)
  end.
  cbn [dev ece log] in *. cbn beta iota. rewrite run_bind.
  destruct (video_get_ed_size_effect n fuel w1)
    as (k & w2 & evs2 & Hk & -> & Hzero & Hlast & He2 & Hl2 & Hw2 & Hclr
        & Hld & Hfr2);
    [congruence | rewrite Hfr1 by reg_neq; exact Hs | exact Hf | exact H30 |].
  cbn beta iota. run_step.
  cbn [Video.enc_gap Video.set_enc_gap].
  rewrite gap_field_bits. reg_simpl.
  rewrite (Hfr2 HEX_CTRL), (Hfr1 HEX_CTRL) by reg_neq.
  assert (Hext : forall j, round_size (dev w1) j
                           = le32_at (round_dev (dev w) j) 0).
  { intros j. rewrite (round_size_ext (dev w1) (dev w)) by assumption.
    unfold round_size. apply decode_at_le32. }
  rewrite Hext in *.
  exists k.
  unfold encode_reply, video_encoded, gap_length_of.
  destruct (gap_bits (reg (dev w) HEX_CTRL) =? 0); destruct out_ok;
    run_step; cbn [Video.enc_gap Video.set_enc_gap];
    (eexists; split; [exact Hk|]; split; [reflexivity|]);
    (split; [intros j Hj; rewrite <- Hext; apply Hzero, Hj|]);
    (split; [exact Hlast|]); cbn [dev ece log].
  all: rewrite Hl2, Hl1, He2, He1; rewrite <- ?app_assoc.
  all: rewrite drop_app_length.
  all: rewrite !written_app, Hw1, Hw2.
  all: reg_simpl; rewrite !Hfr2 by reg_neq.
  all: rewrite loads_hw_writel, Hld, Hloads.
  all: repeat apply conj; try assumption; try reflexivity.
  all: try (destruct (ece w); reflexivity).
  all: try (rewrite reg_hw_writel_ne by reg_neq; assumption).
  all: intros a H1 H2 H3 H4 H5;
    rewrite reg_hw_writel_ne, Hfr2, Hfr1 by congruence; reflexivity.
Qed.

Lemma video_encode_request_witness :
  exists k w', (1 <= k <= 30)%nat /\
    run (Video.drv_ioctl 30 ECE_IOCGETED
           (mk_uarg (Some (cmd_rect 0 0 640 640)) true)) world_gap7
      = Some (encode_reply true
                (gap_length_of (reg (dev world_gap7) HEX_CTRL))
                (le32_at (round_dev (dev world_gap7) (k - 1)) 0)
                (cmd_rect 0 0 640 640), w') /\
    (forall j, (j < k - 1)%nat ->
               le32_at (round_dev (dev world_gap7) j) 0 = 0) /\
    (le32_at (round_dev (dev world_gap7) (k - 1)) 0 <> 0 \/ k = 30%nat) /\
    video_encoded (cmd_rect 0 0 640 640) k world_gap7 w'.
Proof.
  apply (video_encode_request 1 30 (cmd_rect 0 0 640 640) true world_gap7);
    [reflexivity | reflexivity | lia | lia].
Defined.

(** ** What holds between requests *)

Section WhenFree.
Context {St A : Type}.
Implicit Types (ps : list (Prog St A)) (J : Device -> St -> Prop).

Lemma seq_run_preserves J ps order w rs w' :
  Forall (preserves J) ps ->
  J (dev w) (ece w) -> seq_run ps order w = Some (rs, w') ->
  J (dev w') (ece w').
Proof.
  intros Hps. revert w rs.
  induction order as [|i order IH]; intros w rs Hw; cbn [seq_run].
  - intros [= <- <-]. exact Hw.
  - destruct (ps !! i) as [p|] eqn:Hp; [|discriminate].
    destruct (run p w) as [[a w1]|] eqn:Hrun; [|discriminate].
    destruct (seq_run ps order w1) as [[rs' w2]|] eqn:Hseq; [|discriminate].
    intros [= <- <-].
    apply (IH w1 rs'); [|exact Hseq].
    exact (proj1 (Forall_lookup _ _) Hps i p Hp w a w1 Hw Hrun).
Qed.

(** Callers that keep to the three stages, each of which keeps [J] when
    run alone, keep [J] at every instant at which the mutex is free. *)
Lemma preserved_when_free J ps d e :
  Forall Outside ps -> Forall (preserves J) ps -> J d e ->
  holds_when_free J ps d e.
Proof.
  intros Hout Hps Hde sched Hfree.
  destruct (outside_sequential ps d e sched Hout)
    as (order & results & w_seq & Hseq & Hst).
  destruct Hst as (_ & _ & _ & _ & Hw). rewrite Hfree in Hw.
  pose proof (seq_run_preserves J ps order (mk_world d e []) _ _
                Hps Hde Hseq) as HJ.
  rewrite <- Hw in HJ. exact HJ.
Qed.

End WhenFree.

(** *** The loops leave the configuration alone *)

Lemma media_wait_frame fuel (w w' : World Media.npcm750_ece) :
  run (Media.wait_rect_compressed fuel) w = Some (tt, w') ->
  ece w' = ece w /\
  (forall a, a <> DDA_STS -> reg (dev w') a = reg (dev w) a).
Proof.
  revert w. induction fuel as [|fuel IH]; intros w; [discriminate|].
  destruct (cdready_test (reg (dev w) DDA_STS)) as [H|H].
  - rewrite media_wait_again by exact H. intros Hr.
    apply IH in Hr. cbn [dev ece] in Hr. destruct Hr as [He Hf].
    split; [exact He|]. intros a Ha.
    rewrite Hf by exact Ha. apply reg_engine_tick_other, Ha.
  - rewrite media_wait_ready by (rewrite H; reg_neq).
    intros [= <-]. cbn [dev ece]. split; [reflexivity|].
    intros a Ha. apply reg_engine_tick_other, Ha.
Qed.

Lemma media_get_ed_size_frame fuel offset (w w' : World Media.npcm750_ece) sz :
  run (Media.npcm750_ece_get_ed_size fuel offset) w = Some (sz, w') ->
  ece w' = ece w /\
  (forall a, a <> DDA_STS -> reg (dev w') a = reg (dev w) a).
Proof.
  destruct (run (Media.wait_rect_compressed fuel) w) as [[[] w1]|] eqn:E.
  - rewrite (media_get_ed_size_run _ _ _ _ E). intros [= <- <-].
    destruct (media_wait_frame _ _ _ E) as [He Hf]. cbn [dev ece].
    split; [exact He|]. intros a Ha.
    rewrite reg_hw_writel_ne, reg_engine_tick_other, reg_loaded4
      by congruence.
    apply Hf, Ha.
  - rewrite (media_get_ed_size_blocked _ _ _ E). discriminate.
Qed.

Lemma video_wait_frame fuel (w w' : World Video.npcm750_ece) :
  run (Video.wait_rect_compressed fuel) w = Some (tt, w') ->
  ece w' = ece w /\
  (forall a, a <> DDA_STS -> reg (dev w') a = reg (dev w) a).
Proof.
  revert w. induction fuel as [|fuel IH]; intros w; [discriminate|].
  destruct (cdready_test (reg (dev w) DDA_STS)) as [H|H].
  - rewrite video_wait_again by exact H. intros Hr.
    apply IH in Hr. cbn [dev ece] in Hr. destruct Hr as [He Hf].
    split; [exact He|]. intros a Ha.
    rewrite Hf by exact Ha. apply reg_engine_tick_other, Ha.
  - rewrite video_wait_ready by (rewrite H; reg_neq).
    intros [= <-]. cbn [dev ece]. split; [reflexivity|].
    intros a Ha. apply reg_engine_tick_other, Ha.
Qed.

Lemma video_read_ed_size_frame fuel count (w w' : World Video.npcm750_ece) sz :
  run (Video.read_ed_size fuel count) w = Some (sz, w') ->
  ece w' = ece w /\ (forall a, reg (dev w') a = reg (dev w) a).
Proof.
  revert count w. induction fuel as [|fuel IH]; intros count w;
    [discriminate|].
  rewrite video_read_ed_size_round. cbn zeta.
  destruct ((decode_at (dev w) 0 =? 0) && (count + 1 <? 30)).
  - intros Hr. apply IH in Hr. exact Hr.
  - intros [= <- <-]. split; reflexivity.
Qed.

Lemma video_get_ed_size_frame fuel (w w' : World Video.npcm750_ece) sz :
  run (Video.ece_get_ed_size fuel) w = Some (sz, w') ->
  ece w' = ece w /\
  (forall a, a <> DDA_STS -> reg (dev w') a = reg (dev w) a).
Proof.
  unfold Video.ece_get_ed_size. rewrite run_seq.
  destruct (run (Video.wait_rect_compressed fuel) w) as [[[] w1]|] eqn:E;
    [|discriminate].
  rewrite run_bind.
  destruct (run (Video.read_ed_size fuel 0) w1) as [[sz' w2]|] eqn:E2;
    [|discriminate].
  rewrite run_seq, video_clear_drs_run. run_step. intros [= <- <-].
  destruct (video_wait_frame _ _ _ E) as [He Hf].
  destruct (video_read_ed_size_frame _ _ _ _ _ E2) as [He2 Hf2].
  cbn [dev ece]. split; [congruence|]. intros a Ha.
  rewrite reg_engine_tick_other, reg_hw_writel_ne, reg_engine_tick_other
    by congruence.
  rewrite Hf2. apply Hf, Ha.
Qed.

(** *** Every request keeps the configuration mirrored *)

Lemma media_ioctl_preserves fuel cmd args :
  preserves (mirrored Media.comp_start Media.lin_pitch)
            (Media.npcm750_ece_ioctl fuel cmd args).
Proof.
  intros w r w' [Hed Hlp]. unfold mirrored, Media.npcm750_ece_ioctl.
  destruct cmd; try destruct (u_in args) as [data|];
    unfold Media.npcm750_ece_clear_rect_offset,
      Media.npcm750_ece_read_rect_offset, Media.npcm750_ece_read,
      Media.npcm750_ece_set_fb_addr, Media.npcm750_ece_write,
      Media.npcm750_ece_set_lp, Media.unlock_return.
  (* the encode request *)
  1: { run_step. rewrite hw_polled_other by reg_neq. rewrite run_seq.
       match goal with
       | |- context [run (Media.npcm750_ece_enc_rect ?x ?y ?w ?h) ?wd] =>
           destruct (media_enc_rect_effect x y w h wd)
             as (w1 & evs1 & -> & He1 & _ & _ & _ & _ & _ & _ & _ & _ & _ & Hfr1)
       end.
       cbn [dev ece log] in *. cbn beta iota. rewrite run_bind.
       match goal with
       | |- context [run (Media.npcm750_ece_get_ed_size ?f ?o) ?wd] =>
           destruct (run (Media.npcm750_ece_get_ed_size f o) wd)
             as [[sz w2]|] eqn:E; [|discriminate]
       end.
       destruct (media_get_ed_size_frame _ _ _ _ _ E) as [He2 Hf2].
       run_step. cbn [Media.enc_gap Media.set_enc_gap].
       rewrite hw_polled_other by reg_neq.
       repeat match goal with
              | |- context [if ?c then _ else _] => destruct c; run_step
              end;
         intros [= <- <-]; cbn [dev ece Media.comp_start Media.lin_pitch
                                 Media.set_enc_gap];
         rewrite !Hf2, !Hfr1, He2, He1 by reg_neq; split; assumption. }
  all: repeat match goal with
              | |- context [match lp_code ?x with _ => _ end] =>
                  destruct (lp_code x) eqn:?
              | |- context [if ?c then _ else _] => destruct c
              end;
    run_step; intros [= <- <-];
    cbn [dev ece Media.comp_start Media.lin_pitch Media.set_lin_pitch];
    rewrite ?hw_polled_other by reg_neq; reg_simpl;
    split; assumption.
Qed.

Lemma video_ioctl_preserves fuel cmd args :
  preserves (mirrored Video.smem_start Video.lin_pitch)
            (Video.drv_ioctl fuel cmd args).
Proof.
  intros w r w' [Hed Hlp]. unfold mirrored, Video.drv_ioctl.
  destruct (u_in args) as [data|];
    [|unfold Video.unlock_return; run_step; intros [= <- <-];
      split; assumption].
  destruct cmd;
    unfold Video.ece_clear_rect_offset, Video.ece_set_fb_addr,
      Video.ece_set_lp, Video.ece_set_enc_dba, Video.unlock_return.
  (* the encode request *)
  1: { run_step. rewrite run_seq.
       match goal with
       | |- context [run (Video.ece_enc_rect ?x ?y ?w ?h) ?wd] =>
           destruct (video_enc_rect_effect x y w h wd)
             as (w1 & evs1 & -> & He1 & _ & _ & _ & _ & _ & _ & _ & _ & _ & Hfr1)
       end.
       cbn [dev ece log] in *. cbn beta iota. rewrite run_bind.
       match goal with
       | |- context [run (Video.ece_get_ed_size ?f) ?wd] =>
           destruct (run (Video.ece_get_ed_size f) wd)
             as [[sz w2]|] eqn:E; [|discriminate]
       end.
       destruct (video_get_ed_size_frame _ _ _ _ E) as [He2 Hf2].
       run_step. cbn [Video.enc_gap Video.set_enc_gap].
       rewrite hw_polled_other by reg_neq.
       repeat match goal with
              | |- context [if ?c then _ else _] => destruct c; run_step
              end;
         intros [= <- <-]; cbn [dev ece Video.smem_start Video.lin_pitch
                                 Video.set_enc_gap];
         reg_simpl;
         rewrite !Hf2, !Hfr1, He2, He1 by reg_neq; split; assumption. }
  all: repeat match goal with
              | |- context [match lp_code ?x with _ => _ end] =>
                  destruct (lp_code x) eqn:?
              | |- context [if lp_gate ?c then _ else _] =>
                  destruct (lp_gate c)
              | |- context [if Uapi.framebuf ?c =? 0 then _ else _] =>
                  destruct (Uapi.framebuf c =? 0)
              end;
    run_step;
    repeat match goal with
           | |- context [if ?c then _ else _] => destruct c; run_step
           end;
    intros [= <- <-];
    cbn [dev ece Video.smem_start Video.lin_pitch Video.set_lin_pitch
         Video.set_width_height];
    rewrite ?hw_polled_other by reg_neq; reg_simpl;
    split; first [assumption | reflexivity].
Qed.

(** X17.  Between requests the configuration of the engine mirrors the
    struct.  If the output base address is the start of the output
    buffer and the resolution register holds the code of the line pitch
    of the struct, then, whatever requests the callers of the ioctl
    entry point make and however they are scheduled, both hold again at
    every instant at which the mutex is free.  (A request in flight may
    have stored a pitch it has not yet programmed; and [open] of the
    media driver, which takes no mutex, stores the default pitch without
    programming it.) *)
Theorem config_mirrored_when_free (fuel : nat)
    (reqs : list (ioctl_nr * uarg)) (d : Device)
    (em : Media.npcm750_ece) (ev : Video.npcm750_ece) :
  (mirrored Media.comp_start Media.lin_pitch d em ->
   holds_when_free (mirrored Media.comp_start Media.lin_pitch)
     (callers Media.npcm750_ece_ioctl fuel reqs) d em) /\
  (mirrored Video.smem_start Video.lin_pitch d ev ->
   holds_when_free (mirrored Video.smem_start Video.lin_pitch)
     (callers Video.drv_ioctl fuel reqs) d ev).
Proof.
  split; intros H; apply preserved_when_free; try exact H;
    apply Forall_map, Forall_forall; intros r _.
  - apply media_ioctl_outside.
  - apply media_ioctl_preserves.
  - apply video_ioctl_outside.
  - apply video_ioctl_preserves.
Qed.

Lemma config_mirrored_when_free_witness :
  mirrored Media.comp_start Media.lin_pitch
    (cdev (interleave (repeat 1%nat 40 ++ repeat 0%nat 10)
             (start (callers Media.npcm750_ece_ioctl 4 sample_reqs)
                    sample_dev_configured (ece Media.world0))))
    (cece (interleave (repeat 1%nat 40 ++ repeat 0%nat 10)
             (start (callers Media.npcm750_ece_ioctl 4 sample_reqs)
                    sample_dev_configured (ece Media.world0)))) /\
  mirrored Video.smem_start Video.lin_pitch
    (cdev (interleave (repeat 0%nat 10 ++ repeat 1%nat 80)
             (start (callers Video.drv_ioctl 30 sample_reqs)
                    sample_dev_configured (ece Video.world0))))
    (cece (interleave (repeat 0%nat 10 ++ repeat 1%nat 80)
             (start (callers Video.drv_ioctl 30 sample_reqs)
                    sample_dev_configured (ece Video.world0)))).
Proof.
  split.
  - apply (proj1 (config_mirrored_when_free 4 sample_reqs
                    sample_dev_configured
                    (ece Media.world0) (ece Video.world0))).
    + split; vm_compute; reflexivity.
    + vm_compute. reflexivity.
  - apply (proj2 (config_mirrored_when_free 30 sample_reqs
                    sample_dev_configured
                    (ece Media.world0) (ece Video.world0))).
    + split; vm_compute; reflexivity.
    + vm_compute. reflexivity.
Defined.

(** The sample requests have both returned by then, and the engine holds
    the pitch of the first. *)
Example config_mirrored_sample :
  let c := interleave (repeat 1%nat 40 ++ repeat 0%nat 10)
             (start (callers Media.npcm750_ece_ioctl 4 sample_reqs)
                    sample_dev_configured (ece Media.world0)) in
  threads c = [Ret (0, NoReply);
               Ret (0, ReplyCmd (Uapi.mk_cmd 0 4 0 0x01020304 0 0 16 16 0))] /\
  Media.lin_pitch (cece c) = 4096 /\
  reg (cdev c) RESOL = LP_4096.
Proof. cbn zeta. split; [|split]; vm_compute; reflexivity. Qed.

(** ** The reach of a request *)









(** ** Set-up of the platform device *)

Lemma is_err_negative p :
  is_u32 p -> Platform.IS_ERR p = true ->
  - Platform.MAX_ERRNO <= Platform.PTR_ERR p < 0.
Proof.
  unfold Platform.IS_ERR, Platform.PTR_ERR, s32, is_u32.
  intros Hp H. apply Z.leb_le in H.
  assert (E : u32 (- Platform.MAX_ERRNO) = 4294963201) by reflexivity.
  rewrite E in H. unfold Platform.MAX_ERRNO.
  cbn zeta. rewrite (u32_small p) by exact Hp.
  destruct (Z.ltb_spec p (2 ^ 31)); lia.
Qed.

(** X20.  What [npcm750_ece_device_create] reports, whatever the kernel
    answers.  It returns a negative value in three cases only: the
    device number, the adding of the cdev, or the creation of the class
    has failed.  A [kmalloc] that returns [NULL] and a [device_create]
    that returns an error are not reported: the function returns what
    the last call before returned, 0 for a success, in the first case
    with the struct untouched.  The cdev it allocates is never stored in
    the struct and never freed: on every path [kfree] is given [NULL],
    if anything. *)
Theorem device_create_reports (k : Platform.kernel)
    (e : Platform.npcm750_ece) :
  is_u32 (Platform.class_create k) ->
  ((Platform.npcm750_ece_device_create k e).1.1 < 0 <->
     ((Platform.alloc_chrdev_region k).1 < 0 \/
      (0 <= (Platform.alloc_chrdev_region k).1 /\ Platform.kmalloc k <> 0 /\
       (Platform.cdev_add k < 0 \/
        (0 <= Platform.cdev_add k /\
         Platform.IS_ERR (Platform.class_create k) = true))))) /\
  (0 <= (Platform.alloc_chrdev_region k).1 -> Platform.kmalloc k = 0 ->
   Platform.npcm750_ece_device_create k e
   = ((Platform.alloc_chrdev_region k).1, e, [0])) /\
  (0 <= (Platform.alloc_chrdev_region k).1 -> Platform.kmalloc k <> 0 ->
   0 <= Platform.cdev_add k ->
   Platform.IS_ERR (Platform.class_create k) = false ->
   Platform.IS_ERR (Platform.device_create k) = true ->
   (Platform.npcm750_ece_device_create k e).1.1 = Platform.cdev_add k /\
   Platform.dev (Platform.npcm750_ece_device_create k e).1.2 = 0 /\
   (Platform.npcm750_ece_device_create k e).2 = []) /\
  Forall (fun p => p = 0) (Platform.npcm750_ece_device_create k e).2 /\
  Platform.dev_cdevp (Platform.npcm750_ece_device_create k e).1.2
    = Platform.dev_cdevp e.
Proof.
  intros Hc. unfold Platform.npcm750_ece_device_create.
  destruct (Platform.alloc_chrdev_region k) as [ret devt]. cbn [fst snd].
  unfold Platform.device_create_err.
  destruct (Z.ltb_spec ret 0); cbn [fst snd].
  { destruct (Z.eqb_spec (Platform.dev_cdevp e) 0) as [->|];
      repeat split; try lia; auto. }
  destruct (Z.eqb_spec (Platform.kmalloc k) 0) as [E|E]; cbn [fst snd].
  { rewrite E. repeat split; try lia; auto. }
  destruct (Z.ltb_spec (Platform.cdev_add k) 0); cbn [fst snd].
  { repeat split; try lia; auto. }
  cbn [Platform.ece_class Platform.set_ece_class].
  destruct (Platform.IS_ERR (Platform.class_create k)) eqn:Ec; cbn [fst snd].
  { pose proof (is_err_negative _ Hc Ec).
    repeat split; try lia; try discriminate; auto. }
  cbn [Platform.dev Platform.set_dev].
  destruct (Platform.IS_ERR (Platform.device_create k)); cbn [fst snd];
    repeat split; try lia; try discriminate; auto;
    intuition (try lia; try discriminate).
Qed.

Lemma device_create_reports_witness :
  Platform.npcm750_ece_device_create Platform.without_cdev Platform.zeroed
  = (0, Platform.zeroed, [0]).
Proof.
  apply (device_create_reports Platform.without_cdev Platform.zeroed).
  - vm_compute. split; congruence.
  - vm_compute. congruence.
  - reflexivity.
Defined.

Lemma device_create_freed k e :
  Forall (fun p => p = 0) (Platform.npcm750_ece_device_create k e).2.
Proof.
  unfold Platform.npcm750_ece_device_create, Platform.device_create_err.
  destruct (Platform.alloc_chrdev_region k) as [ret devt].
  repeat match goal with
         | |- context [if ?c =? 0 then _ else _] => destruct (Z.eqb_spec c 0)
         | |- context [if ?c then _ else _] => destruct c
         end; cbn [snd]; auto.
Qed.

(** The creation of the device leaves the mapping of the struct alone. *)
Lemma device_create_mapping k e :
  let e' := (Platform.npcm750_ece_device_create k e).1.2 in
  Platform.base e' = Platform.base e /\
  Platform.ed_buffer e' = Platform.ed_buffer e /\
  Platform.comp_start e' = Platform.comp_start e /\
  Platform.comp_len e' = Platform.comp_len e /\
  Platform.dev_p e' = Platform.dev_p e.
Proof.
  unfold Platform.npcm750_ece_device_create, Platform.device_create_err.
  destruct (Platform.alloc_chrdev_region k) as [ret devt].
  repeat match goal with
         | |- context [if ?c then _ else _] => destruct c
         end; cbn; auto.
Qed.

(** With no memory for the cdev, the creation gives back what
    [alloc_chrdev_region] returned and the struct as it was. *)
Lemma device_create_no_cdev k e :
  0 <= (Platform.alloc_chrdev_region k).1 -> Platform.kmalloc k = 0 ->
  Platform.npcm750_ece_device_create k e
  = ((Platform.alloc_chrdev_region k).1, e, [0]).
Proof.
  unfold Platform.npcm750_ece_device_create, Platform.device_create_err.
  destruct (Platform.alloc_chrdev_region k) as [ret devt]. cbn [fst snd].
  intros H1 H2. apply Z.ltb_ge in H1. rewrite H1, H2. reflexivity.
Qed.

(** When the kernel grants every request, the struct holds the device
    number, the class and the device node. *)
Lemma device_create_granted k e :
  0 <= (Platform.alloc_chrdev_region k).1 -> Platform.kmalloc k <> 0 ->
  0 <= Platform.cdev_add k ->
  Platform.IS_ERR (Platform.class_create k) = false ->
  Platform.IS_ERR (Platform.device_create k) = false ->
  Platform.npcm750_ece_device_create k e
  = (0, Platform.set_dev (Platform.device_create k)
          (Platform.set_ece_class (Platform.class_create k)
             (Platform.set_dev_t (Platform.alloc_chrdev_region k).2 e)), []).
Proof.
  unfold Platform.npcm750_ece_device_create.
  destruct (Platform.alloc_chrdev_region k) as [ret devt]. cbn [fst snd].
  intros H1 H2 H3 H4 H5.
  apply Z.ltb_ge in H1, H3. apply Z.eqb_neq in H2.
  rewrite H1, H2, H3.
  cbn [Platform.ece_class Platform.set_ece_class]. rewrite H4.
  cbn [Platform.dev Platform.set_dev]. rewrite H5. reflexivity.
Qed.

(** The probe, once the struct is allocated and the three mappings are
    granted: it is the creation of the device that decides. *)
Lemma probe_mapped pdev_dev k :
  Platform.kzalloc k <> 0 -> Platform.request_mem_region k <> 0 ->
  Platform.ioremap k <> 0 -> Platform.IS_ERR (Platform.of_iomap k) = false ->
  Platform.npcm750_ece_probe pdev_dev k
  = let '(ret, e, freed) :=
      Platform.npcm750_ece_device_create k
        (Platform.mk_ece (Platform.of_iomap k) (Platform.ioremap k) 0
                         pdev_dev 0 0 0 (Platform.of_len k)
                         (Platform.of_start k)) in
    if negb (ret =? 0) then Platform.probe_err ret k freed
    else Platform.mk_outcome 0 (Some e) freed.
Proof.
  intros H1 H2 H3 H4. unfold Platform.npcm750_ece_probe.
  apply Z.eqb_neq in H1, H2, H3. rewrite H1, H2.
  cbn [Platform.ed_buffer Platform.set_ed_buffer]. rewrite H3.
  cbn [Platform.base Platform.set_base]. rewrite H4. reflexivity.
Qed.

(** X21.  The outcomes of the probe, whatever the kernel answers.  The
    device is registered exactly when the probe returns 0, and the
    struct registered holds the mapping as the kernel gave it.  When the
    struct cannot be allocated the probe returns [-ENOMEM] and frees
    nothing; on every other failure it frees the struct, last and once,
    and nothing else that is not [NULL]: a memory region requested, a
    buffer mapped and a cdev allocated before the failure stay as they
    are.  When the kernel grants every request the struct registered
    holds what it was given, and nothing is freed.  Two refusals of the
    kernel are not taken for failures: a [NULL] for the register window
    is no error pointer, so that the probe goes on with 0 as the base
    address; and with a device number but no memory for the cdev the
    probe returns 0 and registers the device without a device number, a
    class or a device node in the struct. *)
Theorem probe_outcomes (pdev_dev : Z) (k : Platform.kernel) :
  is_u32 (Platform.of_iomap k) -> is_u32 (Platform.class_create k) ->
  (Platform.ret (Platform.npcm750_ece_probe pdev_dev k) = 0 <->
   is_Some (Platform.registered_ece (Platform.npcm750_ece_probe pdev_dev k))) /\
  (forall e,
     Platform.registered_ece (Platform.npcm750_ece_probe pdev_dev k) = Some e ->
     Platform.base e = Platform.of_iomap k /\
     Platform.ed_buffer e = Platform.ioremap k /\
     Platform.comp_start e = Platform.of_start k /\
     Platform.comp_len e = Platform.of_len k /\
     Platform.dev_p e = pdev_dev) /\
  (Platform.kzalloc k = 0 ->
   Platform.npcm750_ece_probe pdev_dev k
   = Platform.mk_outcome (- Platform.ENOMEM) None []) /\
  (Platform.kzalloc k <> 0 ->
   Platform.ret (Platform.npcm750_ece_probe pdev_dev k) <> 0 ->
   exists freed,
     Platform.kfreed (Platform.npcm750_ece_probe pdev_dev k)
       = freed ++ [Platform.kzalloc k] /\
     Forall (fun p => p = 0) freed) /\
  (Platform.ret (Platform.npcm750_ece_probe pdev_dev k) = 0 ->
   Forall (fun p => p = 0)
          (Platform.kfreed (Platform.npcm750_ece_probe pdev_dev k))) /\
  (Platform.kzalloc k <> 0 -> Platform.request_mem_region k <> 0 ->
   Platform.ioremap k <> 0 -> Platform.IS_ERR (Platform.of_iomap k) = false ->
   0 <= (Platform.alloc_chrdev_region k).1 -> Platform.kmalloc k <> 0 ->
   0 <= Platform.cdev_add k ->
   Platform.IS_ERR (Platform.class_create k) = false ->
   Platform.IS_ERR (Platform.device_create k) = false ->
   Platform.npcm750_ece_probe pdev_dev k
   = Platform.mk_outcome 0
       (Some (Platform.mk_ece (Platform.of_iomap k) (Platform.ioremap k)
                (Platform.device_create k) pdev_dev 0
                (Platform.class_create k) (Platform.alloc_chrdev_region k).2
                (Platform.of_len k) (Platform.of_start k))) []) /\
  (Platform.kzalloc k <> 0 -> Platform.request_mem_region k <> 0 ->
   Platform.ioremap k <> 0 -> Platform.IS_ERR (Platform.of_iomap k) = false ->
   (Platform.alloc_chrdev_region k).1 = 0 -> Platform.kmalloc k = 0 ->
   exists e,
     Platform.npcm750_ece_probe pdev_dev k
       = Platform.mk_outcome 0 (Some e) [0] /\
     Platform.dev_t e = 0 /\ Platform.ece_class e = 0 /\ Platform.dev e = 0) /\
  (Platform.of_iomap k = 0 -> Platform.IS_ERR (Platform.of_iomap k) = false).
Proof.
  intros Hb Hc.
  assert (Hlast :
    (Platform.kzalloc k <> 0 -> Platform.request_mem_region k <> 0 ->
     Platform.ioremap k <> 0 -> Platform.IS_ERR (Platform.of_iomap k) = false ->
     0 <= (Platform.alloc_chrdev_region k).1 -> Platform.kmalloc k <> 0 ->
     0 <= Platform.cdev_add k ->
     Platform.IS_ERR (Platform.class_create k) = false ->
     Platform.IS_ERR (Platform.device_create k) = false ->
     Platform.npcm750_ece_probe pdev_dev k
     = Platform.mk_outcome 0
         (Some (Platform.mk_ece (Platform.of_iomap k) (Platform.ioremap k)
                  (Platform.device_create k) pdev_dev 0
                  (Platform.class_create k) (Platform.alloc_chrdev_region k).2
                  (Platform.of_len k) (Platform.of_start k))) []) /\
    (Platform.kzalloc k <> 0 -> Platform.request_mem_region k <> 0 ->
     Platform.ioremap k <> 0 -> Platform.IS_ERR (Platform.of_iomap k) = false ->
     (Platform.alloc_chrdev_region k).1 = 0 -> Platform.kmalloc k = 0 ->
     exists e,
       Platform.npcm750_ece_probe pdev_dev k
         = Platform.mk_outcome 0 (Some e) [0] /\
       Platform.dev_t e = 0 /\ Platform.ece_class e = 0 /\
       Platform.dev e = 0)).
  { split.
    - intros H1 H2 H3 H4 H5 H6 H7 H8 H9.
      rewrite (probe_mapped _ _ H1 H2 H3 H4).
      rewrite (device_create_granted _ _ H5 H6 H7 H8 H9). reflexivity.
    - intros H1 H2 H3 H4 H5 H6.
      rewrite (probe_mapped _ _ H1 H2 H3 H4).
      assert (H0 : 0 <= (Platform.alloc_chrdev_region k).1) by lia.
      rewrite (device_create_no_cdev _ _ H0 H6), H5.
      eexists. split; [reflexivity|]. cbn. auto. }
  destruct Hlast as [Hl1 Hl2].
  assert (Hmain :
    (Platform.ret (Platform.npcm750_ece_probe pdev_dev k) = 0 <->
     is_Some (Platform.registered_ece
                (Platform.npcm750_ece_probe pdev_dev k))) /\
    (forall e,
       Platform.registered_ece (Platform.npcm750_ece_probe pdev_dev k)
         = Some e ->
       Platform.base e = Platform.of_iomap k /\
       Platform.ed_buffer e = Platform.ioremap k /\
       Platform.comp_start e = Platform.of_start k /\
       Platform.comp_len e = Platform.of_len k /\
       Platform.dev_p e = pdev_dev) /\
    (Platform.kzalloc k = 0 ->
     Platform.npcm750_ece_probe pdev_dev k
     = Platform.mk_outcome (- Platform.ENOMEM) None []) /\
    (Platform.kzalloc k <> 0 ->
     Platform.ret (Platform.npcm750_ece_probe pdev_dev k) <> 0 ->
     exists freed,
       Platform.kfreed (Platform.npcm750_ece_probe pdev_dev k)
         = freed ++ [Platform.kzalloc k] /\
       Forall (fun p => p = 0) freed) /\
    (Platform.ret (Platform.npcm750_ece_probe pdev_dev k) = 0 ->
     Forall (fun p => p = 0)
            (Platform.kfreed (Platform.npcm750_ece_probe pdev_dev k)))).
  2: { destruct Hmain as (M1 & M2 & M3 & M4 & M5).
       split; [exact M1|]. split; [exact M2|]. split; [exact M3|].
       split; [exact M4|]. split; [exact M5|]. split; [exact Hl1|].
       split; [exact Hl2|]. intros ->. reflexivity. }
  clear Hl1 Hl2.
  unfold Platform.npcm750_ece_probe, Platform.probe_err.
  destruct (Z.eqb_spec (Platform.kzalloc k) 0) as [Ez|Ez].
  { cbn. repeat split; try (intros; easy).
    intros [x Hx]. discriminate Hx. }
  destruct (Z.eqb_spec (Platform.request_mem_region k) 0).
  { cbn [Platform.ret Platform.registered_ece Platform.kfreed].
    repeat split; try (intros; easy).
    - intros [x Hx]. discriminate Hx.
    - intros _ _. exists []. split; [reflexivity | constructor]. }
  cbn [Platform.ed_buffer Platform.set_ed_buffer].
  destruct (Z.eqb_spec (Platform.ioremap k) 0).
  { cbn [Platform.ret Platform.registered_ece Platform.kfreed].
    repeat split; try (intros; easy).
    - intros [x Hx]. discriminate Hx.
    - intros _ _. exists []. split; [reflexivity | constructor]. }
  cbn [Platform.base Platform.set_base].
  destruct (Platform.IS_ERR (Platform.of_iomap k)) eqn:Eb.
  { pose proof (is_err_negative _ Hb Eb).
    cbn [Platform.ret Platform.registered_ece Platform.kfreed].
    repeat split; try (intros; lia); try (intros; easy).
    - intros [x Hx]. discriminate Hx.
    - intros _ _. exists []. split; [reflexivity | constructor]. }
  match goal with
  | |- context [Platform.npcm750_ece_device_create k ?e] =>
      pose proof (device_create_freed k e) as Hf;
      pose proof (device_create_mapping k e) as Hm;
      destruct (Platform.npcm750_ece_device_create k e) as [[ret e'] freed]
  end.
  cbn [fst snd] in Hf, Hm. cbn zeta in Hm.
  cbn [Platform.base Platform.ed_buffer Platform.comp_start Platform.comp_len
       Platform.dev_p Platform.set_dev_p Platform.set_base
       Platform.set_ed_buffer Platform.set_comp Platform.zeroed] in Hm.
  destruct (Z.eqb_spec ret 0) as [->|Hr]; cbn [negb];
    cbn [Platform.ret Platform.registered_ece Platform.kfreed].
  - split; [split; [eauto | reflexivity]|].
    split; [intros e0 [= <-]; exact Hm|].
    split; [intros; easy|]. split; [intros; easy|]. intros _. exact Hf.
  - split; [split; [intros; easy | intros [x Hx]; discriminate Hx]|].
    split; [intros e0 [=]|].
    split; [intros; easy|].
    split; [| intros; easy].
    intros _ _. exists freed. split; [reflexivity | exact Hf].
Qed.

(** A kernel with no memory for the cdev: the probe reports success. *)
Lemma probe_outcomes_witness :
  is_u32 (Platform.of_iomap Platform.without_cdev) /\
  is_u32 (Platform.class_create Platform.without_cdev) /\
  (Platform.ret (Platform.npcm750_ece_probe 0xC2000000 Platform.without_cdev)
   = 0 <->
   is_Some (Platform.registered_ece
              (Platform.npcm750_ece_probe 0xC2000000 Platform.without_cdev))).
Proof.
  split; [unfold is_u32; cbn; lia|]. split; [unfold is_u32; cbn; lia|].
  apply (probe_outcomes 0xC2000000 Platform.without_cdev);
    unfold is_u32; cbn; lia.
Defined.

(** With no memory for the cdev, what the probe registers. *)
Example probe_no_cdev :
  Platform.npcm750_ece_probe 0xC2000000 Platform.without_cdev
  = Platform.mk_outcome 0
      (Some (Platform.mk_ece 0xF0820000 0xD0000000 0 0xC2000000 0 0 0
                             0x400000 0x7C00000)) [0].
Proof. reflexivity. Qed.

(** The register window refused: [of_iomap] gives [NULL], the probe
    goes through and registers 0 as the base address. *)
Example probe_null_window :
  Platform.npcm750_ece_probe 0xC2000000 Platform.without_iomap
  = Platform.mk_outcome 0
      (Some (Platform.mk_ece 0 0xD0000000 0xC1000400 0xC2000000 0
                             0xC1000300 0xF400000 0x400000 0x7C00000)) [].
Proof. reflexivity. Qed.

(** The class refused: the probe fails with the error of the class and
    frees the struct, not the cdev. *)
Example probe_no_class :
  Platform.npcm750_ece_probe 0xC2000000 Platform.without_class
  = Platform.mk_outcome (- Platform.ENOMEM) None [0xC1000000].
Proof. reflexivity. Qed.
